(** * Thermal monitoring: telemetry processing and alerting engine

    A shallow embedding of the two stateful cores of the repository,

    - [ThermalIsolationTracker] (src/thermal-monitoring/ThermalIsolationTracker.cpp):
      per-sensor state, threshold evaluation, alert throttling, offline sweep;
    - [DataProcessor] (src/hardware-emulation/rpi4-gateways/RPi4_DataProcessor.cpp):
      bounded ingest queue, per-sensor statistics and history, trend
      analytics, windowed aggregation;

    of the code around them,

    - the message parsing utilities [parse_sensor_message],
      [parse_json_sensor_data] and [split_string] of the tracker's file, and
      [MqttWebSocketBridge::process_sensor_message]
      (src/communication-backends/cpp-bridge/src/mqtt_ws_bridge.cpp), which
      hands a parsed message to a tracker;
    - the binary sensor frame: [STM32_SensorNode::create_binary_packet]
      (src/hardware-emulation/stm32-sensors/STM32_SensorNode.cpp), which
      builds it, and [UARTInterface::reader_loop],
      [UARTInterface::parse_uart_packet] and [SPIInterface::parse_spi_packet]
      (src/hardware-emulation/rpi4-gateways/RPi4_Gateway.cpp), which read it;

    together with the properties the specification states about the two
    cores, and further properties of all of them.

    Modelling conventions.
    - C++ [float] is an interface ([FloatOps]) with two instances: IEEE-754
      binary32 with round-to-nearest-even ([binary32], the arithmetic the
      program runs) and exact rationals ([Q], the arithmetic the regression
      formulas are written for).  Every function is written once, against the
      interface.
    - [std::chrono::steady_clock::time_point] is a number of nanoseconds
      since the clock's epoch (a [Z]); the value-initialised time point is 0.
      Every call of [steady_clock::now()] is one read of a clock oracle
      [steady_clock : nat -> Z] (the k-th read of the run returns
      [steady_clock k]); the state counts the reads made so far.
    - [std::unordered_map] is a [gmap]; [operator[]] inserts the default value
      when the key is absent, [find] does not.
    - Methods that mutate the object are computations in a small state monad.
    - Mutexes only serialise the methods; each method body is one atomic step
      of the model.  Threads, start/stop and console output are not modelled,
      except that the alert line printed by [generate_alert] is kept as the
      log of emitted alerts.
    - A position in a [std::string] is a [size_t] (an [N] with its arithmetic
      modulo 2^64); a call that can leave by an exception has an [outcome];
      [std::stof] is a parameter.
    - A byte is a [Z] from 0 to 255, a [std::vector<uint8_t>] a list of them.
      An operation whose behaviour the language leaves undefined (a signed
      overflow, a conversion of a float out of range) has the result [None]. *)

From Stdlib Require Import ZArith QArith Qabs Lqa Floats.SpecFloat.
From Stdlib Require Import Ascii DecimalString.
From stdpp Require Import gmap strings list fin_maps.

Local Open Scope Z_scope.

(** ** A small state monad *)

Definition State (S A : Type) : Type := S -> A * S.

Definition ret {S A : Type} (a : A) : State S A := fun s => (a, s).

Definition bind {S A B : Type} (m : State S A) (k : A -> State S B) : State S B :=
  fun s => let (a, s') := m s in k a s'.

Definition get {S : Type} : State S S := fun s => (s, s).

Definition put {S : Type} (s : S) : State S unit := fun _ => (tt, s).

Definition exec {S A : Type} (m : State S A) (s : S) : S := snd (m s).

Definition eval {S A : Type} (m : State S A) (s : S) : A := fst (m s).

Notation "'do' x <- m ; k" := (bind m (fun x => k))
  (at level 10, x name, m at level 100, k at level 200, only parsing).
Notation "m ;; k" := (bind m (fun _ => k))
  (at level 100, k at level 200, right associativity, only parsing).

(** [for (x : l) body(x)] *)
Fixpoint for_each {S A : Type} (l : list A) (body : A -> State S unit) : State S unit :=
  match l with
  | [] => ret tt
  | x :: l' => body x ;; for_each l' body
  end.

(** ** The arithmetic of [float] *)

Class FloatOps (F : Type) : Type := {
  f_of_Z : Z -> F;          (* conversion of an integer, and integral literals *)
  fadd : F -> F -> F;
  fsub : F -> F -> F;
  fmul : F -> F -> F;
  fdiv : F -> F -> F;
  fabs : F -> F;            (* std::abs *)
  flt : F -> F -> bool      (* a < b *)
}.

Section FloatDerived.
Context {F : Type} `{FloatOps F}.

(** [a > b] *)
Definition fgt (a b : F) : bool := flt b a.

(** [std::min(a, b)] is [(b < a) ? b : a]; [std::max(a, b)] is [(a < b) ? b : a]. *)
Definition fmin (a b : F) : F := if flt b a then b else a.
Definition fmax (a b : F) : F := if flt a b then b else a.

(** [std::accumulate(first, last, init)] *)
Definition accumulate (l : list F) (init : F) : F := fold_left fadd l init.
End FloatDerived.

(** IEEE-754 binary32: 24 bits of precision, exponents up to 128. *)
Definition binary32 : Type := spec_float.

#[export] Instance binary32_ops : FloatOps binary32 := {|
  f_of_Z := fun z => binary_normalize 24 128 z 0 false;
  fadd := SFadd 24 128;
  fsub := SFsub 24 128;
  fmul := SFmul 24 128;
  fdiv := SFdiv 24 128;
  fabs := SFabs;
  flt := SFltb
|}.

(** Exact rational arithmetic. *)
Definition Qltb (a b : Q) : bool := negb (Qle_bool b a).

#[export] Instance Q_ops : FloatOps Q := {|
  f_of_Z := inject_Z;
  fadd := Qplus;
  fsub := Qminus;
  fmul := Qmult;
  fdiv := Qdiv;
  fabs := Qabs;
  flt := Qltb
|}.

(** ** Time *)

Abbreviation time_point := Z (only parsing).

Definition ns_per_second : Z := 1000000000.
Definition ns_per_minute : Z := 60 * ns_per_second.

(** [duration_cast<minutes>(d).count()]: integer division that truncates
    toward zero. *)
Definition duration_minutes (d : Z) : Z := Z.quot d ns_per_minute.

(** [std::chrono::seconds(n)] as a duration in nanoseconds. *)
Definition seconds (n : Z) : Z := n * ns_per_second.

(** Conversion of a 64-bit count to [int], and of an [int] to [size_t]
    (a [size_t] value is an [N]). *)
Definition to_int32 (z : Z) : Z := (z + 2 ^ 31) mod 2 ^ 32 - 2 ^ 31.
Definition to_size_t (z : Z) : N := Z.to_N (z mod 2 ^ 64).

(** [c.size()] *)
Definition size {A : Type} (c : list A) : N := N.of_nat (length c).

(** [c.push_back(x); if (c.size() > cap) c.pop_front();]  (for a vector,
    [c.erase(c.begin())]) *)
Definition push_bounded {A : Type} (cap : N) (x : A) (c : list A) : list A :=
  let c' := c ++ [x] in
  if (cap <? size c')%N then tail c' else c'.

(** [for (int i = start; i < n; ++i) result.push_back(c[i]);], as the
    [steps = n - start] iterations from index [i]. *)
Fixpoint copy_range {A : Type} (c : list A) (i : nat) (steps : nat) : list A :=
  match steps with
  | O => []
  | S k =>
      match c !! i with
      | Some x => x :: copy_range c (S i) k
      | None => []
      end
  end.

(** The body shared by [get_recent_alerts] and [get_recent_edge_results]:
    [int start = std::max(0, static_cast<int>(c.size()) - count);] followed
    by the copy loop.  The subtraction is on [int]; where it overflows the
    behaviour is undefined and there is no result. *)
Definition recent_items {A : Type} (c : list A) (count : Z) : option (list A) :=
  let n := to_int32 (Z.of_N (size c)) in
  if decide (- 2 ^ 31 <= n - count < 2 ^ 31) then
    let start := Z.max 0 (n - count) in
    Some (copy_range c (Z.to_nat start) (Z.to_nat (n - start)))
  else None.

(** * namespace thermal_monitoring *)

Inductive AlertType : Type :=
  | TEMP_TOO_LOW
  | TEMP_TOO_HIGH
  | HUMIDITY_TOO_HIGH
  | TEMP_RISING_FAST
  | TEMP_FALLING_FAST
  | SENSOR_OFFLINE.

#[export] Instance AlertType_eq_dec : EqDecision AlertType.
Proof. solve_decision. Defined.

Definition AlertType_to_nat (a : AlertType) : nat :=
  match a with
  | TEMP_TOO_LOW => 0 | TEMP_TOO_HIGH => 1 | HUMIDITY_TOO_HIGH => 2
  | TEMP_RISING_FAST => 3 | TEMP_FALLING_FAST => 4 | SENSOR_OFFLINE => 5
  end%nat.

Definition AlertType_of_nat (n : nat) : AlertType :=
  match n with
  | 0 => TEMP_TOO_LOW | 1 => TEMP_TOO_HIGH | 2 => HUMIDITY_TOO_HIGH
  | 3 => TEMP_RISING_FAST | 4 => TEMP_FALLING_FAST | _ => SENSOR_OFFLINE
  end%nat.

#[export] Instance AlertType_countable : Countable AlertType.
Proof.
  apply (inj_countable' AlertType_to_nat AlertType_of_nat).
  intros []; reflexivity.
Defined.

Module ThermalConfig.
Record t (F : Type) : Type := mk {
  temp_min : F;
  temp_max : F;
  humidity_max : F;
  temp_rate_limit : F;
  sensor_timeout_minutes : Z;
  alert_throttle_minutes : Z;
  history_size : N;
  max_alerts_history : N;
  sensor_locations : gmap string string
}.
Arguments mk {F}.
Arguments temp_min {F}.
Arguments temp_max {F}.
Arguments humidity_max {F}.
Arguments temp_rate_limit {F}.
Arguments sensor_timeout_minutes {F}.
Arguments alert_throttle_minutes {F}.
Arguments history_size {F}.
Arguments max_alerts_history {F}.
Arguments sensor_locations {F}.

(** The default member initialisers. *)
Definition default {F : Type} `{FloatOps F} : t F :=
  mk (f_of_Z 18) (f_of_Z 28) (f_of_Z 60) (f_of_Z 2) 10 5 100%N 1000%N ∅.
End ThermalConfig.

Module TimestampedReading.
Record t (F : Type) : Type := mk {
  value : F;
  timestamp : time_point
}.
Arguments mk {F}.
Arguments value {F}.
Arguments timestamp {F}.
End TimestampedReading.

Module SensorData.
Record t (F : Type) : Type := mk {
  sensor_id : string;
  temperature : F;
  humidity : F;
  location : string;
  last_update : time_point;
  is_active : bool;
  temp_rate : F;
  temperature_history : list (TimestampedReading.t F);
  humidity_history : list (TimestampedReading.t F)
}.
Arguments mk {F}.
Arguments sensor_id {F}.
Arguments temperature {F}.
Arguments humidity {F}.
Arguments location {F}.
Arguments last_update {F}.
Arguments is_active {F}.
Arguments temp_rate {F}.
Arguments temperature_history {F}.
Arguments humidity_history {F}.

(** The default-constructed value, as [sensors_[id]] creates it. *)
Definition default {F : Type} `{FloatOps F} : t F :=
  mk "" (f_of_Z 0) (f_of_Z 0) "" 0 false (f_of_Z 0) [] [].
End SensorData.

Module Alert.
Record t (F : Type) : Type := mk {
  sensor_id : string;
  alert_type : AlertType;
  location : string;
  timestamp : time_point;
  temperature : F;
  humidity : F;
  temp_rate : F;
  message : string
}.
Arguments mk {F}.
Arguments sensor_id {F}.
Arguments alert_type {F}.
Arguments location {F}.
Arguments timestamp {F}.
Arguments temperature {F}.
Arguments humidity {F}.
Arguments temp_rate {F}.
Arguments message {F}.
End Alert.

Module SensorStats.
Record t (F : Type) : Type := mk {
  sensor_id : string;
  location : string;
  current_temp : F;
  current_humidity : F;
  avg_temp : F;
  min_temp : F;
  max_temp : F;
  uptime_minutes : Z
}.
Arguments mk {F}.
Arguments sensor_id {F}.
Arguments location {F}.
Arguments current_temp {F}.
Arguments current_humidity {F}.
Arguments avg_temp {F}.
Arguments min_temp {F}.
Arguments max_temp {F}.
Arguments uptime_minutes {F}.

(** [SensorStats stats = {};] *)
Definition zero {F : Type} `{FloatOps F} : t F :=
  mk "" "" (f_of_Z 0) (f_of_Z 0) (f_of_Z 0) (f_of_Z 0) (f_of_Z 0) 0.
End SensorStats.

(** ** class ThermalIsolationTracker *)

Module ThermalIsolationTracker.

(** The data members.  [emitted_] is the sequence of alerts that
    [generate_alert] has printed and handed to [alert_callback_];
    [clock_reads_] counts the calls of [steady_clock::now()]. *)
Record state (F : Type) : Type := mk {
  config_ : ThermalConfig.t F;
  sensors_ : gmap string (SensorData.t F);
  recent_alerts_ : list (Alert.t F);
  alert_throttle_ : gmap string (gmap AlertType time_point);
  emitted_ : list (Alert.t F);
  clock_reads_ : nat
}.
Arguments mk {F}.
Arguments config_ {F}.
Arguments sensors_ {F}.
Arguments recent_alerts_ {F}.
Arguments alert_throttle_ {F}.
Arguments emitted_ {F}.
Arguments clock_reads_ {F}.

Section Methods.
Context {F : Type} `{FloatOps F}.

(** The clock, and the rendering of an alert's text (which prints floats in
    decimal and is left open). *)
Variable steady_clock : nat -> time_point.
Variable format_alert_message : ThermalConfig.t F -> Alert.t F -> string.

(** The constructor. *)
Definition create (config : ThermalConfig.t F) : state F :=
  mk config ∅ [] ∅ [] 0.

(** [std::chrono::steady_clock::now()] *)
Definition now : State (state F) time_point :=
  fun st =>
    (steady_clock (clock_reads_ st),
     mk (config_ st) (sensors_ st) (recent_alerts_ st) (alert_throttle_ st)
        (emitted_ st) (S (clock_reads_ st))).

Definition set_sensors (m : gmap string (SensorData.t F)) : State (state F) unit :=
  fun st =>
    (tt, mk (config_ st) m (recent_alerts_ st) (alert_throttle_ st)
            (emitted_ st) (clock_reads_ st)).

Definition set_alert_throttle (m : gmap string (gmap AlertType time_point))
  : State (state F) unit :=
  fun st =>
    (tt, mk (config_ st) (sensors_ st) (recent_alerts_ st) m
            (emitted_ st) (clock_reads_ st)).

(** Storing an alert in [recent_alerts_] and delivering it. *)
Definition store_and_deliver (alert : Alert.t F) : State (state F) unit :=
  fun st =>
    (tt, mk (config_ st) (sensors_ st)
            (push_bounded (ThermalConfig.max_alerts_history (config_ st)) alert
                          (recent_alerts_ st))
            (alert_throttle_ st)
            (emitted_ st ++ [alert]) (clock_reads_ st)).

Definition get_sensor_location (config : ThermalConfig.t F) (sensor_id : string) : string :=
  match ThermalConfig.sensor_locations config !! sensor_id with
  | Some loc => loc
  | None => "Unknown"
  end.

Definition should_throttle_alert (sensor_id : string) (alert_type : AlertType)
  : State (state F) bool :=
  do st <- get;
  (* auto& sensor_throttle = alert_throttle_[sensor_id]; *)
  let sensor_throttle := default ∅ (alert_throttle_ st !! sensor_id) in
  set_alert_throttle (<[sensor_id := sensor_throttle]> (alert_throttle_ st)) ;;
  match sensor_throttle !! alert_type with
  | None => ret false
  | Some last_fired =>
      do t <- now;
      ret (duration_minutes (t - last_fired)
             <? ThermalConfig.alert_throttle_minutes (config_ st))
  end.

Definition generate_alert (sensor_id : string) (alert_type : AlertType)
    (sensor : SensorData.t F) : State (state F) unit :=
  do throttled <- should_throttle_alert sensor_id alert_type;
  if throttled then ret tt
  else
    do ts <- now;
    do st <- get;
    let alert0 :=
      Alert.mk sensor_id alert_type (SensorData.location sensor) ts
               (SensorData.temperature sensor) (SensorData.humidity sensor)
               (SensorData.temp_rate sensor) "" in
    let alert :=
      Alert.mk sensor_id alert_type (SensorData.location sensor) ts
               (SensorData.temperature sensor) (SensorData.humidity sensor)
               (SensorData.temp_rate sensor)
               (format_alert_message (config_ st) alert0) in
    store_and_deliver alert ;;
    (* alert_throttle_[sensor_id][alert_type] = alert.timestamp; *)
    set_alert_throttle
      (<[sensor_id := <[alert_type := ts]> (default ∅ (alert_throttle_ st !! sensor_id))]>
         (alert_throttle_ st)).

(** The vector [alerts] that [check_thresholds] builds before it generates
    them; [t] is the time it reads for the offline check. *)
Definition threshold_candidates (config : ThermalConfig.t F) (sensor : SensorData.t F)
    (t : time_point) : list AlertType :=
  (if flt (SensorData.temperature sensor) (ThermalConfig.temp_min config)
   then [TEMP_TOO_LOW]
   else if fgt (SensorData.temperature sensor) (ThermalConfig.temp_max config)
        then [TEMP_TOO_HIGH] else [])
  ++ (if fgt (SensorData.humidity sensor) (ThermalConfig.humidity_max config)
      then [HUMIDITY_TOO_HIGH] else [])
  ++ (if fgt (fabs (SensorData.temp_rate sensor)) (ThermalConfig.temp_rate_limit config)
      then (if fgt (SensorData.temp_rate sensor) (f_of_Z 0)
            then [TEMP_RISING_FAST] else [TEMP_FALLING_FAST])
      else [])
  ++ (if ThermalConfig.sensor_timeout_minutes config
           <? duration_minutes (t - SensorData.last_update sensor)
      then [SENSOR_OFFLINE] else []).

Definition check_thresholds (sensor_id : string) (sensor : SensorData.t F)
  : State (state F) unit :=
  do st <- get;
  do t <- now;
  for_each (threshold_candidates (config_ st) sensor t)
           (fun alert => generate_alert sensor_id alert sensor).

(** The rate of change after a reading at time [t]: recomputed only when a
    previous update exists and at least one whole minute has passed. *)
Definition update_temp_rate (sensor : SensorData.t F) (temperature : F) (t : time_point) : F :=
  let prev_temp := SensorData.temperature sensor in
  let prev_time := SensorData.last_update sensor in
  if decide (prev_time <> 0) then
    let time_diff := duration_minutes (t - prev_time) in
    if 0 <? time_diff then fdiv (fsub temperature prev_temp) (f_of_Z time_diff)
    else SensorData.temp_rate sensor
  else SensorData.temp_rate sensor.

(** The assignments that [process_sensor_data] makes to the entry [sensor]
    of [sensors_] for a reading taken at time [t]. *)
Definition apply_reading (config : ThermalConfig.t F) (sensor : SensorData.t F)
    (sensor_id : string) (temperature humidity : F) (location : string)
    (t : time_point) : SensorData.t F :=
  SensorData.mk
    sensor_id temperature humidity
    (if decide (location = "") then get_sensor_location config sensor_id else location)
    t true
    (update_temp_rate sensor temperature t)
    (push_bounded (ThermalConfig.history_size config)
                  (TimestampedReading.mk temperature t)
                  (SensorData.temperature_history sensor))
    (push_bounded (ThermalConfig.history_size config)
                  (TimestampedReading.mk humidity t)
                  (SensorData.humidity_history sensor)).

Definition process_sensor_data (sensor_id : string) (temperature humidity : F)
    (location : string) : State (state F) bool :=
  do t <- now;
  do st <- get;
  (* SensorData& sensor = sensors_[sensor_id]; *)
  let sensor := default SensorData.default (sensors_ st !! sensor_id) in
  let sensor' :=
    apply_reading (config_ st) sensor sensor_id temperature humidity location t in
  set_sensors (<[sensor_id := sensor']> (sensors_ st)) ;;
  check_thresholds sensor_id sensor' ;;
  ret true.

Definition get_all_sensors (st : state F) : list (SensorData.t F) :=
  snd <$> map_to_list (sensors_ st).

(** [get_sensor_stats] is a [const] method: it can read the clock and
    nothing else changes. *)
Definition get_sensor_stats (sensor_id : string) : State (state F) (SensorStats.t F) :=
  do st <- get;
  match sensors_ st !! sensor_id with
  | None => ret SensorStats.zero
  | Some sensor =>
      let history := SensorData.temperature_history sensor in
      let '(avg, lo, hi) :=
        match history with
        | [] => (f_of_Z 0, f_of_Z 0, f_of_Z 0)
        | first :: _ =>
            let v0 := TimestampedReading.value first in
            let '(sum, lo, hi) :=
              fold_left
                (fun '(sum, lo, hi) reading =>
                   (fadd sum (TimestampedReading.value reading),
                    fmin lo (TimestampedReading.value reading),
                    fmax hi (TimestampedReading.value reading)))
                history (f_of_Z 0, v0, v0) in
            (fdiv sum (f_of_Z (Z.of_N (size history))), lo, hi)
        end in
      do uptime <-
        (if decide (SensorData.last_update sensor <> 0) then
           do t <- now;
           ret (to_int32 (duration_minutes (t - SensorData.last_update sensor)))
         else ret 0);
      ret (SensorStats.mk sensor_id (SensorData.location sensor)
             (SensorData.temperature sensor) (SensorData.humidity sensor)
             avg lo hi uptime)
  end.

(** One iteration of the loop of [check_offline_sensors], on the entry
    [(sensor_id, sensor)] of [sensors_]; [t] is the time read before the loop. *)
Definition check_offline_sensor (t : time_point) (entry : string * SensorData.t F)
  : State (state F) unit :=
  let '(sensor_id, sensor) := entry in
  do st <- get;
  if SensorData.is_active sensor then
    if ThermalConfig.sensor_timeout_minutes (config_ st)
         <? duration_minutes (t - SensorData.last_update sensor)
    then
      let sensor' :=
        SensorData.mk (SensorData.sensor_id sensor) (SensorData.temperature sensor)
          (SensorData.humidity sensor) (SensorData.location sensor)
          (SensorData.last_update sensor) false (SensorData.temp_rate sensor)
          (SensorData.temperature_history sensor) (SensorData.humidity_history sensor) in
      set_sensors (<[sensor_id := sensor']> (sensors_ st)) ;;
      generate_alert sensor_id SENSOR_OFFLINE sensor'
    else ret tt
  else ret tt.

(** The loop visits every entry of [sensors_] once; an iteration writes only
    its own entry, so the entries are those of the map before the loop. *)
Definition check_offline_sensors : State (state F) unit :=
  do t <- now;
  do st <- get;
  for_each (map_to_list (sensors_ st)) (check_offline_sensor t).

(** [get_recent_alerts(count)] *)
Definition get_recent_alerts (count : Z) (st : state F) : option (list (Alert.t F)) :=
  recent_items (recent_alerts_ st) count.

End Methods.
End ThermalIsolationTracker.

(** ** Message parsing utilities *)

(** *** [std::string] *)

(** A position in a string is a [size_t]: an [N] below 2^64, with
    [std::string::npos] the largest one. *)
Definition npos : N := (2 ^ 64 - 1)%N.
Definition size_t_add (a b : N) : N := ((a + b) mod 2 ^ 64)%N.
Definition size_t_sub (a b : N) : N := Z.to_N ((Z.of_N a - Z.of_N b) mod 2 ^ 64).

(** The double quote character. *)
Definition dquote : ascii := "034"%char.

(** The characters of [s] from position [pos] on; nothing when [pos] is
    beyond the end. *)
Fixpoint suffix_from (pos : N) (s : string) : option string :=
  if (pos =? 0)%N then Some s
  else match s with
       | EmptyString => None
       | String _ rest => suffix_from (N.pred pos) rest
       end.

(** The first position of [s] whose suffix satisfies [P]. *)
Fixpoint first_match (P : string -> bool) (s : string) : option N :=
  if P s then Some 0%N
  else match s with
       | EmptyString => None
       | String _ rest => N.succ <$> first_match P rest
       end.

Definition find_if (P : string -> bool) (s : string) (pos : N) : N :=
  match suffix_from pos s with
  | Some suffix =>
      match first_match P suffix with
      | Some i => (pos + i)%N
      | None => npos
      end
  | None => npos
  end.

(** [a] is one of the characters of [chars]. *)
Fixpoint char_in (a : ascii) (chars : string) : bool :=
  match chars with
  | EmptyString => false
  | String b rest => if decide (a = b) then true else char_in a rest
  end.

(** [s] starts with one of the characters of [chars]. *)
Definition head_in (chars : string) (s : string) : bool :=
  match s with
  | EmptyString => false
  | String a _ => char_in a chars
  end.

(** [s.find(needle, pos)], [s.find(c, pos)], [s.find_first_of(chars, pos)] *)
Definition find (s needle : string) (pos : N) : N := find_if (String.prefix needle) s pos.
Definition find_char (s : string) (c : ascii) (pos : N) : N :=
  find_if (head_in (String c EmptyString)) s pos.
Definition find_first_of (s chars : string) (pos : N) : N := find_if (head_in chars) s pos.

Fixpoint take_chars (count : N) (s : string) : string :=
  match s with
  | EmptyString => EmptyString
  | String a rest =>
      if (count =? 0)%N then EmptyString else String a (take_chars (N.pred count) rest)
  end.

(** [s.substr(pos, count)]; nothing when it throws [std::out_of_range]. *)
Definition substr (s : string) (pos count : N) : option string :=
  take_chars count <$> suffix_from pos s.

(** *** [split_string] *)

(** The loop [while (std::getline(ss, item, delimiter)) result.push_back(item);]
    over the unread characters [str], with [item] the characters extracted
    so far: at the end of the stream an extraction that has read nothing
    fails, and one that has read something succeeds. *)
Fixpoint getline_loop (str : string) (delimiter : ascii) (item : string) : list string :=
  match str with
  | EmptyString => if decide (item = EmptyString) then [] else [item]
  | String c rest =>
      if decide (c = delimiter) then item :: getline_loop rest delimiter EmptyString
      else getline_loop rest delimiter (item +:+ String c EmptyString)
  end.

Definition split_string (str : string) (delimiter : ascii) : list string :=
  getline_loop str delimiter EmptyString.

(** *** [parse_sensor_message] *)

Module SensorReading.
Record t (F : Type) : Type := mk {
  sensor_id : string;
  temperature : F;
  humidity : F;
  location : string
}.
Arguments mk {F}.
Arguments sensor_id {F}.
Arguments temperature {F}.
Arguments humidity {F}.
Arguments location {F}.

(** The default member initialisers. *)
Definition default {F : Type} `{FloatOps F} : t F := mk "" (f_of_Z 0) (f_of_Z 0) "".
End SensorReading.

(** A call either returns or leaves by an exception. *)
Inductive outcome (A : Type) : Type :=
  | Returns (a : A)
  | Throws.
Arguments Returns {A}.
Arguments Throws {A}.

Module Parsing.
Section Functions.
Context {F : Type} `{FloatOps F}.

(** [std::stof]: the float a string starts with, or nothing when it throws
    ([std::invalid_argument], [std::out_of_range]).  The conversion of
    decimal text is left open. *)
Variable stof : string -> option F.

Definition temperature_key : string := String dquote ("temperature" +:+ String dquote ":").
Definition humidity_key : string := String dquote ("humidity" +:+ String dquote ":").
Definition location_key : string := String dquote ("location" +:+ String dquote ":").

(** The text of the number that follows the key at [key_pos]: from behind
    the next colon up to the next [,] or [}]. *)
Definition number_text (json_str : string) (key_pos : N) : option string :=
  let start := size_t_add (find_char json_str ":" key_pos) 1 in
  let end_ := find_first_of json_str ",}" start in
  substr json_str start (size_t_sub end_ start).

(** The text between the next two double quotes behind the colon of the key
    at [key_pos]. *)
Definition quoted_text (json_str : string) (key_pos : N) : option string :=
  let start := size_t_add (find_char json_str dquote (find_char json_str ":" key_pos)) 1 in
  let end_ := find_char json_str dquote start in
  substr json_str start (size_t_sub end_ start).

(** The body of the [try] block; [None] is an exception, which the [catch]
    turns into [std::nullopt]. *)
Definition parse_json_sensor_data (json_str : string) (reading : SensorReading.t F)
  : option (SensorReading.t F) :=
  let temp_pos := find json_str temperature_key 0 in
  let hum_pos := find json_str humidity_key 0 in
  let loc_pos := find json_str location_key 0 in
  temperature ←
    (if decide (temp_pos <> npos) then number_text json_str temp_pos ≫= stof
     else Some (SensorReading.temperature reading));
  humidity ←
    (if decide (hum_pos <> npos) then number_text json_str hum_pos ≫= stof
     else Some (SensorReading.humidity reading));
  location ←
    (if decide (loc_pos <> npos) then quoted_text json_str loc_pos
     else Some (SensorReading.location reading));
  Some (SensorReading.mk (SensorReading.sensor_id reading) temperature humidity location).

Definition parse_sensor_message (topic payload : string)
  : outcome (option (SensorReading.t F)) :=
  match split_string topic "/" with
  | part0 :: part1 :: data_type :: _ =>
      if decide (part0 <> "sensors") then Returns None
      else
        let reading := SensorReading.mk part1 (f_of_Z 0) (f_of_Z 0) "" in
        if decide (data_type = "data") then Returns (parse_json_sensor_data payload reading)
        else if decide (data_type = "temperature") then
          match stof payload with
          | Some temperature => Returns (Some (SensorReading.mk part1 temperature (f_of_Z 0) ""))
          | None => Throws
          end
        else if decide (data_type = "humidity") then
          match stof payload with
          | Some humidity => Returns (Some (SensorReading.mk part1 (f_of_Z 0) humidity ""))
          | None => Throws
          end
        else Returns None
  | _ => Returns None
  end.

End Functions.
End Parsing.

(** ** [MqttWebSocketBridge::process_sensor_message] *)

Module MqttWebSocketBridge.
Section Methods.
Context {F : Type} `{FloatOps F}.
Variable steady_clock : nat -> time_point.
Variable format_alert_message : ThermalConfig.t F -> Alert.t F -> string.
Variable stof : string -> option F.

(** [thermal_tracker_] is the tracker the bridge owns, if it has one. *)
Definition process_sensor_message (topic payload : string)
    (thermal_tracker_ : option (ThermalIsolationTracker.state F))
  : outcome (option (ThermalIsolationTracker.state F)) :=
  match thermal_tracker_ with
  | None => Returns None
  | Some tracker =>
      match Parsing.parse_sensor_message stof topic payload with
      | Throws => Throws
      | Returns None => Returns (Some tracker)
      | Returns (Some sensor_reading) =>
          Returns
            (Some (exec (ThermalIsolationTracker.process_sensor_data
                           steady_clock format_alert_message
                           (SensorReading.sensor_id sensor_reading)
                           (SensorReading.temperature sensor_reading)
                           (SensorReading.humidity sensor_reading)
                           (SensorReading.location sensor_reading)) tracker))
      end
  end.

End Methods.
End MqttWebSocketBridge.

(** * namespace rpi4_gateway *)

Inductive CommInterface : Type :=
  | UART_INTERFACE
  | SPI_INTERFACE
  | I2C_INTERFACE
  | USB_SERIAL
  | GPIO_CUSTOM.

(** A [size_t] counter, incremented and decremented modulo 2^64. *)
Definition wrap64 (z : Z) : Z := z mod 2 ^ 64.

Module SensorDataPacket.
Record t (F : Type) : Type := mk {
  sensor_id : string;
  location : string;
  temperature_celsius : F;
  humidity_percent : F;
  pressure_hpa : F;
  supply_voltage : F;
  sensor_status : Z;
  raw_temp_adc : Z;
  raw_humidity_adc : Z;
  timestamp : time_point;
  interface_used : CommInterface;
  is_valid : bool;
  signal_strength : F;
  packet_sequence : Z;
  data_confidence : F
}.
Arguments mk {F}.
Arguments sensor_id {F}.
Arguments location {F}.
Arguments temperature_celsius {F}.
Arguments humidity_percent {F}.
Arguments pressure_hpa {F}.
Arguments supply_voltage {F}.
Arguments sensor_status {F}.
Arguments raw_temp_adc {F}.
Arguments raw_humidity_adc {F}.
Arguments timestamp {F}.
Arguments interface_used {F}.
Arguments is_valid {F}.
Arguments signal_strength {F}.
Arguments packet_sequence {F}.
Arguments data_confidence {F}.
End SensorDataPacket.

Module SensorStatistics.
Record t (F : Type) : Type := mk {
  sensor_id : string;
  total_packets : Z;
  valid_packets : Z;
  error_packets : Z;
  packet_loss_rate : F;
  avg_temperature : F;
  avg_humidity : F;
  min_temperature : F;
  max_temperature : F;
  temperature_stddev : F;
  last_update : time_point;
  first_seen : time_point
}.
Arguments mk {F}.
Arguments sensor_id {F}.
Arguments total_packets {F}.
Arguments valid_packets {F}.
Arguments error_packets {F}.
Arguments packet_loss_rate {F}.
Arguments avg_temperature {F}.
Arguments avg_humidity {F}.
Arguments min_temperature {F}.
Arguments max_temperature {F}.
Arguments temperature_stddev {F}.
Arguments last_update {F}.
Arguments first_seen {F}.

(** The value-initialised record: [SensorStatistics s = {};], and what
    [sensor_stats_[id]] creates. *)
Definition zero {F : Type} `{FloatOps F} : t F :=
  mk "" 0 0 0 (f_of_Z 0) (f_of_Z 0) (f_of_Z 0) (f_of_Z 0) (f_of_Z 0) (f_of_Z 0) 0 0.
End SensorStatistics.

Module EdgeProcessingResult.
Record t (F : Type) : Type := mk {
  sensor_id : string;
  analysis_type : string;
  metrics : gmap string F;
  alerts : list string;
  recommendations : list string;
  confidence_score : F;
  processed_at : time_point
}.
Arguments mk {F}.
Arguments sensor_id {F}.
Arguments analysis_type {F}.
Arguments metrics {F}.
Arguments alerts {F}.
Arguments recommendations {F}.
Arguments confidence_score {F}.
Arguments processed_at {F}.
End EdgeProcessingResult.

(** The fields of [RPi4GatewayConfig] that [DataProcessor] reads. *)
Module RPi4GatewayConfig.
Record t (F : Type) : Type := mk {
  gateway_id : string;
  mqtt_base_topic : string;
  aggregation_window_seconds : Z;
  max_sensor_history : Z;
  enable_edge_analytics : bool;
  temp_alert_low : F;
  temp_alert_high : F;
  humidity_alert_high : F;
  max_queue_size : Z;
  worker_thread_count : Z
}.
Arguments mk {F}.
Arguments gateway_id {F}.
Arguments mqtt_base_topic {F}.
Arguments aggregation_window_seconds {F}.
Arguments max_sensor_history {F}.
Arguments enable_edge_analytics {F}.
Arguments temp_alert_low {F}.
Arguments temp_alert_high {F}.
Arguments humidity_alert_high {F}.
Arguments max_queue_size {F}.
Arguments worker_thread_count {F}.

(** The default member initialisers ([gateway_id] has none). *)
Definition default {F : Type} `{FloatOps F} : t F :=
  mk "" "gateway" 60 1000 true (f_of_Z 10) (f_of_Z 35) (f_of_Z 80) 10000 4.
End RPi4GatewayConfig.

(** The JSON object that [format_aggregated_data] renders, field by field. *)
Module AggregatedWindow.
Record t (F : Type) : Type := mk {
  sensor_id : string;
  location : string;
  timestamp : Z;
  window_seconds : Z;
  sample_count : N;
  valid_count : Z;
  temperature_avg : F;
  temperature_min : F;
  temperature_max : F;
  humidity_avg : F;
  pressure_avg : F;
  gateway_id : string
}.
Arguments mk {F}.
Arguments sensor_id {F}.
Arguments location {F}.
Arguments timestamp {F}.
Arguments window_seconds {F}.
Arguments sample_count {F}.
Arguments valid_count {F}.
Arguments temperature_avg {F}.
Arguments temperature_min {F}.
Arguments temperature_max {F}.
Arguments humidity_avg {F}.
Arguments pressure_avg {F}.
Arguments gateway_id {F}.
End AggregatedWindow.

(** The messages [DataProcessor] formats.  A message is kept as the data it
    is rendered from: the decimal rendering of floats is not modelled. *)
Inductive Message (F : Type) : Type :=
  | MqttData (packet : SensorDataPacket.t F) (gateway_id : string)
  | WebSocketData (packet : SensorDataPacket.t F) (gateway_id : string)
  | AggregatedData (window : AggregatedWindow.t F)
  | EmptyObject.
Arguments MqttData {F}.
Arguments WebSocketData {F}.
Arguments AggregatedData {F}.
Arguments EmptyObject {F}.

(** The alert texts of [check_alerts], with the value each one prints. *)
Inductive PacketAlert (F : Type) : Type :=
  | TemperatureTooLow (celsius : F)
  | TemperatureTooHigh (celsius : F)
  | HumidityTooHigh (percent : F)
  | LowBatteryVoltage (volts : F)
  | SensorFaultDetected
  | CommunicationFault.
Arguments TemperatureTooLow {F}.
Arguments TemperatureTooHigh {F}.
Arguments HumidityTooHigh {F}.
Arguments LowBatteryVoltage {F}.
Arguments SensorFaultDetected {F}.
Arguments CommunicationFault {F}.

(** ** class DataProcessor *)

Module DataProcessor.

(** The data members.  A callback member is [true] when it has been set.
    [last_aggregation_] is the function-local static of
    [process_packet_internal] ([None] until its first execution).
    [mqtt_sent_], [websocket_sent_] and [alerts_raised_] record, in order,
    the calls of the two forwarding callbacks and the alert lines that
    [check_alerts] emits; [clock_reads_] counts the calls of
    [steady_clock::now()]. *)
Record state (F : Type) : Type := mk {
  config_ : RPi4GatewayConfig.t F;
  running_ : bool;
  processing_queue_ : list (SensorDataPacket.t F);
  sensor_history_ : gmap string (list (SensorDataPacket.t F));
  sensor_stats_ : gmap string (SensorStatistics.t F);
  edge_analytics_enabled_ : bool;
  edge_results_ : list (EdgeProcessingResult.t F);
  mqtt_callback_ : bool;
  websocket_callback_ : bool;
  alert_callback_ : bool;
  last_aggregation_ : option time_point;
  mqtt_sent_ : list (string * Message F);
  websocket_sent_ : list (Message F);
  alerts_raised_ : list (string * PacketAlert F);
  clock_reads_ : nat
}.
Arguments mk {F}.
Arguments config_ {F}.
Arguments running_ {F}.
Arguments processing_queue_ {F}.
Arguments sensor_history_ {F}.
Arguments sensor_stats_ {F}.
Arguments edge_analytics_enabled_ {F}.
Arguments edge_results_ {F}.
Arguments mqtt_callback_ {F}.
Arguments websocket_callback_ {F}.
Arguments alert_callback_ {F}.
Arguments last_aggregation_ {F}.
Arguments mqtt_sent_ {F}.
Arguments websocket_sent_ {F}.
Arguments alerts_raised_ {F}.
Arguments clock_reads_ {F}.

Section Methods.
Context {F : Type} `{FloatOps F}.
Variable steady_clock : nat -> time_point.

(** The constructor, followed by [initialize]. *)
Definition create (config : RPi4GatewayConfig.t F) : state F :=
  mk config false [] ∅ ∅ (RPi4GatewayConfig.enable_edge_analytics config) []
     false false false None [] [] [] 0.

Definition set_running (b : bool) : State (state F) unit :=
  fun st =>
    (tt, mk (config_ st) b (processing_queue_ st) (sensor_history_ st)
            (sensor_stats_ st) (edge_analytics_enabled_ st) (edge_results_ st)
            (mqtt_callback_ st) (websocket_callback_ st) (alert_callback_ st)
            (last_aggregation_ st) (mqtt_sent_ st) (websocket_sent_ st)
            (alerts_raised_ st) (clock_reads_ st)).

Definition set_processing_queue (q : list (SensorDataPacket.t F)) : State (state F) unit :=
  fun st =>
    (tt, mk (config_ st) (running_ st) q (sensor_history_ st)
            (sensor_stats_ st) (edge_analytics_enabled_ st) (edge_results_ st)
            (mqtt_callback_ st) (websocket_callback_ st) (alert_callback_ st)
            (last_aggregation_ st) (mqtt_sent_ st) (websocket_sent_ st)
            (alerts_raised_ st) (clock_reads_ st)).

Definition set_sensor_history (m : gmap string (list (SensorDataPacket.t F)))
  : State (state F) unit :=
  fun st =>
    (tt, mk (config_ st) (running_ st) (processing_queue_ st) m
            (sensor_stats_ st) (edge_analytics_enabled_ st) (edge_results_ st)
            (mqtt_callback_ st) (websocket_callback_ st) (alert_callback_ st)
            (last_aggregation_ st) (mqtt_sent_ st) (websocket_sent_ st)
            (alerts_raised_ st) (clock_reads_ st)).

Definition set_sensor_stats (m : gmap string (SensorStatistics.t F))
  : State (state F) unit :=
  fun st =>
    (tt, mk (config_ st) (running_ st) (processing_queue_ st) (sensor_history_ st)
            m (edge_analytics_enabled_ st) (edge_results_ st)
            (mqtt_callback_ st) (websocket_callback_ st) (alert_callback_ st)
            (last_aggregation_ st) (mqtt_sent_ st) (websocket_sent_ st)
            (alerts_raised_ st) (clock_reads_ st)).

Definition set_edge_results (r : list (EdgeProcessingResult.t F)) : State (state F) unit :=
  fun st =>
    (tt, mk (config_ st) (running_ st) (processing_queue_ st) (sensor_history_ st)
            (sensor_stats_ st) (edge_analytics_enabled_ st) r
            (mqtt_callback_ st) (websocket_callback_ st) (alert_callback_ st)
            (last_aggregation_ st) (mqtt_sent_ st) (websocket_sent_ st)
            (alerts_raised_ st) (clock_reads_ st)).

Definition set_last_aggregation (t : time_point) : State (state F) unit :=
  fun st =>
    (tt, mk (config_ st) (running_ st) (processing_queue_ st) (sensor_history_ st)
            (sensor_stats_ st) (edge_analytics_enabled_ st) (edge_results_ st)
            (mqtt_callback_ st) (websocket_callback_ st) (alert_callback_ st)
            (Some t) (mqtt_sent_ st) (websocket_sent_ st)
            (alerts_raised_ st) (clock_reads_ st)).

(** [std::chrono::steady_clock::now()] *)
Definition now : State (state F) time_point :=
  fun st =>
    (steady_clock (clock_reads_ st),
     mk (config_ st) (running_ st) (processing_queue_ st) (sensor_history_ st)
        (sensor_stats_ st) (edge_analytics_enabled_ st) (edge_results_ st)
        (mqtt_callback_ st) (websocket_callback_ st) (alert_callback_ st)
        (last_aggregation_ st) (mqtt_sent_ st) (websocket_sent_ st)
        (alerts_raised_ st) (S (clock_reads_ st))).

(** [if (mqtt_callback_) mqtt_callback_(topic, message);] *)
Definition mqtt_forward (topic : string) (message : Message F) : State (state F) unit :=
  fun st =>
    (tt, mk (config_ st) (running_ st) (processing_queue_ st) (sensor_history_ st)
            (sensor_stats_ st) (edge_analytics_enabled_ st) (edge_results_ st)
            (mqtt_callback_ st) (websocket_callback_ st) (alert_callback_ st)
            (last_aggregation_ st)
            (if mqtt_callback_ st then mqtt_sent_ st ++ [(topic, message)]
             else mqtt_sent_ st)
            (websocket_sent_ st) (alerts_raised_ st) (clock_reads_ st)).

(** [if (websocket_callback_) websocket_callback_(message);] *)
Definition websocket_forward (message : Message F) : State (state F) unit :=
  fun st =>
    (tt, mk (config_ st) (running_ st) (processing_queue_ st) (sensor_history_ st)
            (sensor_stats_ st) (edge_analytics_enabled_ st) (edge_results_ st)
            (mqtt_callback_ st) (websocket_callback_ st) (alert_callback_ st)
            (last_aggregation_ st) (mqtt_sent_ st)
            (if websocket_callback_ st then websocket_sent_ st ++ [message]
             else websocket_sent_ st)
            (alerts_raised_ st) (clock_reads_ st)).

(** The alert line of [check_alerts] (and [alert_callback_], when set). *)
Definition raise_alert (sensor_id : string) (alert : PacketAlert F) : State (state F) unit :=
  fun st =>
    (tt, mk (config_ st) (running_ st) (processing_queue_ st) (sensor_history_ st)
            (sensor_stats_ st) (edge_analytics_enabled_ st) (edge_results_ st)
            (mqtt_callback_ st) (websocket_callback_ st) (alert_callback_ st)
            (last_aggregation_ st) (mqtt_sent_ st) (websocket_sent_ st)
            (alerts_raised_ st ++ [(sensor_id, alert)]) (clock_reads_ st)).

(** [set_mqtt_callback], [set_websocket_callback], [set_alert_callback]
    and [enable_edge_analytics]. *)
Definition set_mqtt_callback : State (state F) unit :=
  fun st =>
    (tt, mk (config_ st) (running_ st) (processing_queue_ st) (sensor_history_ st)
            (sensor_stats_ st) (edge_analytics_enabled_ st) (edge_results_ st)
            true (websocket_callback_ st) (alert_callback_ st)
            (last_aggregation_ st) (mqtt_sent_ st) (websocket_sent_ st)
            (alerts_raised_ st) (clock_reads_ st)).

Definition set_websocket_callback : State (state F) unit :=
  fun st =>
    (tt, mk (config_ st) (running_ st) (processing_queue_ st) (sensor_history_ st)
            (sensor_stats_ st) (edge_analytics_enabled_ st) (edge_results_ st)
            (mqtt_callback_ st) true (alert_callback_ st)
            (last_aggregation_ st) (mqtt_sent_ st) (websocket_sent_ st)
            (alerts_raised_ st) (clock_reads_ st)).

Definition set_alert_callback : State (state F) unit :=
  fun st =>
    (tt, mk (config_ st) (running_ st) (processing_queue_ st) (sensor_history_ st)
            (sensor_stats_ st) (edge_analytics_enabled_ st) (edge_results_ st)
            (mqtt_callback_ st) (websocket_callback_ st) true
            (last_aggregation_ st) (mqtt_sent_ st) (websocket_sent_ st)
            (alerts_raised_ st) (clock_reads_ st)).

Definition enable_edge_analytics (enable : bool) : State (state F) unit :=
  fun st =>
    (tt, mk (config_ st) (running_ st) (processing_queue_ st) (sensor_history_ st)
            (sensor_stats_ st) enable (edge_results_ st)
            (mqtt_callback_ st) (websocket_callback_ st) (alert_callback_ st)
            (last_aggregation_ st) (mqtt_sent_ st) (websocket_sent_ st)
            (alerts_raised_ st) (clock_reads_ st)).

Definition start : State (state F) bool := set_running true ;; ret true.

Definition stop : State (state F) unit := set_running false.

(** The producer side: enqueue, or drop when stopped or when the queue is full. *)
Definition process_packet (packet : SensorDataPacket.t F) : State (state F) unit :=
  do st <- get;
  if negb (running_ st) then ret tt
  else if (to_size_t (RPi4GatewayConfig.max_queue_size (config_ st))
             <=? size (processing_queue_ st))%N
  then ret tt
  else set_processing_queue (processing_queue_ st ++ [packet]).

Definition get_sensor_statistics (sensor_id : string) : State (state F) (SensorStatistics.t F) :=
  do st <- get;
  match sensor_stats_ st !! sensor_id with
  | Some stats => ret stats
  | None =>
      ret (SensorStatistics.mk sensor_id 0 0 0 (f_of_Z 0) (f_of_Z 0) (f_of_Z 0)
             (f_of_Z 0) (f_of_Z 0) (f_of_Z 0) 0 0)
  end.

Definition update_statistics (packet : SensorDataPacket.t F) : State (state F) unit :=
  do st <- get;
  let id := SensorDataPacket.sensor_id packet in
  let temp := SensorDataPacket.temperature_celsius packet in
  let valid := SensorDataPacket.is_valid packet in
  (* auto& stats = sensor_stats_[packet.sensor_id]; *)
  let stats0 := default SensorStatistics.zero (sensor_stats_ st !! id) in
  (* Initialize if first packet *)
  let stats1 :=
    if decide (SensorStatistics.sensor_id stats0 = "") then
      SensorStatistics.mk id 0 0 0 (f_of_Z 0)
        (SensorStatistics.avg_temperature stats0) (SensorStatistics.avg_humidity stats0)
        temp temp (SensorStatistics.temperature_stddev stats0)
        (SensorStatistics.last_update stats0) (SensorDataPacket.timestamp packet)
    else stats0 in
  (* Update counters *)
  let total := wrap64 (SensorStatistics.total_packets stats1 + 1) in
  let nvalid :=
    if valid then wrap64 (SensorStatistics.valid_packets stats1 + 1)
    else SensorStatistics.valid_packets stats1 in
  let nerror :=
    if valid then SensorStatistics.error_packets stats1
    else wrap64 (SensorStatistics.error_packets stats1 + 1) in
  let loss := fdiv (f_of_Z nerror) (f_of_Z total) in
  (* Update temperature statistics *)
  let avg_t :=
    fdiv (fadd (fmul (SensorStatistics.avg_temperature stats1)
                     (f_of_Z (wrap64 (nvalid - 1))))
               temp)
         (f_of_Z nvalid) in
  let avg_h :=
    fdiv (fadd (fmul (SensorStatistics.avg_humidity stats1)
                     (f_of_Z (wrap64 (nvalid - 1))))
               (SensorDataPacket.humidity_percent packet))
         (f_of_Z nvalid) in
  let stats2 :=
    if valid then
      SensorStatistics.mk (SensorStatistics.sensor_id stats1) total nvalid nerror loss
        avg_t avg_h
        (fmin (SensorStatistics.min_temperature stats1) temp)
        (fmax (SensorStatistics.max_temperature stats1) temp)
        (fabs (fsub temp avg_t))
        (SensorDataPacket.timestamp packet) (SensorStatistics.first_seen stats1)
    else
      SensorStatistics.mk (SensorStatistics.sensor_id stats1) total nvalid nerror loss
        (SensorStatistics.avg_temperature stats1) (SensorStatistics.avg_humidity stats1)
        (SensorStatistics.min_temperature stats1) (SensorStatistics.max_temperature stats1)
        (SensorStatistics.temperature_stddev stats1)
        (SensorDataPacket.timestamp packet) (SensorStatistics.first_seen stats1) in
  set_sensor_stats (<[id := stats2]> (sensor_stats_ st)).

(** The vector [alerts] of [check_alerts]. *)
Definition packet_alerts (config : RPi4GatewayConfig.t F) (packet : SensorDataPacket.t F)
  : list (PacketAlert F) :=
  let temp := SensorDataPacket.temperature_celsius packet in
  let hum := SensorDataPacket.humidity_percent packet in
  let volts := SensorDataPacket.supply_voltage packet in
  let status := SensorDataPacket.sensor_status packet in
  (if flt temp (RPi4GatewayConfig.temp_alert_low config) then [TemperatureTooLow temp] else [])
  ++ (if fgt temp (RPi4GatewayConfig.temp_alert_high config)
      then [TemperatureTooHigh temp] else [])
  ++ (if fgt hum (RPi4GatewayConfig.humidity_alert_high config)
      then [HumidityTooHigh hum] else [])
  ++ (if flt volts (f_of_Z 3) then [LowBatteryVoltage volts] else [])
  ++ (if negb (Z.land status 1 =? 0) then [SensorFaultDetected] else [])
  ++ (if negb (Z.land status 2 =? 0) then [CommunicationFault] else []).

Definition check_alerts (packet : SensorDataPacket.t F) : State (state F) unit :=
  do st <- get;
  for_each (packet_alerts (config_ st) packet)
           (raise_alert (SensorDataPacket.sensor_id packet)).

(** The loop of the regression: [sum_xy += x * y; sum_x2 += x * x] for
    [x = static_cast<float>(i)], [y = temperatures[i]], from index [i] on. *)
Fixpoint regression_sums (i : nat) (temperatures : list F) (acc : F * F) : F * F :=
  match temperatures with
  | [] => acc
  | y :: rest =>
      let x := f_of_Z (Z.of_nat i) in
      regression_sums (S i) rest (fadd (fst acc) (fmul x y), fadd (snd acc) (fmul x x))
  end.

(** "Simple linear regression for trend": the slope and the intercept. *)
Definition linear_regression (temperatures : list F) : F * F :=
  let n := f_of_Z (Z.of_N (size temperatures)) in
  let sum_x := fdiv (fmul n (fsub n (f_of_Z 1))) (f_of_Z 2) in
  let sum_y := accumulate temperatures (f_of_Z 0) in
  let sums := regression_sums 0 temperatures (f_of_Z 0, f_of_Z 0) in
  let sum_xy := fst sums in
  let sum_x2 := snd sums in
  let slope :=
    fdiv (fsub (fmul n sum_xy) (fmul sum_x sum_y))
         (fsub (fmul n sum_x2) (fmul sum_x sum_x)) in
  let intercept := fdiv (fsub sum_y (fmul slope sum_x)) n in
  (slope, intercept).

(** 0.5f, as the quotient 1/2 (exact in both arithmetics). *)
Definition f_half : F := fdiv (f_of_Z 1) (f_of_Z 2).

(** The result that [perform_edge_analytics] builds for [packet] from the
    sensor's [history], or nothing when the history is too short. *)
Definition trend_analysis (packet : SensorDataPacket.t F)
    (history : list (SensorDataPacket.t F)) (processed_at : time_point)
  : option (EdgeProcessingResult.t F) :=
  if (size history <? 5)%N then None
  else
    let temperatures := SensorDataPacket.temperature_celsius <$> history in
    let '(slope, intercept) := linear_regression temperatures in
    let metrics : gmap string F :=
      <["humidity_current" := SensorDataPacket.humidity_percent packet]>
        (<["temperature_current" := SensorDataPacket.temperature_celsius packet]>
           (<["temperature_trend_intercept" := intercept]>
              (<["temperature_trend_slope" := slope]> ∅))) in
    let confidence :=
      fmin (f_of_Z 1)
           (fmul (SensorDataPacket.data_confidence packet)
                 (fdiv (f_of_Z (Z.of_N (size history))) (f_of_Z 10))) in
    let trend :=
      if fgt (fabs slope) f_half then
        if fgt slope (f_of_Z 0)
        then [("Rising temperature trend detected", "Monitor for overheating")]
        else [("Falling temperature trend detected", "Check heating system")]
      else [] in
    let humid :=
      if fgt (SensorDataPacket.humidity_percent packet) (f_of_Z 70)
      then [("High humidity detected", "Improve ventilation")] else [] in
    Some (EdgeProcessingResult.mk (SensorDataPacket.sensor_id packet) "trend_analysis"
            metrics (fst <$> (trend ++ humid)) (snd <$> (trend ++ humid))
            confidence processed_at).

Definition perform_edge_analytics (packet : SensorDataPacket.t F) : State (state F) unit :=
  do st <- get;
  let history := default [] (sensor_history_ st !! SensorDataPacket.sensor_id packet) in
  if (size history <? 5)%N then ret tt
  else
    do t <- now;
    match trend_analysis packet history t with
    | None => ret tt
    | Some result =>
        do st' <- get;
        set_edge_results (push_bounded 100 result (edge_results_ st'))
    end.

(** The sums, extrema and count that [format_aggregated_data] accumulates
    over the valid packets. *)
Definition aggregate_step (acc : F * F * F * F * F * Z) (packet : SensorDataPacket.t F)
  : F * F * F * F * F * Z :=
  let '(sum_temp, sum_hum, sum_press, min_temp, max_temp, valid_count) := acc in
  if SensorDataPacket.is_valid packet then
    (fadd sum_temp (SensorDataPacket.temperature_celsius packet),
     fadd sum_hum (SensorDataPacket.humidity_percent packet),
     fadd sum_press (SensorDataPacket.pressure_hpa packet),
     fmin min_temp (SensorDataPacket.temperature_celsius packet),
     fmax max_temp (SensorDataPacket.temperature_celsius packet),
     valid_count + 1)
  else acc.

Definition format_aggregated_data (packets : list (SensorDataPacket.t F))
  : State (state F) (Message F) :=
  match packets with
  | [] => ret EmptyObject
  | first :: _ =>
      let t0 := SensorDataPacket.temperature_celsius first in
      let '(sum_temp, sum_hum, sum_press, min_temp, max_temp, valid_count) :=
        fold_left aggregate_step packets
                  (f_of_Z 0, f_of_Z 0, f_of_Z 0, t0, t0, 0) in
      if valid_count =? 0 then ret EmptyObject
      else
        do st <- get;
        do t <- now;
        ret (AggregatedData
               (AggregatedWindow.mk
                  (SensorDataPacket.sensor_id first) (SensorDataPacket.location first)
                  (Z.quot t ns_per_second)
                  (RPi4GatewayConfig.aggregation_window_seconds (config_ st))
                  (size packets) valid_count
                  (fdiv sum_temp (f_of_Z valid_count)) min_temp max_temp
                  (fdiv sum_hum (f_of_Z valid_count))
                  (fdiv sum_press (f_of_Z valid_count))
                  (RPi4GatewayConfig.gateway_id (config_ st))))
  end.

(** One iteration of the loop of [aggregate_and_forward]. *)
Definition aggregate_sensor (entry : string * list (SensorDataPacket.t F))
  : State (state F) unit :=
  let '(sensor_id, history) := entry in
  match history with
  | [] => ret tt
  | _ :: _ =>
      do st <- get;
      do t <- now;
      let cutoff_time :=
        t - seconds (RPi4GatewayConfig.aggregation_window_seconds (config_ st)) in
      let recent_data :=
        filter (fun packet => cutoff_time <= SensorDataPacket.timestamp packet) history in
      match recent_data with
      | [] => ret tt
      | _ :: _ =>
          do aggregated_message <- format_aggregated_data recent_data;
          mqtt_forward
            (RPi4GatewayConfig.mqtt_base_topic (config_ st)
               +:+ "/sensors/" +:+ sensor_id +:+ "/aggregated")
            aggregated_message ;;
          websocket_forward aggregated_message
      end
  end.

Definition aggregate_and_forward : State (state F) unit :=
  do st <- get;
  for_each (map_to_list (sensor_history_ st)) aggregate_sensor.

(** "Store in history": append, and erase the oldest packet when the
    history has grown beyond [max_sensor_history]. *)
Definition store_in_history (packet : SensorDataPacket.t F) : State (state F) unit :=
  do st <- get;
  let id := SensorDataPacket.sensor_id packet in
  (* auto& history = sensor_history_[packet.sensor_id]; *)
  let history := default [] (sensor_history_ st !! id) in
  set_sensor_history
    (<[id := push_bounded
               (to_size_t (RPi4GatewayConfig.max_sensor_history (config_ st)))
               packet history]> (sensor_history_ st)).

(** "Forward to MQTT", "Forward to WebSocket". *)
Definition forward_packet (packet : SensorDataPacket.t F) : State (state F) unit :=
  do st <- get;
  mqtt_forward
    (RPi4GatewayConfig.mqtt_base_topic (config_ st)
       +:+ "/sensors/" +:+ SensorDataPacket.sensor_id packet +:+ "/data")
    (MqttData packet (RPi4GatewayConfig.gateway_id (config_ st))) ;;
  websocket_forward (WebSocketData packet (RPi4GatewayConfig.gateway_id (config_ st))).

(** "Periodic aggregation": the static [last_aggregation] is initialised
    the first time control passes here; a pass runs once the window has
    elapsed since the last one. *)
Definition periodic_aggregation : State (state F) unit :=
  (do st <- get;
   match last_aggregation_ st with
   | Some _ => ret tt
   | None => do t0 <- now; set_last_aggregation t0
   end) ;;
  do t <- now;
  do st <- get;
  if seconds (RPi4GatewayConfig.aggregation_window_seconds (config_ st))
       <=? t - default 0 (last_aggregation_ st)
  then aggregate_and_forward ;; set_last_aggregation t
  else ret tt.

(** The consumer side: what a worker does with a dequeued packet. *)
Definition process_packet_internal (packet : SensorDataPacket.t F) : State (state F) unit :=
  if negb (SensorDataPacket.is_valid packet) then ret tt
  else
    update_statistics packet ;;
    store_in_history packet ;;
    check_alerts packet ;;
    (do st <- get;
     if edge_analytics_enabled_ st then perform_edge_analytics packet else ret tt) ;;
    forward_packet packet ;;
    periodic_aggregation.

(** One turn of [worker_loop] once the wait has returned: leave when
    stopped, otherwise take the packet at the front of the queue and
    process it. *)
Definition worker_step : State (state F) unit :=
  do st <- get;
  if negb (running_ st) then ret tt
  else
    match processing_queue_ st with
    | [] => ret tt
    | packet :: rest =>
        set_processing_queue rest ;;
        process_packet_internal packet
    end.

(** [get_recent_edge_results(count)] *)
Definition get_recent_edge_results (count : Z) (st : state F)
  : option (list (EdgeProcessingResult.t F)) :=
  recent_items (edge_results_ st) count.

End Methods.
End DataProcessor.
(** * Sensor frames: from [STM32_SensorNode] to the gateway interfaces *)

(** The operations on [float] that the frame code uses beside those of
    [FloatOps]: [a <= b], and the conversion to an integer, which truncates
    toward zero and has no value for a NaN or an infinity. *)
Class FloatFrameOps (F : Type) : Type := {
  fle : F -> F -> bool;
  f_truncate : F -> option Z
}.

#[export] Instance binary32_frame_ops : FloatFrameOps binary32 := {|
  fle := SFleb;
  f_truncate := fun x =>
    match x with
    | S754_zero _ => Some 0
    | S754_finite negative m e =>
        let magnitude := Z.shiftl (Z.pos m) e in
        Some (if negative then - magnitude else magnitude)
    | _ => None
    end
|}.

#[export] Instance Q_frame_ops : FloatFrameOps Q := {|
  fle := Qle_bool;
  f_truncate := fun x => Some (Z.quot (Qnum x) (Z.pos (Qden x)))
|}.

(** Conversions to [uint8_t], [uint16_t], [uint32_t] and [int16_t]. *)
Definition to_uint8 (z : Z) : Z := z mod 2 ^ 8.
Definition to_uint16 (z : Z) : Z := z mod 2 ^ 16.
Definition to_uint32 (z : Z) : Z := z mod 2 ^ 32.
Definition to_int16 (z : Z) : Z := (z + 2 ^ 15) mod 2 ^ 16 - 2 ^ 15.

(** [std::to_string] of an unsigned value. *)
Definition to_string (z : Z) : string := NilEmpty.string_of_uint (N.to_uint (Z.to_N z)).

(** A [uint8_t] accumulator xor-ed with [data[first]] to [data[last - 1]]. *)
Definition xor_range (first last : nat) (data : list Z) : Z :=
  fold_left (fun checksum byte => to_uint8 (Z.lxor checksum byte))
            (take (last - first) (drop first data)) 0.

Section FloatCasts.
Context {F : Type} `{FloatFrameOps F}.

(** [static_cast<int16_t>(x)] and [static_cast<uint16_t>(x)] of a [float]:
    undefined when the truncated value is not one of the type. *)
Definition float_to_int16 (x : F) : option Z :=
  match f_truncate x with
  | Some z => if decide (- 2 ^ 15 <= z < 2 ^ 15) then Some z else None
  | None => None
  end.

Definition float_to_uint16 (x : F) : option Z :=
  match f_truncate x with
  | Some z => if decide (0 <= z < 2 ^ 16) then Some z else None
  | None => None
  end.
End FloatCasts.

Module STM32_SensorNode.

Module SensorReading.
Record t (F : Type) : Type := mk {
  temperature_celsius : F;
  humidity_percent : F;
  pressure_hpa : F;
  is_valid : bool;
  timestamp : time_point;
  raw_temp_adc : Z;
  raw_humidity_adc : Z;
  sensor_status : Z;
  supply_voltage : F
}.
Arguments mk {F}.
Arguments temperature_celsius {F}.
Arguments humidity_percent {F}.
Arguments pressure_hpa {F}.
Arguments is_valid {F}.
Arguments timestamp {F}.
Arguments raw_temp_adc {F}.
Arguments raw_humidity_adc {F}.
Arguments sensor_status {F}.
Arguments supply_voltage {F}.
End SensorReading.

Section Methods.
Context {F : Type} `{FloatOps F} `{FloatFrameOps F}.

(** [std::hash<std::string>] *)
Variable hash : string -> Z.

(** [create_binary_packet] of a node whose [config_.node_id] is [node_id].
    The result is [None] where a conversion of the source is undefined. *)
Definition create_binary_packet (node_id : string) (reading : SensorReading.t F)
    : option (list Z) :=
  let node_hash := to_uint32 (hash node_id) in
  match float_to_int16 (fmul (SensorReading.temperature_celsius reading) (f_of_Z 100)) with
  | None => None
  | Some temp_int =>
      match float_to_uint16 (fmul (SensorReading.humidity_percent reading) (f_of_Z 100)) with
      | None => None
      | Some hum_int =>
          match float_to_uint16 (fmul (SensorReading.supply_voltage reading) (f_of_Z 1000)) with
          | None => None
          | Some volt_int =>
              let packet :=
                [ 0xAA; 0xBB;
                  Z.land (Z.shiftr node_hash 24) 0xFF;
                  Z.land (Z.shiftr node_hash 16) 0xFF;
                  Z.land (Z.shiftr node_hash 8) 0xFF;
                  Z.land node_hash 0xFF;
                  Z.land (Z.shiftr temp_int 8) 0xFF;
                  Z.land temp_int 0xFF;
                  Z.land (Z.shiftr hum_int 8) 0xFF;
                  Z.land hum_int 0xFF;
                  Z.land (Z.shiftr volt_int 8) 0xFF;
                  Z.land volt_int 0xFF;
                  SensorReading.sensor_status reading ] in
              Some (packet ++ [xor_range 2 (length packet) packet])
          end
      end
  end.

End Methods.
End STM32_SensorNode.

(** The fields of a frame, as both receivers read them: the sum of the
    shifted bytes is an [int], converted to the type of the variable. *)
Definition frame_node_hash (data : list Z) : Z :=
  to_uint32 (Z.lor (Z.lor (Z.lor (Z.shiftl (data !!! 2%nat) 24) (Z.shiftl (data !!! 3%nat) 16))
                          (Z.shiftl (data !!! 4%nat) 8))
                   (data !!! 5%nat)).
Definition frame_temp_raw (data : list Z) : Z :=
  to_int16 (Z.lor (Z.shiftl (data !!! 6%nat) 8) (data !!! 7%nat)).
Definition frame_hum_raw (data : list Z) : Z :=
  to_uint16 (Z.lor (Z.shiftl (data !!! 8%nat) 8) (data !!! 9%nat)).
Definition frame_volt_raw (data : list Z) : Z :=
  to_uint16 (Z.lor (Z.shiftl (data !!! 10%nat) 8) (data !!! 11%nat)).

Module UARTInterface.

(** [data_callback_] is set or not; [delivered_] logs its calls;
    [clock_reads_] counts the calls of [steady_clock::now()]. *)
Record state (F : Type) : Type := mkState {
  data_callback_ : bool;
  delivered_ : list (SensorDataPacket.t F);
  clock_reads_ : nat
}.
Arguments mkState {F}.
Arguments data_callback_ {F}.
Arguments delivered_ {F}.
Arguments clock_reads_ {F}.

Section Methods.
Context {F : Type} `{FloatOps F} `{FloatFrameOps F}.
Variable steady_clock : nat -> time_point.

Definition parse_uart_packet (now : time_point) (data : list Z) : SensorDataPacket.t F :=
  if (length data <? 14)%nat
  then SensorDataPacket.mk "" "" (f_of_Z 0) (f_of_Z 0) (f_of_Z 0) (f_of_Z 0) 0 0 0
         now UART_INTERFACE false (f_of_Z 0) 0 (f_of_Z 0)
  else
    let node_hash := frame_node_hash data in
    let temp_raw := frame_temp_raw data in
    let temperature_celsius := fdiv (f_of_Z temp_raw) (f_of_Z 100) in
    let hum_raw := frame_hum_raw data in
    let humidity_percent := fdiv (f_of_Z hum_raw) (f_of_Z 100) in
    let volt_raw := frame_volt_raw data in
    let supply_voltage := fdiv (f_of_Z volt_raw) (f_of_Z 1000) in
    SensorDataPacket.mk
      ("sensor_" +:+ to_string (node_hash mod 10000))
      "Unknown"
      temperature_celsius
      humidity_percent
      (f_of_Z 0)
      supply_voltage
      (data !!! 12%nat)
      (to_uint16 (Z.quot ((temp_raw + 4000) * 4095) 12500))
      (to_uint16 (Z.quot (hum_raw * 4095) 10000))
      now UART_INTERFACE
      (fle (f_of_Z (-50)) temperature_celsius && fle temperature_celsius (f_of_Z 100)
       && fle (f_of_Z 0) humidity_percent && fle humidity_percent (f_of_Z 100)
       && fle (f_of_Z 2) supply_voltage && fle supply_voltage (f_of_Z 5))
      (f_of_Z 1) 0 (fdiv (f_of_Z 95) (f_of_Z 100)).

(** One complete frame of [reader_loop]: the checksum is verified, the
    frame parsed, and a valid packet handed to the callback. *)
Definition receive_frame (packet_data : list Z) : State (state F) unit :=
  fun st =>
    if decide (xor_range 2 13 packet_data = packet_data !!! 13%nat)
    then
      let packet := parse_uart_packet (steady_clock (clock_reads_ st)) packet_data in
      (tt, mkState (data_callback_ st)
             (if data_callback_ st && SensorDataPacket.is_valid packet
              then delivered_ st ++ [packet] else delivered_ st)
             (S (clock_reads_ st)))
    else (tt, st).

(** The inner loop of [reader_loop] over the bytes read so far; the result
    is the buffer that the loop leaves.  Every iteration that goes on
    erases at least one byte, so [length buffer] iterations are enough. *)
Fixpoint scan_buffer (steps : nat) (buffer : list Z) : State (state F) (list Z) :=
  match steps with
  | O => ret buffer
  | S steps =>
      if (length buffer <? 14)%nat then ret buffer
      else
        match list_find (fun byte => byte = 0xAA) buffer with
        | None => ret []
        | Some (it, _) =>
            if ((length buffer - it <? 2)%nat
                || negb (bool_decide (buffer !!! S it = 0xBB)))
            then scan_buffer steps (drop (S it) buffer)
            else if (14 <=? length buffer - it)%nat
            then receive_frame (take 14 (drop it buffer)) ;;
                 scan_buffer steps (drop (it + 14) buffer)
            else ret buffer
        end
  end.

Definition reader_loop_buffer (buffer : list Z) : State (state F) (list Z) :=
  scan_buffer (length buffer) buffer.

End Methods.
End UARTInterface.

Module SPIInterface.
Section Methods.
Context {F : Type} `{FloatOps F} `{FloatFrameOps F}.

Definition parse_spi_packet (now : time_point) (data : list Z) : SensorDataPacket.t F :=
  let packet :=
    SensorDataPacket.mk "" "" (f_of_Z 0) (f_of_Z 0) (f_of_Z 0) (f_of_Z 0) 0 0 0
      now SPI_INTERFACE false (f_of_Z 0) 0 (f_of_Z 0) in
  if (length data <? 14)%nat then packet
  else if negb (bool_decide (xor_range 2 13 data = data !!! 13%nat)) then packet
  else
    let node_hash := frame_node_hash data in
    let temp_raw := frame_temp_raw data in
    let temperature_celsius := fdiv (f_of_Z temp_raw) (f_of_Z 100) in
    let hum_raw := frame_hum_raw data in
    let humidity_percent := fdiv (f_of_Z hum_raw) (f_of_Z 100) in
    let volt_raw := frame_volt_raw data in
    let supply_voltage := fdiv (f_of_Z volt_raw) (f_of_Z 1000) in
    SensorDataPacket.mk
      ("spi_sensor_" +:+ to_string (node_hash mod 10000))
      "SPI_Bus"
      temperature_celsius
      humidity_percent
      (f_of_Z 0)
      supply_voltage
      (data !!! 12%nat)
      (to_uint16 (Z.quot ((temp_raw + 4000) * 4095) 12500))
      (to_uint16 (Z.quot (hum_raw * 4095) 10000))
      now SPI_INTERFACE
      (fle (f_of_Z (-50)) temperature_celsius && fle temperature_celsius (f_of_Z 100)
       && fle (f_of_Z 0) humidity_percent && fle humidity_percent (f_of_Z 100)
       && fle (f_of_Z 2) supply_voltage && fle supply_voltage (f_of_Z 5))
      (f_of_Z 1) 0 (fdiv (f_of_Z 98) (f_of_Z 100)).

End Methods.
End SPIInterface.


(** * Vocabulary of the properties *)

(** A clock given by its first readings (it stays at the last one). *)
Definition clock_of_list (readings : list Z) (k : nat) : Z :=
  nth k readings (List.last readings 0).

(** A computation preserves a property of the state. *)
Definition preserves {S A : Type} (I : S -> Prop) (m : State S A) : Prop :=
  forall s, I s -> I (exec m s).

(** The last [n] elements of a list. *)
Definition last_n {A : Type} (n : N) (l : list A) : list A :=
  drop (length l - N.to_nat n) l.

Module TrackerSpec.
Import ThermalIsolationTracker.
Section Vocabulary.
Context {F : Type} `{FloatOps F}.
Variable steady_clock : nat -> time_point.
Variable format_alert_message : ThermalConfig.t F -> Alert.t F -> string.

(** The throttle map's entry for a (sensor, kind) pair. *)
Definition last_fired (st : state F) (sensor_id : string) (kind : AlertType)
  : option time_point :=
  match alert_throttle_ st !! sensor_id with
  | Some per_sensor => per_sensor !! kind
  | None => None
  end.

(** The throttle rule in the specification's words: a candidate passes when
    no last-fired entry exists, or the cooldown has elapsed at the time [t]
    of the check. *)
Definition passes_throttle (st : state F) (sensor_id : string) (kind : AlertType)
    (t : time_point) : bool :=
  match last_fired st sensor_id kind with
  | None => true
  | Some fired =>
      ThermalConfig.alert_throttle_minutes (config_ st) <=? duration_minutes (t - fired)
  end.

(** The calls a client and the monitoring thread make on a tracker. *)
Inductive call : Type :=
  | ProcessSensorData (sensor_id : string) (temperature humidity : F) (location : string)
  | CheckOfflineSensors
  | GetSensorStats (sensor_id : string).

Definition run_call (st : state F) (c : call) : state F :=
  match c with
  | ProcessSensorData sensor_id temperature humidity location =>
      exec (process_sensor_data steady_clock format_alert_message
              sensor_id temperature humidity location) st
  | CheckOfflineSensors =>
      exec (check_offline_sensors steady_clock format_alert_message) st
  | GetSensorStats sensor_id => exec (get_sensor_stats steady_clock sensor_id) st
  end.

Definition run (st : state F) (calls : list call) : state F :=
  fold_left run_call calls st.

(** The temperatures and humidities submitted for a sensor, in call order. *)
Definition submitted_temperatures (sensor_id : string) (calls : list call) : list F :=
  flat_map (fun c => match c with
                     | ProcessSensorData id temperature _ _ =>
                         if decide (id = sensor_id) then [temperature] else []
                     | _ => []
                     end) calls.

Definition submitted_humidities (sensor_id : string) (calls : list call) : list F :=
  flat_map (fun c => match c with
                     | ProcessSensorData id _ humidity _ =>
                         if decide (id = sensor_id) then [humidity] else []
                     | _ => []
                     end) calls.

(** The two histories of a sensor (empty for a sensor not in the store). *)
Definition temperature_history_of (st : state F) (sensor_id : string) : list F :=
  match sensors_ st !! sensor_id with
  | Some sensor => TimestampedReading.value <$> SensorData.temperature_history sensor
  | None => []
  end.

Definition humidity_history_of (st : state F) (sensor_id : string) : list F :=
  match sensors_ st !! sensor_id with
  | Some sensor => TimestampedReading.value <$> SensorData.humidity_history sensor
  | None => []
  end.

(** The emitted alerts of one (sensor, kind). *)
Definition alerts_of (sensor_id : string) (kind : AlertType) (log : list (Alert.t F))
  : list (Alert.t F) :=
  filter (fun a => Alert.sensor_id a = sensor_id /\ Alert.alert_type a = kind) log.

(** The alert that [generate_alert] builds at time [ts]. *)
Definition built_alert (config : ThermalConfig.t F) (sensor_id : string) (kind : AlertType)
    (sensor : SensorData.t F) (ts : time_point) : Alert.t F :=
  Alert.mk sensor_id kind (SensorData.location sensor) ts
    (SensorData.temperature sensor) (SensorData.humidity sensor)
    (SensorData.temp_rate sensor)
    (format_alert_message config
       (Alert.mk sensor_id kind (SensorData.location sensor) ts
          (SensorData.temperature sensor) (SensorData.humidity sensor)
          (SensorData.temp_rate sensor) "")).

(** Alerts of one (sensor, kind) are at least the cooldown apart: of two
    entries of the log, the later one is stamped at least [cooldown] minutes
    after the earlier one. *)
Definition spaced (cooldown : Z) (log : list (Alert.t F)) : Prop :=
  forall i j a b,
    (i < j)%nat -> log !! i = Some a -> log !! j = Some b ->
    Alert.sensor_id a = Alert.sensor_id b -> Alert.alert_type a = Alert.alert_type b ->
    cooldown * ns_per_minute <= Alert.timestamp b - Alert.timestamp a.

(** The invariant behind the throttle: every last-fired time has been read
    from the clock, every emitted alert is covered by the last-fired entry
    of its (sensor, kind), and the log is spaced. *)
Definition throttle_inv (config : ThermalConfig.t F) (st : state F) : Prop :=
  config_ st = config /\
  (forall id k t, last_fired st id k = Some t -> t <= steady_clock (clock_reads_ st)) /\
  (forall a, a ∈ emitted_ st ->
     exists t, last_fired st (Alert.sensor_id a) (Alert.alert_type a) = Some t
               /\ Alert.timestamp a <= t) /\
  spaced (ThermalConfig.alert_throttle_minutes config) (emitted_ st).

(** [sensor], marked inactive. *)
Definition deactivated (sensor : SensorData.t F) : SensorData.t F :=
  SensorData.mk (SensorData.sensor_id sensor) (SensorData.temperature sensor)
    (SensorData.humidity sensor) (SensorData.location sensor)
    (SensorData.last_update sensor) false (SensorData.temp_rate sensor)
    (SensorData.temperature_history sensor) (SensorData.humidity_history sensor).

(** A sensor is stale at time [t]: more whole minutes than the timeout have
    passed since its last update. *)
Definition stale (config : ThermalConfig.t F) (sensor : SensorData.t F) (t : time_point)
  : bool :=
  ThermalConfig.sensor_timeout_minutes config
    <? duration_minutes (t - SensorData.last_update sensor).

(** What the sweep at time [t] does to one sensor of the store. *)
Definition sweep_sensor (config : ThermalConfig.t F) (t : time_point)
    (sensor : SensorData.t F) : SensorData.t F :=
  if SensorData.is_active sensor && stale config sensor t
  then deactivated sensor else sensor.

(** The configuration and the sensor store stay as they are, and the clock
    has been read at least [r] times. *)
Definition frame_inv (config : ThermalConfig.t F) (m : gmap string (SensorData.t F))
    (r : nat) (st : state F) : Prop :=
  config_ st = config /\ sensors_ st = m /\ (r <= clock_reads_ st)%nat.

(** The emitted alerts and the throttle entry of one (sensor, kind) stay as
    they are. *)
Definition log_inv (config : ThermalConfig.t F) (id : string) (k : AlertType)
    (log : list (Alert.t F)) (fired : option Z) (r : nat) (st : state F) : Prop :=
  config_ st = config /\ alerts_of id k (emitted_ st) = log
  /\ last_fired st id k = fired /\ (r <= clock_reads_ st)%nat.

End Vocabulary.
End TrackerSpec.

Module ProcessorSpec.
Import DataProcessor.
Section Vocabulary.
Context {F : Type} `{FloatOps F}.
Variable steady_clock : nat -> time_point.

(** The calls made on a processor by its clients, and the turns of its
    worker threads. *)
Inductive call : Type :=
  | Start
  | Stop
  | SetMqttCallback
  | SetWebsocketCallback
  | SetAlertCallback
  | EnableEdgeAnalytics (enable : bool)
  | ProcessPacket (packet : SensorDataPacket.t F)
  | WorkerStep
  | GetSensorStatistics (sensor_id : string).

Definition run_call (st : state F) (c : call) : state F :=
  match c with
  | Start => exec start st
  | Stop => exec stop st
  | SetMqttCallback => exec set_mqtt_callback st
  | SetWebsocketCallback => exec set_websocket_callback st
  | SetAlertCallback => exec set_alert_callback st
  | EnableEdgeAnalytics enable => exec (enable_edge_analytics enable) st
  | ProcessPacket packet => exec (process_packet packet) st
  | WorkerStep => exec (worker_step steady_clock) st
  | GetSensorStatistics sensor_id => exec (get_sensor_statistics sensor_id) st
  end.

Definition run (st : state F) (calls : list call) : state F :=
  fold_left run_call calls st.

(** The packet a call hands to [process_packet_internal], if any. *)
Definition dequeued (st : state F) (c : call) : option (SensorDataPacket.t F) :=
  match c with
  | WorkerStep => if running_ st then head (processing_queue_ st) else None
  | _ => None
  end.

(** The packets the workers have processed during [calls], in order. *)
Fixpoint processed (st : state F) (calls : list call) : list (SensorDataPacket.t F) :=
  match calls with
  | [] => []
  | c :: rest => option_list (dequeued st c) ++ processed (run_call st c) rest
  end.

(** The history kept for a sensor (empty for a sensor not in the store). *)
Definition history_of (st : state F) (sensor_id : string) : list (SensorDataPacket.t F) :=
  default [] (sensor_history_ st !! sensor_id).

(** The valid packets of one sensor among [packets]. *)
Definition stored_for (sensor_id : string) (packets : list (SensorDataPacket.t F))
  : list (SensorDataPacket.t F) :=
  filter (fun p => SensorDataPacket.is_valid p = true
                   /\ SensorDataPacket.sensor_id p = sensor_id) packets.

(** Every packet of every history is valid. *)
Definition history_valid (st : state F) : Prop :=
  forall id h, sensor_history_ st !! id = Some h ->
               Forall (fun p => SensorDataPacket.is_valid p = true) h.

(** The members that only the public calls and the history update write:
    analytics, forwarding and aggregation leave them as they are. *)
Definition core (st : state F)
  : RPi4GatewayConfig.t F * bool * list (SensorDataPacket.t F)
    * gmap string (list (SensorDataPacket.t F)) * bool * bool * bool * bool :=
  (config_ st, running_ st, processing_queue_ st, sensor_history_ st,
   edge_analytics_enabled_ st, mqtt_callback_ st, websocket_callback_ st,
   alert_callback_ st).

(** The queue holds at most the configured capacity. *)
Definition queue_bounded (config : RPi4GatewayConfig.t F) (st : state F) : Prop :=
  config_ st = config
  /\ (size (processing_queue_ st) <= to_size_t (RPi4GatewayConfig.max_queue_size config))%N.

(** The packets of [history] inside the window that ends at [t]. *)
Definition in_window (config : RPi4GatewayConfig.t F) (t : time_point)
    (history : list (SensorDataPacket.t F)) : list (SensorDataPacket.t F) :=
  filter (fun p => t - seconds (RPi4GatewayConfig.aggregation_window_seconds config)
                   <= SensorDataPacket.timestamp p) history.

(** The aggregated record of the non-empty window [first :: rest], stamped
    at time [t]: counts, the averages over the valid packets, and the
    extrema, which start from the first packet's temperature. *)
Definition window_record (config : RPi4GatewayConfig.t F)
    (first : SensorDataPacket.t F) (rest : list (SensorDataPacket.t F))
    (t : time_point) : AggregatedWindow.t F :=
  let packets := first :: rest in
  let valid := filter (fun p => SensorDataPacket.is_valid p = true) packets in
  let temperatures := SensorDataPacket.temperature_celsius <$> valid in
  let count := f_of_Z (Z.of_nat (length valid)) in
  AggregatedWindow.mk
    (SensorDataPacket.sensor_id first) (SensorDataPacket.location first)
    (Z.quot t ns_per_second)
    (RPi4GatewayConfig.aggregation_window_seconds config)
    (size packets) (Z.of_nat (length valid))
    (fdiv (accumulate temperatures (f_of_Z 0)) count)
    (fold_left fmin temperatures (SensorDataPacket.temperature_celsius first))
    (fold_left fmax temperatures (SensorDataPacket.temperature_celsius first))
    (fdiv (accumulate (SensorDataPacket.humidity_percent <$> valid) (f_of_Z 0)) count)
    (fdiv (accumulate (SensorDataPacket.pressure_hpa <$> valid) (f_of_Z 0)) count)
    (RPi4GatewayConfig.gateway_id config).

(** The topic of a sensor's aggregated record. *)
Definition aggregated_topic (config : RPi4GatewayConfig.t F) (sensor_id : string) : string :=
  RPi4GatewayConfig.mqtt_base_topic config +:+ "/sensors/" +:+ sensor_id +:+ "/aggregated".

(** What a processed packet does to the history of sensor [id]. *)
Definition history_after (config : RPi4GatewayConfig.t F)
    (packet : option (SensorDataPacket.t F)) (id : string)
    (history : list (SensorDataPacket.t F)) : list (SensorDataPacket.t F) :=
  match packet with
  | Some p =>
      if decide (SensorDataPacket.is_valid p = true /\ SensorDataPacket.sensor_id p = id)
      then push_bounded (to_size_t (RPi4GatewayConfig.max_sensor_history config)) p history
      else history
  | None => history
  end.

(** What one iteration of the aggregation loop hands to a sink that is
    registered ([registered = true]): nothing for an empty window, one
    record otherwise.  [t] is the time read for the cutoff, [t'] the time
    read for the record's timestamp. *)
Definition window_output {A : Type} (config : RPi4GatewayConfig.t F) (registered : bool)
    (history : list (SensorDataPacket.t F)) (t t' : time_point)
    (wrap : Message F -> A) : list A :=
  match in_window config t history with
  | [] => []
  | first :: rest =>
      if registered then [wrap (AggregatedData (window_record config first rest t'))]
      else []
  end.

(** A series is strictly increasing (decreasing) when each value is below
    (above) the next one. *)
Fixpoint strictly_increasing (l : list Q) : Prop :=
  match l with
  | [] => True
  | x :: rest =>
      match rest with
      | [] => True
      | y :: _ => (x < y)%Q /\ strictly_increasing rest
      end
  end.

Fixpoint strictly_decreasing (l : list Q) : Prop :=
  match l with
  | [] => True
  | x :: rest =>
      match rest with
      | [] => True
      | y :: _ => (y < x)%Q /\ strictly_decreasing rest
      end
  end.

End Vocabulary.

(** *** Ordinary least squares over the sample index, in exact arithmetic *)

(** The index [k] as a rational. *)
Definition nQ (k : nat) : Q := inject_Z (Z.of_nat k).

(** The sum of [f i y_i] over the samples [y_0, y_1, ...]. *)
Definition sum_over (f : nat -> Q -> Q) (l : list Q) : Q :=
  foldr Qplus 0%Q (imap f l).

(** The least-squares slope of the points [(i, y_i)], by the normal
    equations. *)
Definition ols_slope (l : list Q) : Q :=
  let n := nQ (length l) in
  let sum_x := sum_over (fun i _ => nQ i) l in
  let sum_y := sum_over (fun _ y => y) l in
  let sum_xy := sum_over (fun i y => nQ i * y)%Q l in
  let sum_x2 := sum_over (fun i _ => nQ i * nQ i)%Q l in
  ((n * sum_xy - sum_x * sum_y) / (n * sum_x2 - sum_x * sum_x))%Q.

(** The three sums that [linear_regression] accumulates, the numerator and
    the denominator of its slope, and the weighted sum [n * Sy - Sxy]. *)
Definition Sy (l : list Q) : Q := accumulate l (f_of_Z 0).
Definition Sxy (l : list Q) : Q :=
  fst (DataProcessor.regression_sums 0 l (f_of_Z 0, f_of_Z 0)).
Definition Sx2 (l : list Q) : Q :=
  snd (DataProcessor.regression_sums 0 l (f_of_Z 0, f_of_Z 0)).

Definition slope_num (l : list Q) : Q :=
  let n := nQ (length l) in
  (n * Sxy l - (n * (n - 1) / 2) * Sy l)%Q.

Definition slope_den (l : list Q) : Q :=
  let n := nQ (length l) in
  (n * Sx2 l - (n * (n - 1) / 2) * (n * (n - 1) / 2))%Q.

Definition W (l : list Q) : Q := (nQ (length l) * Sy l - Sxy l)%Q.

End ProcessorSpec.

(** * Vocabulary of the further properties *)

Module TrackerQueries.
Import ThermalIsolationTracker.
Section Vocabulary.
Context {F : Type} `{FloatOps F}.

(** [recent_alerts_] is the window of the last [max_alerts_history] emitted
    alerts. *)
Definition alerts_window (config : ThermalConfig.t F) (st : state F) : Prop :=
  config_ st = config
  /\ recent_alerts_ st = last_n (ThermalConfig.max_alerts_history config) (emitted_ st).

(** Every entry of the sensor store carries the id it is stored under. *)
Definition keyed (st : state F) : Prop :=
  forall id sensor, sensors_ st !! id = Some sensor -> SensorData.sensor_id sensor = id.

(** The ids for which a reading has been submitted. *)
Definition submitted_ids (calls : list (TrackerSpec.call (F := F))) : list string :=
  flat_map (fun c => match c with
                     | TrackerSpec.ProcessSensorData id _ _ _ => [id]
                     | _ => []
                     end) calls.

(** An alert describes the sensor snapshot it was raised for. *)
Definition describes (sensor : SensorData.t F) (alert : Alert.t F) : Prop :=
  Alert.location alert = SensorData.location sensor
  /\ Alert.temperature alert = SensorData.temperature sensor
  /\ Alert.humidity alert = SensorData.humidity sensor
  /\ Alert.temp_rate alert = SensorData.temp_rate sensor.

(** The average, minimum and maximum that [get_sensor_stats] computes from
    the values of a temperature history (all zero for an empty one). *)
Definition history_summary (values : list F) : F * F * F :=
  match values with
  | [] => (f_of_Z 0, f_of_Z 0, f_of_Z 0)
  | v0 :: _ =>
      (fdiv (accumulate values (f_of_Z 0)) (f_of_Z (Z.of_N (size values))),
       fold_left fmin values v0, fold_left fmax values v0)
  end.

(** The uptime that [get_sensor_stats] reports at time [t]. *)
Definition reported_uptime (sensor : SensorData.t F) (t : time_point) : Z :=
  if decide (SensorData.last_update sensor <> 0)
  then to_int32 (duration_minutes (t - SensorData.last_update sensor))
  else 0.

(** The kinds of alert in the order in which [check_thresholds] tests
    them. *)
Definition kinds_in_order : list AlertType :=
  [TEMP_TOO_LOW; TEMP_TOO_HIGH; HUMIDITY_TOO_HIGH; TEMP_RISING_FAST; TEMP_FALLING_FAST;
   SENSOR_OFFLINE].

(** The alerts that concern one sensor, and its throttle entries. *)
Definition alerts_about (sensor_id : string) (log : list (Alert.t F)) : list (Alert.t F) :=
  filter (fun a => Alert.sensor_id a = sensor_id) log.

Definition throttle_of (st : state F) (sensor_id : string) : gmap AlertType time_point :=
  default ∅ (alert_throttle_ st !! sensor_id).

End Vocabulary.
End TrackerQueries.

Module StringFacts.

(** The pieces of a split, put together again with the delimiter between
    them. *)
Fixpoint join (delimiter : ascii) (parts : list string) : string :=
  match parts with
  | [] => EmptyString
  | part :: rest =>
      match rest with
      | [] => part
      | _ :: _ => part +:+ String delimiter (join delimiter rest)
      end
  end.

(** The last character of [s] is [c]. *)
Fixpoint ends_with (c : ascii) (s : string) : bool :=
  match s with
  | EmptyString => false
  | String a rest =>
      match rest with
      | EmptyString => bool_decide (a = c)
      | String _ _ => ends_with c rest
      end
  end.

(** The length of a string as a [size_t]. *)
Definition strlen (s : string) : N := N.of_nat (String.length s).

(** [P] holds at no position of [mid] in the string [mid +:+ rest]. *)
Fixpoint never (P : string -> bool) (mid rest : string) : Prop :=
  match mid with
  | EmptyString => True
  | String a mid' => P (String a (mid' +:+ rest)) = false /\ never P mid' rest
  end.

(** The payload format that [parse_json_sensor_data] documents:
    [{"temperature": 25.5, "humidity": 60.2, "location": "room1"}], with the
    texts of the two numbers and of the location. *)
Definition sensor_json (temperature humidity location : string) : string :=
  "{" +:+ Parsing.temperature_key +:+ " " +:+ temperature +:+ ", "
  +:+ Parsing.humidity_key +:+ " " +:+ humidity +:+ ", "
  +:+ Parsing.location_key +:+ " " +:+ String dquote (location +:+ String dquote "}").

End StringFacts.

Module ProcessorQueries.
Import DataProcessor ProcessorSpec.
Section Vocabulary.
Context {F : Type} `{FloatOps F}.
Variable steady_clock : nat -> time_point.

(** The packet a call puts into the queue, if any. *)
Definition enqueued (st : state F) (c : call) : option (SensorDataPacket.t F) :=
  match c with
  | ProcessPacket packet =>
      if running_ st
         && (size (processing_queue_ st)
               <? to_size_t (RPi4GatewayConfig.max_queue_size (config_ st)))%N
      then Some packet else None
  | _ => None
  end.

(** The packets that [process_packet] has accepted during [calls], in
    order. *)
Fixpoint accepted (st : state F) (calls : list call) : list (SensorDataPacket.t F) :=
  match calls with
  | [] => []
  | c :: rest => option_list (enqueued st c) ++ accepted (run_call steady_clock st c) rest
  end.

(** The entry that [update_statistics] writes for a valid packet, from the
    entry [previous] that the sensor had. *)
Definition statistics_after (previous : option (SensorStatistics.t F))
    (packet : SensorDataPacket.t F) : SensorStatistics.t F :=
  let temp := SensorDataPacket.temperature_celsius packet in
  let stats0 := default SensorStatistics.zero previous in
  let stats1 :=
    if decide (SensorStatistics.sensor_id stats0 = "") then
      SensorStatistics.mk (SensorDataPacket.sensor_id packet) 0 0 0 (f_of_Z 0)
        (SensorStatistics.avg_temperature stats0) (SensorStatistics.avg_humidity stats0)
        temp temp (SensorStatistics.temperature_stddev stats0)
        (SensorStatistics.last_update stats0) (SensorDataPacket.timestamp packet)
    else stats0 in
  let total := wrap64 (SensorStatistics.total_packets stats1 + 1) in
  let nvalid := wrap64 (SensorStatistics.valid_packets stats1 + 1) in
  let nerror := SensorStatistics.error_packets stats1 in
  let avg_t :=
    fdiv (fadd (fmul (SensorStatistics.avg_temperature stats1) (f_of_Z (wrap64 (nvalid - 1))))
               temp)
         (f_of_Z nvalid) in
  let avg_h :=
    fdiv (fadd (fmul (SensorStatistics.avg_humidity stats1) (f_of_Z (wrap64 (nvalid - 1))))
               (SensorDataPacket.humidity_percent packet))
         (f_of_Z nvalid) in
  SensorStatistics.mk (SensorStatistics.sensor_id stats1) total nvalid nerror
    (fdiv (f_of_Z nerror) (f_of_Z total)) avg_t avg_h
    (fmin (SensorStatistics.min_temperature stats1) temp)
    (fmax (SensorStatistics.max_temperature stats1) temp)
    (fabs (fsub temp avg_t))
    (SensorDataPacket.timestamp packet) (SensorStatistics.first_seen stats1).

(** The statistics [stats] count the packets [stored], the valid packets
    of one sensor in the order in which they were processed. *)
Definition counts (sensor_id : string) (stored : list (SensorDataPacket.t F))
    (stats : SensorStatistics.t F) : Prop :=
  let n := Z.of_nat (length stored) in
  let temperatures := SensorDataPacket.temperature_celsius <$> stored in
  let first_temperature := default (f_of_Z 0) (head temperatures) in
  SensorStatistics.sensor_id stats = sensor_id
  /\ SensorStatistics.total_packets stats = wrap64 n
  /\ SensorStatistics.valid_packets stats = wrap64 n
  /\ SensorStatistics.error_packets stats = 0
  /\ SensorStatistics.first_seen stats = default 0 (SensorDataPacket.timestamp <$> head stored)
  /\ SensorStatistics.last_update stats = default 0 (SensorDataPacket.timestamp <$> last stored)
  /\ SensorStatistics.min_temperature stats = fold_left fmin temperatures first_temperature
  /\ SensorStatistics.max_temperature stats = fold_left fmax temperatures first_temperature.

(** The alerts that a processed packet raises, tagged with its sensor. *)
Definition raised_by (config : RPi4GatewayConfig.t F) (packet : SensorDataPacket.t F)
  : list (string * PacketAlert F) :=
  if SensorDataPacket.is_valid packet
  then (fun alert => (SensorDataPacket.sensor_id packet, alert))
         <$> packet_alerts config packet
  else [].

(** A message that carries one packet, as [forward_packet] sends it. *)
Definition is_raw (message : Message F) : bool :=
  match message with
  | MqttData _ _ | WebSocketData _ _ => true
  | AggregatedData _ | EmptyObject => false
  end.

(** The topic of a sensor's raw data. *)
Definition data_topic (config : RPi4GatewayConfig.t F) (sensor_id : string) : string :=
  RPi4GatewayConfig.mqtt_base_topic config +:+ "/sensors/" +:+ sensor_id +:+ "/data".

(** The shape of a stored trend result. *)
Definition well_formed_result (result : EdgeProcessingResult.t F) : Prop :=
  EdgeProcessingResult.analysis_type result = "trend_analysis"
  /\ length (EdgeProcessingResult.alerts result)
     = length (EdgeProcessingResult.recommendations result)
  /\ (length (EdgeProcessingResult.alerts result) <= 2)%nat
  /\ (EdgeProcessingResult.confidence_score result = f_of_Z 1
      \/ flt (EdgeProcessingResult.confidence_score result) (f_of_Z 1) = true)
  /\ dom (EdgeProcessingResult.metrics result)
     = ({["temperature_trend_slope"; "temperature_trend_intercept";
          "temperature_current"; "humidity_current"]} : gset string).

(** Since the state in which the two logs of forwarded messages were
    [sent_mqtt] and [sent_websocket], only messages that are not raw data
    have been forwarded, and none to a sink that is not registered. *)
Definition only_aggregates (mqtt_registered websocket_registered : bool)
    (sent_mqtt : list (string * Message F)) (sent_websocket : list (Message F))
    (st : state F) : Prop :=
  mqtt_callback_ st = mqtt_registered /\ websocket_callback_ st = websocket_registered
  /\ exists (mqtt : list (string * Message F)) (websocket : list (Message F)),
       mqtt_sent_ st = sent_mqtt ++ mqtt
       /\ websocket_sent_ st = sent_websocket ++ websocket
       /\ Forall (fun sent => is_raw sent.2 = false) mqtt
       /\ Forall (fun message => is_raw message = false) websocket
       /\ (mqtt_registered = false -> mqtt = [])
       /\ (websocket_registered = false -> websocket = []).

(** The invariant of [edge_results_]. *)
Definition results_bounded (st : state F) : Prop :=
  (size (edge_results_ st) <= 100)%N /\ Forall well_formed_result (edge_results_ st).

End Vocabulary.
End ProcessorQueries.

Module FrameFacts.

Definition byte (z : Z) : Prop := 0 <= z < 256.

(** A frame as the receivers accept it: fourteen bytes, of which the first
    two are the header and the last is the checksum of the third to the
    thirteenth. *)
Definition well_formed (frame : list Z) : Prop :=
  length frame = 14%nat
  /\ Forall byte frame
  /\ frame !! 0%nat = Some 0xAA
  /\ frame !! 1%nat = Some 0xBB
  /\ xor_range 2 13 frame = frame !!! 13%nat.

(** [p] holds of the [2 ^ k] integers from [lo] on. *)
Fixpoint all_range (k : nat) (lo : Z) (p : Z -> bool) : bool :=
  match k with
  | O => p lo
  | S k => all_range k lo p && all_range k (lo + 2 ^ Z.of_nat k) p
  end.

(** In binary32, the comparisons that the receivers make of a quotient
    agree with comparisons of the raw value. *)
Definition hundredths_agree (raw : Z) : bool :=
  let value : binary32 := fdiv (f_of_Z raw) (f_of_Z 100) in
  Bool.eqb (fle (f_of_Z (-50)) value) (-5000 <=? raw)
  && Bool.eqb (fle (f_of_Z 0) value) (0 <=? raw)
  && Bool.eqb (fle value (f_of_Z 100)) (raw <=? 10000).

Definition thousandths_agree (raw : Z) : bool :=
  let value : binary32 := fdiv (f_of_Z raw) (f_of_Z 1000) in
  Bool.eqb (fle (f_of_Z 2) value) (2000 <=? raw)
  && Bool.eqb (fle value (f_of_Z 5)) (raw <=? 5000).

Section Vocabulary.
Context {F : Type} `{FloatOps F} `{FloatFrameOps F}.

(** The packets that the UART reader parses from [frames], when it reads
    the clock for the [first]-th time at the first of them. *)
Definition parsed (steady_clock : nat -> time_point) (first : nat) (frames : list (list Z))
    : list (SensorDataPacket.t F) :=
  imap (fun i frame => UARTInterface.parse_uart_packet (steady_clock (first + i)%nat) frame)
       frames.

End Vocabulary.
End FrameFacts.

(** * Scenarios in binary32 *)

Module Scenario.

(** An alert text that renders nothing. *)
Definition no_text (config : ThermalConfig.t binary32) (alert : Alert.t binary32) : string := "".

(** A clock that advances by [step] nanoseconds per read, from one second
    after its epoch. *)
Definition ticking (step : Z) (k : nat) : Z := ns_per_second + Z.of_nat k * step.

(** A tracker with the default configuration, and the calls on it. *)
Definition tracker : ThermalIsolationTracker.state binary32 :=
  ThermalIsolationTracker.create ThermalConfig.default.

Definition reading (celsius : Z) : TrackerSpec.call (F := binary32) :=
  TrackerSpec.ProcessSensorData "s1" (f_of_Z celsius) (f_of_Z 50) "".

(** The configuration, the calls and the pauses of [test_threshold_alerts]
    in [test_thermal_system.cpp]: a reading for each of two sensors and a
    third one, half a second apart, and then, under the heading of a rapid
    temperature change, readings of 22.0 and 27.0 for [test_sensor_2] that
    are 100 ms apart.  The clock is read three times by a call that
    considers an alert and twice by one that does not. *)
Definition test_config : ThermalConfig.t binary32 :=
  ThermalConfig.mk (f_of_Z 18) (f_of_Z 26) (f_of_Z 60) (fdiv (f_of_Z 3) (f_of_Z 2)) 1 1
    100%N 1000%N
    (<["test_sensor_1" := "Test Room 1"]> (<["test_sensor_2" := "Test Room 2"]> ∅)).

Definition ns_per_millisecond : Z := 1000000.

Definition test_clock : nat -> Z :=
  clock_of_list
    (map (fun ms => ns_per_second + ms * ns_per_millisecond)
         [0; 0; 0; 500; 500; 500; 1000; 1000; 1000; 1500; 1500; 1600; 1600; 1600]).

Definition test_before_rapid_rise : ThermalIsolationTracker.state binary32 :=
  TrackerSpec.run test_clock no_text (ThermalIsolationTracker.create test_config)
    [TrackerSpec.ProcessSensorData "test_sensor_1" (f_of_Z 15) (f_of_Z 45) "";
     TrackerSpec.ProcessSensorData "test_sensor_2" (f_of_Z 30) (f_of_Z 55) "";
     TrackerSpec.ProcessSensorData "test_sensor_1" (f_of_Z 22) (f_of_Z 70) "";
     TrackerSpec.ProcessSensorData "test_sensor_2" (f_of_Z 22) (f_of_Z 50) ""].

Definition test_after_rapid_rise : ThermalIsolationTracker.state binary32 :=
  TrackerSpec.run_call test_clock no_text test_before_rapid_rise
    (TrackerSpec.ProcessSensorData "test_sensor_2" (f_of_Z 27) (f_of_Z 50) "").

(** Room for two history entries. *)
Definition two_entries : ThermalConfig.t binary32 :=
  ThermalConfig.mk (f_of_Z 18) (f_of_Z 28) (f_of_Z 60) (f_of_Z 2) 10 5 2%N 1000%N ∅.

(** Thresholds the wrong way round: [temp_min] above [temp_max]. *)
Definition inverted_thresholds : ThermalConfig.t binary32 :=
  ThermalConfig.mk (f_of_Z 35) (f_of_Z 28) (f_of_Z 60) (f_of_Z 2) 10 5 100%N 1000%N ∅.

Definition sensor_at_30 : SensorData.t binary32 :=
  SensorData.mk "s1" (f_of_Z 30) (f_of_Z 50) "lab" ns_per_second true (f_of_Z 0) [] [].

(** A timeout of one minute with a cooldown of five, and a clock read at
    0 s, 0 s, 120 s, 120 s, 150 s, 150 s, 270 s, 270 s after its first
    second. *)
Definition short_timeout : ThermalConfig.t binary32 :=
  ThermalConfig.mk (f_of_Z 18) (f_of_Z 28) (f_of_Z 60) (f_of_Z 2) 1 5 100%N 1000%N ∅.

Definition episode_clock : nat -> Z :=
  clock_of_list
    (map (fun s => ns_per_second + s * ns_per_second) [0; 0; 120; 120; 150; 150; 270; 270]).

Definition second_episode_before : ThermalIsolationTracker.state binary32 :=
  TrackerSpec.run episode_clock no_text (ThermalIsolationTracker.create short_timeout)
    [reading 22; TrackerSpec.CheckOfflineSensors; reading 22].

Definition second_episode_after : ThermalIsolationTracker.state binary32 :=
  TrackerSpec.run_call episode_clock no_text second_episode_before
    TrackerSpec.CheckOfflineSensors.

(** A clock that jumps by 22 minutes after its second read. *)
Definition silent_clock (k : nat) : Z :=
  ns_per_second + (if (k <? 2)%nat then 0 else 22 * ns_per_minute).

Definition silent_sensor : ThermalIsolationTracker.state binary32 :=
  TrackerSpec.run silent_clock no_text tracker [reading 22].

(** Three readings above [temp_max]. *)
Definition hot_readings : list (TrackerSpec.call (F := binary32)) :=
  [reading 30; reading 30; reading 30].

(** A processor, and packets of sensor "s1". *)
Definition packet (celsius : Z) (t : Z) (valid : bool) : SensorDataPacket.t binary32 :=
  SensorDataPacket.mk "s1" "lab" (f_of_Z celsius) (f_of_Z 50) (f_of_Z 1013) (f_of_Z 5)
    0 0 0 t UART_INTERFACE valid (f_of_Z 0) 0 (f_of_Z 1).

Definition still_clock (k : nat) : Z := 100 * ns_per_second.

Definition processor : DataProcessor.state binary32 :=
  DataProcessor.create RPi4GatewayConfig.default.

Definition after_valid_packet : DataProcessor.state binary32 :=
  exec (DataProcessor.process_packet_internal still_clock (packet 22 1000 true)) processor.

Definition small_queue : RPi4GatewayConfig.t binary32 :=
  RPi4GatewayConfig.mk "gw" "gateway" 60 1000 true (f_of_Z 10) (f_of_Z 35) (f_of_Z 80) 2 4.

Definition full_queue : DataProcessor.state binary32 :=
  ProcessorSpec.run still_clock (DataProcessor.create small_queue)
    [ProcessorSpec.Start; ProcessorSpec.ProcessPacket (packet 22 1000 true);
     ProcessorSpec.ProcessPacket (packet 23 2000 true)].

(** Ten packets inside a 60 s window, with average 22, minimum 20 and
    maximum 24. *)
Definition ten_packets : list (ProcessorSpec.call (F := binary32)) :=
  [ProcessorSpec.Start; ProcessorSpec.SetMqttCallback]
  ++ flat_map (fun c => [ProcessorSpec.ProcessPacket (packet c (90 * ns_per_second) true);
                         ProcessorSpec.WorkerStep])
              [20; 21; 22; 23; 24; 20; 21; 22; 23; 24].

Definition ten_processed : DataProcessor.state binary32 :=
  ProcessorSpec.run still_clock processor ten_packets.

(** Two strictly increasing series of five temperatures: one near the
    top of the binary32 range, one near 100 degrees in steps of one unit in
    the last place. *)
Definition steep_series : list binary32 :=
  [f_of_Z (2 ^ 124); f_of_Z (2 ^ 125); f_of_Z (2 ^ 126); f_of_Z (2 ^ 127);
   f_of_Z (3 * 2 ^ 126)].

Definition fine_series : list binary32 :=
  [S754_finite false 13105889 (-17); S754_finite false 13105890 (-17);
   S754_finite false 13105891 (-17); S754_finite false 13105892 (-17);
   S754_finite false 13105893 (-17)].

(** Consecutive values of a binary32 series compare as increasing. *)
Fixpoint increasing32 (l : list binary32) : bool :=
  match l with
  | [] => true
  | x :: rest =>
      match rest with
      | [] => true
      | y :: _ => flt x y && increasing32 rest
      end
  end.

(** A sensor whose temperature is a NaN. *)
Definition nan_sensor : SensorData.t binary32 :=
  SensorData.mk "s1" S754_nan (f_of_Z 50) "lab" ns_per_second true (f_of_Z 0) [] [].

(** A [std::stof] that knows the numbers of the messages of
    [test_message_parsing]. *)
Definition stof_sample (text : string) : option binary32 :=
  if decide (text = "23.7") then Some (fdiv (f_of_Z 237) (f_of_Z 10))
  else if decide (text = "58.5") then Some (fdiv (f_of_Z 585) (f_of_Z 10))
  else if decide (text = " 25.5") then Some (fdiv (f_of_Z 255) (f_of_Z 10))
  else if decide (text = " 60.2") then Some (fdiv (f_of_Z 602) (f_of_Z 10))
  else None.

(** A valid packet of a sensor without a name. *)
Definition unnamed_packet : SensorDataPacket.t binary32 :=
  SensorDataPacket.mk "" "lab" (f_of_Z 22) (f_of_Z 50) (f_of_Z 1013) (f_of_Z 5)
    0 0 0 1000 UART_INTERFACE true (f_of_Z 0) 0 (f_of_Z 1).

Definition unnamed_calls : list (ProcessorSpec.call (F := binary32)) :=
  [ProcessorSpec.Start; ProcessorSpec.ProcessPacket unnamed_packet; ProcessorSpec.WorkerStep;
   ProcessorSpec.ProcessPacket unnamed_packet; ProcessorSpec.WorkerStep].

(** Two packets of sensor "s1" in exact arithmetic. *)
Definition rational_packet (celsius : Q) : SensorDataPacket.t Q :=
  SensorDataPacket.mk "s1" "lab" celsius (50 # 1) (1013 # 1) (5 # 1) 0 0 0 1000 UART_INTERFACE
    true (0 # 1) 0 (1 # 1).

Definition rational_calls : list (ProcessorSpec.call (F := Q)) :=
  [ProcessorSpec.Start; ProcessorSpec.ProcessPacket (rational_packet (21 # 1));
   ProcessorSpec.WorkerStep; ProcessorSpec.ProcessPacket (rational_packet (45 # 2));
   ProcessorSpec.WorkerStep].

(** A node whose id hashes to 0x12345678, and its reading of 23.45 degrees,
    55.12 per cent and 3.3 V, in binary32 and in exact arithmetic. *)
Definition node_hash (node_id : string) : Z := 0x12345678.

Definition node_reading : STM32_SensorNode.SensorReading.t binary32 :=
  STM32_SensorNode.SensorReading.mk (fdiv (f_of_Z 2345) (f_of_Z 100))
    (fdiv (f_of_Z 5512) (f_of_Z 100)) (f_of_Z 0) true 0 0 0 1 (fdiv (f_of_Z 33) (f_of_Z 10)).

Definition rational_reading : STM32_SensorNode.SensorReading.t Q :=
  STM32_SensorNode.SensorReading.mk (4691 # 200) (5512 # 100) (0 # 1) true 0 0 0 1 (33 # 10).

(** The frame of both readings: 2345 hundredths of a degree, 5512
    hundredths of a per cent, 3300 thousandths of a volt. *)
Definition node_frame : list Z :=
  [0xAA; 0xBB; 0x12; 0x34; 0x56; 0x78; 0x09; 0x29; 0x15; 0x88; 0x0C; 0xE4; 0x01; 0x5C].

Definition listening : UARTInterface.state binary32 := UARTInterface.mkState true [] 0.

End Scenario.

(** * Properties *)

(** ** The state monad *)

Lemma exec_bind {S A B : Type} (m : State S A) (k : A -> State S B) (s : S) :
  exec (bind m k) s = exec (k (eval m s)) (exec m s).
Proof. unfold exec, eval, bind. destruct (m s); reflexivity. Qed.

Lemma eval_bind {S A B : Type} (m : State S A) (k : A -> State S B) (s : S) :
  eval (bind m k) s = eval (k (eval m s)) (exec m s).
Proof. unfold exec, eval, bind. destruct (m s); reflexivity. Qed.

Lemma preserves_ret {S A : Type} (I : S -> Prop) (a : A) : preserves I (ret a).
Proof. intros s Hs. exact Hs. Qed.

Lemma preserves_bind {S A B : Type} (I : S -> Prop) (m : State S A) (k : A -> State S B) :
  preserves I m -> (forall a, preserves I (k a)) -> preserves I (bind m k).
Proof.
  intros Hm Hk s Hs. rewrite exec_bind. apply Hk, Hm, Hs.
Qed.

Lemma preserves_get {S : Type} (I : S -> Prop) : preserves I (@get S).
Proof. intros s Hs. exact Hs. Qed.

Lemma preserves_for_each {S A : Type} (I : S -> Prop) (l : list A)
    (body : A -> State S unit) :
  (forall x, x ∈ l -> preserves I (body x)) -> preserves I (for_each l body).
Proof.
  induction l as [|x l IH]; intros Hbody.
  - apply preserves_ret.
  - simpl. apply preserves_bind.
    + apply Hbody. left.
    + intros _. apply IH. intros y Hy. apply Hbody. right. exact Hy.
Qed.

(** A loop whose body is the identity on the state. *)
Lemma for_each_nil {S A : Type} (body : A -> State S unit) (s : S) :
  for_each [] body s = (tt, s).
Proof. reflexivity. Qed.

Lemma exec_for_each_cons {S A : Type} (x : A) (l : list A) (body : A -> State S unit) (s : S) :
  exec (for_each (x :: l) body) s = exec (for_each l body) (exec (body x) s).
Proof. simpl. rewrite exec_bind. reflexivity. Qed.

Lemma exec_for_each_app {S A : Type} (l1 l2 : list A) (body : A -> State S unit) (s : S) :
  exec (for_each (l1 ++ l2) body) s = exec (for_each l2 body) (exec (for_each l1 body) s).
Proof.
  revert s. induction l1 as [|x l1 IH]; intros s.
  - reflexivity.
  - rewrite <- app_comm_cons, !exec_for_each_cons. apply IH.
Qed.

(** ** Bounded containers *)

Lemma push_bounded_length {A : Type} (cap : N) (x : A) (c : list A) :
  (size c <= cap)%N -> (size (push_bounded cap x c) <= cap)%N.
Proof.
  unfold push_bounded, size. intros Hc.
  rewrite length_app. simpl.
  destruct (N.ltb_spec cap (N.of_nat (length c + 1))) as [Hlt|Hle].
  - destruct c as [|y c]; simpl in *; [lia|]. rewrite length_app. simpl. lia.
  - rewrite length_app. simpl. exact Hle.
Qed.

Lemma tail_drop {A : Type} (n : nat) (l : list A) : tail (drop n l) = drop (S n) l.
Proof.
  revert l. induction n as [|n IH]; intros [|x l]; simpl; try reflexivity.
  apply IH.
Qed.

Lemma push_bounded_last_n {A : Type} (cap : N) (x : A) (l : list A) :
  push_bounded cap x (last_n cap l) = last_n cap (l ++ [x]).
Proof.
  unfold push_bounded, last_n, size.
  rewrite !length_app, length_drop. simpl.
  destruct (N.ltb_spec cap (N.of_nat (length l - (length l - N.to_nat cap) + 1)))
    as [Hlt|Hle].
  - assert (Hk : (N.to_nat cap <= length l)%nat) by lia.
    replace (length l + 1 - N.to_nat cap)%nat with (S (length l - N.to_nat cap)) by lia.
    rewrite <- drop_app_le by lia.
    rewrite tail_drop. reflexivity.
  - assert (Hk : (length l < N.to_nat cap)%nat) by lia.
    replace (length l - N.to_nat cap)%nat with 0%nat by lia.
    replace (length l + 1 - N.to_nat cap)%nat with 0%nat by lia.
    reflexivity.
Qed.

Lemma last_n_length {A : Type} (cap : N) (l : list A) : (size (last_n cap l) <= cap)%N.
Proof. unfold last_n, size. rewrite length_drop. lia. Qed.

Ltac preserve_step :=
  first
    [ apply preserves_ret
    | apply preserves_get
    | apply preserves_bind; [|intros ?]
    | apply preserves_for_each; intros ? ?
    | match goal with
      | |- preserves _ (if ?b then _ else _) => destruct b
      | |- preserves _ (match ?x with _ => _ end) => destruct x
      | |- preserves _ (let '(_, _) := ?x in _) => destruct x
      end ].

(** ** The tracker *)

Section TrackerProofs.
Import ThermalIsolationTracker TrackerSpec.
Context {F : Type} `{FloatOps F}.
Variable clk : nat -> time_point.
Variable fmt : ThermalConfig.t F -> Alert.t F -> string.

Lemma generate_alert_first st id k sensor :
  last_fired st id k = None ->
  exec (generate_alert clk fmt id k sensor) st =
  let ts := clk (clock_reads_ st) in
  let alert := built_alert fmt (config_ st) id k sensor ts in
  mk (config_ st) (sensors_ st)
     (push_bounded (ThermalConfig.max_alerts_history (config_ st)) alert (recent_alerts_ st))
     (<[id := <[k := ts]> (default ∅ (alert_throttle_ st !! id))]> (alert_throttle_ st))
     (emitted_ st ++ [alert]) (S (clock_reads_ st)).
Proof.
  unfold last_fired. intros Hlast.
  unfold generate_alert, should_throttle_alert, exec, bind, get, set_alert_throttle, ret,
    store_and_deliver, now, built_alert.
  cbn.
  destruct (alert_throttle_ st !! id) as [inner|] eqn:Hin; cbn.
  - rewrite Hlast. cbn. rewrite lookup_insert_eq. cbn.
    rewrite insert_insert_eq. reflexivity.
  - rewrite lookup_empty. cbn. rewrite lookup_insert_eq. cbn.
    rewrite insert_insert_eq. reflexivity.
Qed.

Lemma generate_alert_again st id k sensor fired :
  last_fired st id k = Some fired ->
  exec (generate_alert clk fmt id k sensor) st =
  if ThermalConfig.alert_throttle_minutes (config_ st)
       <=? duration_minutes (clk (clock_reads_ st) - fired)
  then
    let ts := clk (S (clock_reads_ st)) in
    let alert := built_alert fmt (config_ st) id k sensor ts in
    mk (config_ st) (sensors_ st)
       (push_bounded (ThermalConfig.max_alerts_history (config_ st)) alert (recent_alerts_ st))
       (<[id := <[k := ts]> (default ∅ (alert_throttle_ st !! id))]> (alert_throttle_ st))
       (emitted_ st ++ [alert]) (S (S (clock_reads_ st)))
  else
    mk (config_ st) (sensors_ st) (recent_alerts_ st) (alert_throttle_ st)
       (emitted_ st) (S (clock_reads_ st)).
Proof.
  unfold last_fired. intros Hlast.
  unfold generate_alert, should_throttle_alert, exec, bind, get, set_alert_throttle, ret,
    store_and_deliver, now, built_alert.
  cbn.
  destruct (alert_throttle_ st !! id) as [inner|] eqn:Hin; [|discriminate].
  cbn. rewrite Hlast. cbn.
  rewrite (insert_id _ _ _ Hin).
  rewrite Z.leb_antisym.
  destruct (duration_minutes (clk (clock_reads_ st) - fired)
              <? ThermalConfig.alert_throttle_minutes (config_ st)); cbn.
  - reflexivity.
  - rewrite Hin. reflexivity.
Qed.

Lemma last_fired_update (st : state F) id k ts (cfg : ThermalConfig.t F) sens rec em r id' k' :
  last_fired
    (mk cfg sens rec
        (<[id := <[k := ts]> (default ∅ (alert_throttle_ st !! id))]> (alert_throttle_ st))
        em r) id' k'
  = if decide (id' = id /\ k' = k) then Some ts else last_fired st id' k'.
Proof.
  unfold last_fired. cbn.
  destruct (decide (id' = id)) as [->|Hid].
  - rewrite lookup_insert_eq.
    destruct (decide (k' = k)) as [->|Hk].
    + rewrite lookup_insert_eq. rewrite decide_True by done. reflexivity.
    + rewrite lookup_insert_ne by done. rewrite decide_False by tauto.
      destruct (alert_throttle_ st !! id); cbn; [reflexivity|apply lookup_empty].
  - rewrite lookup_insert_ne by done. rewrite decide_False by tauto. reflexivity.
Qed.

Hypothesis clk_mono : forall i j, (i <= j)%nat -> clk i <= clk j.

Lemma spaced_snoc cooldown (log : list (Alert.t F)) (b : Alert.t F) :
  spaced cooldown log ->
  (forall a, a ∈ log -> Alert.sensor_id a = Alert.sensor_id b ->
             Alert.alert_type a = Alert.alert_type b ->
             cooldown * ns_per_minute <= Alert.timestamp b - Alert.timestamp a) ->
  spaced cooldown (log ++ [b]).
Proof.
  intros Hlog Hnew i j a c Hij Ha Hc Hid Hk.
  destruct (decide (j < length log)%nat) as [Hj|Hj].
  - rewrite lookup_app_l in Ha by lia. rewrite lookup_app_l in Hc by lia.
    exact (Hlog i j a c Hij Ha Hc Hid Hk).
  - assert (j = length log) as ->.
    { apply lookup_lt_Some in Hc. rewrite length_app in Hc. simpl in Hc. lia. }
    rewrite lookup_app_l in Ha by lia.
    rewrite list_lookup_middle in Hc by reflexivity. injection Hc as <-.
    apply Hnew; [|done|done]. eapply list_elem_of_lookup_2; eauto.
Qed.

Lemma duration_minutes_ge (d k : Z) :
  0 < k -> k <= duration_minutes d -> k * ns_per_minute <= d.
Proof.
  unfold duration_minutes, ns_per_minute, ns_per_second. intros Hk Hq.
  change (60 * 1000000000) with 60000000000 in *.
  assert (Hd : 0 <= d).
  { destruct (Z_lt_le_dec d 0) as [Hd|Hd]; [|exact Hd].
    assert (Hm : Z.quot d 60000000000 <= Z.quot 0 60000000000)
      by (apply Z.quot_le_mono; lia).
    rewrite Z.quot_0_l in Hm by lia.
    generalize dependent (Z.quot d 60000000000). intros; lia. }
  rewrite Z.quot_div_nonneg in Hq by lia.
  assert (Hdm := Z.mul_div_le d 60000000000 ltac:(lia)).
  lia.
Qed.

Lemma throttle_inv_now (config : ThermalConfig.t F) : preserves (throttle_inv clk config) (now clk).
Proof.
  intros st (Hc & Hle & Hem & Hsp). unfold exec, now; cbn.
  split; [exact Hc|]. split; [|split; [exact Hem|exact Hsp]].
  intros id k t Ht. transitivity (clk (clock_reads_ st)).
  - apply (Hle id k). exact Ht.
  - apply clk_mono. cbn. lia.
Qed.

Lemma throttle_inv_set_sensors (config : ThermalConfig.t F) m : preserves (throttle_inv clk config) (set_sensors m).
Proof. intros st Hinv. exact Hinv. Qed.

Lemma throttle_inv_generate_alert (config : ThermalConfig.t F) id k sensor :
  preserves (throttle_inv clk config) (generate_alert clk fmt id k sensor).
Proof.
  intros st (Hc & Hle & Hem & Hsp). subst config.
  assert (Hfire : forall r,
    (clock_reads_ st <= r)%nat ->
    (forall t, last_fired st id k = Some t ->
       ThermalConfig.alert_throttle_minutes (config_ st)
         <= duration_minutes (clk (clock_reads_ st) - t)) ->
    throttle_inv clk (config_ st)
      (mk (config_ st) (sensors_ st)
         (push_bounded (ThermalConfig.max_alerts_history (config_ st))
            (built_alert fmt (config_ st) id k sensor (clk r)) (recent_alerts_ st))
         (<[id := <[k := clk r]> (default ∅ (alert_throttle_ st !! id))]>
            (alert_throttle_ st))
         (emitted_ st ++ [built_alert fmt (config_ st) id k sensor (clk r)]) (S r))).
  { intros r Hr Hcool.
    assert (Hnow : clk (clock_reads_ st) <= clk r) by (apply clk_mono; lia).
    assert (Hnext : clk r <= clk (S r)) by (apply clk_mono; lia).
    split; [reflexivity|]. split; [|split].
    - intros id' k' t. rewrite last_fired_update. cbn.
      case_decide as Hkey.
      + intros [= <-]. exact Hnext.
      + intros Ht. specialize (Hle _ _ _ Ht). lia.
    - intros a Ha. cbn in Ha. apply elem_of_app in Ha as [Ha|Ha].
      + destruct (Hem a Ha) as (t & Ht & Hat).
        rewrite last_fired_update. case_decide as Hkey.
        * destruct Hkey as [Hi Hk]. exists (clk r). split; [reflexivity|].
          rewrite Hi, Hk in Ht. specialize (Hle _ _ _ Ht). lia.
        * exists t. split; assumption.
      + apply list_elem_of_singleton in Ha as ->.
        rewrite last_fired_update. cbn. rewrite decide_True by done.
        exists (clk r). split; [reflexivity|lia].
    - cbn. apply spaced_snoc; [exact Hsp|].
      intros a Ha Hi Hk. cbn in Hi, Hk |- *.
      destruct (Hem a Ha) as (t & Ht & Hat).
      rewrite Hi, Hk in Ht. specialize (Hle _ _ _ Ht). specialize (Hcool _ Ht).
      destruct (Z_lt_le_dec 0 (ThermalConfig.alert_throttle_minutes (config_ st)))
        as [Hpos|Hneg].
      + pose proof (duration_minutes_ge _ _ Hpos Hcool). lia.
      + assert (ThermalConfig.alert_throttle_minutes (config_ st) * ns_per_minute <= 0).
        { unfold ns_per_minute, ns_per_second. lia. }
        lia. }
  destruct (last_fired st id k) as [fired|] eqn:Hlast.
  - rewrite (generate_alert_again st id k sensor fired Hlast).
    destruct (Z.leb_spec (ThermalConfig.alert_throttle_minutes (config_ st))
                (duration_minutes (clk (clock_reads_ st) - fired))) as [Hok|Hno].
    + cbv zeta. apply Hfire; [lia|].
      intros t [= <-]. exact Hok.
    + split; [reflexivity|]. split; [|split; [exact Hem|exact Hsp]].
      intros id' k' t Ht. cbn. specialize (Hle _ _ _ Ht).
      assert (clk (clock_reads_ st) <= clk (S (clock_reads_ st))) by (apply clk_mono; lia).
      lia.
  - rewrite (generate_alert_first st id k sensor Hlast). cbv zeta.
    apply Hfire; [lia|]. intros t [=].
Qed.



Lemma throttle_inv_check_thresholds (config : ThermalConfig.t F) id sensor :
  preserves (throttle_inv clk config) (check_thresholds clk fmt id sensor).
Proof.
  unfold check_thresholds.
  repeat first [apply throttle_inv_now | apply throttle_inv_generate_alert | preserve_step].
Qed.

Lemma throttle_inv_run_call (config : ThermalConfig.t F) st c :
  throttle_inv clk config st -> throttle_inv clk config (run_call clk fmt st c).
Proof.
  revert st. change (preserves (throttle_inv clk config) (fun st => (tt, run_call clk fmt st c))).
  destruct c as [id temperature humidity location| |id]; intros st Hst; unfold exec; cbn.
  - revert st Hst. unfold process_sensor_data.
    repeat first [apply throttle_inv_now | apply throttle_inv_set_sensors
                 | apply throttle_inv_check_thresholds | preserve_step].
  - revert st Hst. unfold check_offline_sensors, check_offline_sensor.
    repeat first [apply throttle_inv_now | apply throttle_inv_set_sensors
                 | apply throttle_inv_generate_alert | preserve_step].
  - revert st Hst. unfold get_sensor_stats.
    repeat first [apply throttle_inv_now | preserve_step].
Qed.

Lemma throttle_inv_create (config : ThermalConfig.t F) : throttle_inv clk config (create config).
Proof.
  split; [reflexivity|]. split; [|split].
  - intros id k t. unfold last_fired. cbn. rewrite lookup_empty. discriminate.
  - intros a Ha. cbn in Ha. apply elem_of_nil in Ha. destruct Ha.
  - intros i j a b _ Ha. cbn in Ha. rewrite lookup_nil in Ha. discriminate.
Qed.

Lemma throttle_inv_run (config : ThermalConfig.t F) calls st :
  throttle_inv clk config st -> throttle_inv clk config (run clk fmt st calls).
Proof.
  revert st. induction calls as [|c calls IH]; intros st Hst; [exact Hst|].
  cbn. apply IH, throttle_inv_run_call, Hst.
Qed.

(** *** What [generate_alert] leaves alone *)

Lemma generate_alert_frame st id k sensor :
  let st' := exec (generate_alert clk fmt id k sensor) st in
  config_ st' = config_ st /\ sensors_ st' = sensors_ st
  /\ (clock_reads_ st <= clock_reads_ st')%nat.
Proof.
  cbv zeta. destruct (last_fired st id k) as [fired|] eqn:Hlast.
  - rewrite (generate_alert_again st id k sensor fired Hlast).
    destruct (_ <=? _); cbn; repeat split; lia.
  - rewrite (generate_alert_first st id k sensor Hlast). cbn. repeat split; lia.
Qed.

(** Alerts of another sensor, and its throttle entries, are not touched. *)
Lemma generate_alert_other st id k sensor id' k' :
  id' <> id ->
  let st' := exec (generate_alert clk fmt id k sensor) st in
  alerts_of id' k' (emitted_ st') = alerts_of id' k' (emitted_ st)
  /\ last_fired st' id' k' = last_fired st id' k'.
Proof.
  intros Hne. cbv zeta.
  assert (Hfilter : forall ts,
    alerts_of id' k' (emitted_ st ++ [built_alert fmt (config_ st) id k sensor ts])
    = alerts_of id' k' (emitted_ st)).
  { intros ts. unfold alerts_of. rewrite filter_app, filter_cons_False, filter_nil.
    - apply app_nil_r.
    - cbn. intros [Hid _]. congruence. }
  destruct (last_fired st id k) as [fired|] eqn:Hlast.
  - rewrite (generate_alert_again st id k sensor fired Hlast).
    destruct (_ <=? _); cbv zeta.
    + rewrite last_fired_update. cbn [emitted_]. rewrite Hfilter.
      rewrite decide_False by tauto. split; reflexivity.
    + split; reflexivity.
  - rewrite (generate_alert_first st id k sensor Hlast). cbv zeta.
    rewrite last_fired_update. cbn [emitted_]. rewrite Hfilter.
    rewrite decide_False by tauto. split; reflexivity.
Qed.

Lemma frame_inv_generate_alert (config : ThermalConfig.t F) m r id k sensor :
  preserves (frame_inv config m r) (generate_alert clk fmt id k sensor).
Proof.
  intros st (Hc & Hm & Hr).
  destruct (generate_alert_frame st id k sensor) as (Hc' & Hm' & Hr').
  repeat split; [congruence|congruence|lia].
Qed.

Lemma frame_inv_now (config : ThermalConfig.t F) m r : preserves (frame_inv config m r) (now clk).
Proof. intros st (Hc & Hm & Hr). repeat split; cbn; [assumption..|lia]. Qed.

Lemma frame_inv_check_thresholds (config : ThermalConfig.t F) m r id sensor :
  preserves (frame_inv config m r) (check_thresholds clk fmt id sensor).
Proof.
  unfold check_thresholds.
  repeat first [apply frame_inv_now | apply frame_inv_generate_alert | preserve_step].
Qed.

(** *** The effect of a reading on the sensor store *)

Lemma process_sensor_data_sensors st id temperature humidity location :
  let st' := exec (process_sensor_data clk fmt id temperature humidity location) st in
  config_ st' = config_ st
  /\ sensors_ st' =
       <[id := apply_reading (config_ st)
                 (default SensorData.default (sensors_ st !! id))
                 id temperature humidity location (clk (clock_reads_ st))]> (sensors_ st).
Proof.
  cbv zeta. unfold process_sensor_data.
  rewrite exec_bind. rewrite exec_bind. rewrite exec_bind. rewrite exec_bind.
  cbn [eval now get set_sensors ret fst snd].
  unfold exec at 2 3 4 5. cbn [now get set_sensors ret fst snd config_ sensors_].
  match goal with
  | |- context [exec (check_thresholds clk fmt id ?s) ?st0] =>
      destruct (frame_inv_check_thresholds (config_ st) (sensors_ st0) 0 id s st0)
        as (Hc & Hm & _)
  end.
  { repeat split. cbn. lia. }
  split; [exact Hc|exact Hm].
Qed.

(** *** The offline sweep *)

Lemma check_offline_sensor_exec st t id sensor :
  exec (check_offline_sensor clk fmt t (id, sensor)) st =
  if SensorData.is_active sensor && stale (config_ st) sensor t
  then exec (generate_alert clk fmt id SENSOR_OFFLINE (deactivated sensor))
            (mk (config_ st) (<[id := deactivated sensor]> (sensors_ st))
                (recent_alerts_ st) (alert_throttle_ st) (emitted_ st) (clock_reads_ st))
  else st.
Proof.
  unfold check_offline_sensor, stale. rewrite exec_bind. cbn [get exec eval fst snd].
  destruct (SensorData.is_active sensor); [|reflexivity].
  destruct (_ <? _); [|reflexivity].
  cbn [andb]. rewrite exec_bind. reflexivity.
Qed.

Lemma sweep_loop_sensors t l : forall st,
  let st' := exec (for_each l (check_offline_sensor clk fmt t)) st in
  config_ st' = config_ st
  /\ (clock_reads_ st <= clock_reads_ st')%nat
  /\ sensors_ st' =
       foldl (fun m entry =>
                if SensorData.is_active entry.2 && stale (config_ st) entry.2 t
                then <[entry.1 := deactivated entry.2]> m else m)
             (sensors_ st) l.
Proof.
  induction l as [|[id sensor] l IH]; intros st; cbv zeta.
  - cbn. repeat split. lia.
  - rewrite exec_for_each_cons.
    specialize (IH (exec (check_offline_sensor clk fmt t (id, sensor)) st)).
    cbv zeta in IH. destruct IH as (Hc & Hr & Hm).
    rewrite check_offline_sensor_exec in Hc, Hr, Hm |- *.
    cbn [foldl fst snd].
    destruct (SensorData.is_active sensor && stale (config_ st) sensor t) eqn:Hcond.
    + match type of Hc with
      | context [exec (generate_alert clk fmt id ?k ?s) ?st0] =>
          destruct (generate_alert_frame st0 id k s) as (Hc' & Hm' & Hr')
      end.
      cbn [config_ sensors_ clock_reads_] in Hc', Hm', Hr'.
      rewrite Hc' in Hc, Hm. rewrite Hm' in Hm.
      repeat split; [exact Hc|lia|exact Hm].
    + repeat split; assumption.
Qed.

Lemma sweep_fold_lookup (config : ThermalConfig.t F) t id :
  forall (l : list (string * SensorData.t F)) (m : gmap string (SensorData.t F)),
  NoDup l.*1 ->
  (forall id' sensor, (id', sensor) ∈ l -> m !! id' = Some sensor) ->
  foldl (fun m entry =>
           if SensorData.is_active entry.2 && stale config entry.2 t
           then <[entry.1 := deactivated entry.2]> m else m) m l !! id
  = if decide (id ∈ l.*1) then sweep_sensor config t <$> m !! id else m !! id.
Proof.
  induction l as [|[id1 s1] l IH]; intros m Hnd Hin.
  - cbn. rewrite decide_False by apply not_elem_of_nil. reflexivity.
  - cbn [foldl fst snd]. rewrite fmap_cons in Hnd. cbn [fst] in Hnd.
    apply NoDup_cons in Hnd as [Hfresh Hnd].
    assert (Hm1 : m !! id1 = Some s1) by (apply Hin; left).
    rewrite IH; [|exact Hnd|].
    + rewrite fmap_cons. cbn [fst].
      destruct (decide (id = id1)) as [->|Hne].
      * rewrite decide_False by exact Hfresh.
        rewrite decide_True by left.
        rewrite Hm1. unfold sweep_sensor. cbn.
        destruct (SensorData.is_active s1 && stale config s1 t).
        -- apply lookup_insert_eq.
        -- exact Hm1.
      * assert (Hsame :
          (if SensorData.is_active s1 && stale config s1 t
           then <[id1 := deactivated s1]> m else m) !! id = m !! id).
        { destruct (_ && _); [|reflexivity]. apply lookup_insert_ne. congruence. }
        rewrite Hsame.
        destruct (decide (id ∈ l.*1)) as [Hl|Hl].
        -- rewrite decide_True by (right; exact Hl). reflexivity.
        -- rewrite decide_False; [reflexivity|].
           intros Hc. apply elem_of_cons in Hc as [Hc|Hc]; [congruence|tauto].
    + intros id' sensor Hel.
      assert (id' <> id1).
      { intros ->. apply Hfresh. apply list_elem_of_fmap. exists (id1, sensor). done. }
      destruct (_ && _).
      * rewrite lookup_insert_ne by congruence. apply Hin. right. exact Hel.
      * apply Hin. right. exact Hel.
Qed.

(** The sweep marks exactly the active, stale sensors inactive. *)
Lemma check_offline_sensors_sensors st id :
  let st' := exec (check_offline_sensors clk fmt) st in
  config_ st' = config_ st
  /\ sensors_ st' !! id
     = sweep_sensor (config_ st) (clk (clock_reads_ st)) <$> sensors_ st !! id.
Proof.
  cbv zeta. unfold check_offline_sensors, exec, bind, now, get.
  cbn [fst snd config_ sensors_ clock_reads_].
  match goal with
  | |- context [for_each ?l (check_offline_sensor clk fmt ?t) ?st0] =>
      destruct (sweep_loop_sensors t l st0) as (Hc & _ & Hm)
  end.
  unfold exec in Hc, Hm. cbn [config_ sensors_] in Hc, Hm.
  rewrite Hc, Hm. split; [reflexivity|].
  rewrite sweep_fold_lookup.
  - destruct (sensors_ st !! id) as [sensor|] eqn:Hs.
    + rewrite decide_True; [reflexivity|].
      apply list_elem_of_fmap. exists (id, sensor). split; [reflexivity|].
      apply elem_of_map_to_list. exact Hs.
    + destruct (decide _); reflexivity.
  - apply NoDup_fst_map_to_list.
  - intros id' sensor Hel. apply elem_of_map_to_list in Hel. exact Hel.
Qed.

Lemma log_inv_other_entry (config : ThermalConfig.t F) id k log fired r t id' sensor :
  id' <> id ->
  preserves (log_inv config id k log fired r)
            (check_offline_sensor clk fmt t (id', sensor)).
Proof.
  intros Hne st (Hc & Hlog & Hf & Hr).
  rewrite check_offline_sensor_exec.
  destruct (_ && _); [|repeat split; assumption].
  assert (Hne' : id <> id') by congruence.
  match goal with
  | |- context [exec (generate_alert clk fmt id' ?k' ?s) ?st0] =>
      destruct (generate_alert_frame st0 id' k' s) as (Hc' & _ & Hr');
      destruct (generate_alert_other st0 id' k' s id k Hne') as (Hlog' & Hf')
  end.
  cbn [config_ clock_reads_ emitted_] in Hc', Hr', Hlog'.
  repeat split; [congruence|congruence| |lia].
  rewrite Hf'. exact Hf.
Qed.

Lemma log_inv_other_entries (config : ThermalConfig.t F) id k log fired r t
    (l : list (string * SensorData.t F)) :
  id ∉ l.*1 ->
  preserves (log_inv config id k log fired r)
            (for_each l (check_offline_sensor clk fmt t)).
Proof.
  intros Hfresh. apply preserves_for_each. intros [id' sensor] Hel.
  apply log_inv_other_entry. intros ->. apply Hfresh.
  apply list_elem_of_fmap. exists (id, sensor). done.
Qed.

Lemma duration_minutes_mono (a b : Z) : a <= b -> duration_minutes a <= duration_minutes b.
Proof.
  intros Hab. unfold duration_minutes. apply Z.quot_le_mono; [|exact Hab].
  unfold ns_per_minute, ns_per_second. lia.
Qed.

(** An entry of the store splits the loop in three. *)
Lemma sweep_split (m : gmap string (SensorData.t F)) id sensor :
  m !! id = Some sensor ->
  exists l1 l2, map_to_list m = l1 ++ (id, sensor) :: l2
                /\ (id ∉ l1.*1) /\ (id ∉ l2.*1).
Proof.
  intros Hm. apply elem_of_map_to_list in Hm.
  apply list_elem_of_split in Hm as (l1 & l2 & Hl).
  exists l1, l2. split; [exact Hl|].
  pose proof (NoDup_fst_map_to_list m) as Hnd.
  rewrite Hl, fmap_app, fmap_cons in Hnd. cbn [fst] in Hnd.
  apply NoDup_app in Hnd as (_ & Hdisj & Hnd2).
  apply NoDup_cons in Hnd2 as [Hfresh _].
  split; [|exact Hfresh].
  intros Hin. apply (Hdisj id Hin). left.
Qed.

Lemma sweep_inactive_sensor st id k :
  (forall sensor, sensors_ st !! id = Some sensor -> SensorData.is_active sensor = false) ->
  let st' := exec (check_offline_sensors clk fmt) st in
  sensors_ st' !! id = sensors_ st !! id
  /\ alerts_of id k (emitted_ st') = alerts_of id k (emitted_ st)
  /\ last_fired st' id k = last_fired st id k.
Proof.
  intros Hinactive. cbv zeta. split.
  - destruct (check_offline_sensors_sensors st id) as [_ ->].
    destruct (sensors_ st !! id) as [sensor|] eqn:Hs; [|reflexivity].
    cbn. unfold sweep_sensor. rewrite (Hinactive sensor eq_refl). reflexivity.
  - unfold check_offline_sensors, exec, bind, now, get.
    cbn [fst snd config_ sensors_ clock_reads_].
    set (t := clk (clock_reads_ st)).
    set (st0 := mk (config_ st) (sensors_ st) (recent_alerts_ st) (alert_throttle_ st)
                   (emitted_ st) (S (clock_reads_ st))).
    assert (Hinv : log_inv (config_ st) id k (alerts_of id k (emitted_ st))
                     (last_fired st id k) 0
                     (exec (for_each (map_to_list (sensors_ st))
                              (check_offline_sensor clk fmt t)) st0)).
    { destruct (sensors_ st !! id) as [sensor|] eqn:Hs.
      - destruct (sweep_split _ _ _ Hs) as (l1 & l2 & -> & Hl1 & Hl2).
        rewrite exec_for_each_app, exec_for_each_cons.
        apply log_inv_other_entries; [exact Hl2|].
        rewrite check_offline_sensor_exec.
        rewrite (Hinactive sensor eq_refl). cbn [andb].
        apply log_inv_other_entries; [exact Hl1|].
        repeat split. cbn. lia.
      - apply log_inv_other_entries.
        + intros Hin. apply list_elem_of_fmap in Hin as ([id' sensor] & -> & Hel).
          apply elem_of_map_to_list in Hel. cbn in Hs. congruence.
        + repeat split. cbn. lia. }
    destruct Hinv as (_ & Hlog & Hf & _). split; assumption.
Qed.

Lemma alerts_of_snoc_same id k (log : list (Alert.t F)) config sensor ts :
  alerts_of id k (log ++ [built_alert fmt config id k sensor ts])
  = alerts_of id k log ++ [built_alert fmt config id k sensor ts].
Proof.
  unfold alerts_of. rewrite filter_app, filter_cons_True by done. reflexivity.
Qed.

Lemma sweep_stale_sensor st id sensor :
  sensors_ st !! id = Some sensor ->
  SensorData.is_active sensor = true ->
  stale (config_ st) sensor (clk (clock_reads_ st)) = true ->
  let st' := exec (check_offline_sensors clk fmt) st in
  sensors_ st' !! id = Some (deactivated sensor)
  /\ exists new,
       alerts_of id SENSOR_OFFLINE (emitted_ st')
       = alerts_of id SENSOR_OFFLINE (emitted_ st) ++ new
       /\ (length new <= 1)%nat
       /\ (passes_throttle st id SENSOR_OFFLINE (clk (clock_reads_ st)) = true ->
           length new = 1%nat).
Proof.
  intros Hs Hact Hstale. cbv zeta. split.
  - destruct (check_offline_sensors_sensors st id) as [_ ->].
    rewrite Hs. cbn. unfold sweep_sensor. rewrite Hact, Hstale. reflexivity.
  - unfold check_offline_sensors, exec, bind, now, get.
    cbn [fst snd config_ sensors_ clock_reads_].
    set (t := clk (clock_reads_ st)) in *.
    set (st0 := mk (config_ st) (sensors_ st) (recent_alerts_ st) (alert_throttle_ st)
                   (emitted_ st) (S (clock_reads_ st))).
    change (snd (for_each (map_to_list (sensors_ st)) (check_offline_sensor clk fmt t) st0))
      with (exec (for_each (map_to_list (sensors_ st)) (check_offline_sensor clk fmt t)) st0).
    destruct (sweep_split _ _ _ Hs) as (l1 & l2 & -> & Hl1 & Hl2).
    rewrite exec_for_each_app, exec_for_each_cons.
    set (log := alerts_of id SENSOR_OFFLINE (emitted_ st)).
    assert (H1 : log_inv (config_ st) id SENSOR_OFFLINE log
                   (last_fired st id SENSOR_OFFLINE) (S (clock_reads_ st))
                   (exec (for_each l1 (check_offline_sensor clk fmt t)) st0)).
    { apply log_inv_other_entries; [exact Hl1|]. repeat split. cbn. lia. }
    set (s1 := exec (for_each l1 (check_offline_sensor clk fmt t)) st0) in *.
    destruct H1 as (Hc1 & Hlog1 & Hf1 & Hr1).
    rewrite check_offline_sensor_exec. rewrite Hc1, Hact, Hstale. cbn [andb].
    set (s1' := mk (config_ st) (<[id := deactivated sensor]> (sensors_ s1))
                   (recent_alerts_ s1) (alert_throttle_ s1) (emitted_ s1)
                   (clock_reads_ s1)).
    assert (Hf1' : last_fired s1' id SENSOR_OFFLINE = last_fired st id SENSOR_OFFLINE)
      by exact Hf1.
    assert (Hafter : forall new s2,
      log_inv (config_ st) id SENSOR_OFFLINE (log ++ new)
              (last_fired s2 id SENSOR_OFFLINE) 0 s2 ->
      alerts_of id SENSOR_OFFLINE
        (emitted_ (exec (for_each l2 (check_offline_sensor clk fmt t)) s2))
      = log ++ new).
    { intros new s2 Hinv.
      apply (log_inv_other_entries _ _ _ _ _ _ t l2 Hl2) in Hinv.
      destruct Hinv as (_ & Hlog2 & _). exact Hlog2. }
    destruct (last_fired st id SENSOR_OFFLINE) as [fired|] eqn:Hlast.
    + rewrite (generate_alert_again s1' id SENSOR_OFFLINE _ fired Hf1').
      subst s1'. cbn [config_ clock_reads_ emitted_ recent_alerts_ alert_throttle_].
      destruct (Z.leb_spec (ThermalConfig.alert_throttle_minutes (config_ st))
                  (duration_minutes (clk (clock_reads_ s1) - fired))) as [Hok|Hno].
      * eexists [_]. split; [|split; [cbn; lia|reflexivity]].
        cbv zeta. apply Hafter. repeat split; cbn [config_ emitted_ clock_reads_]; [|lia].
        rewrite alerts_of_snoc_same. rewrite Hlog1. reflexivity.
      * exists []. split; [|split; [cbn; lia|]].
        -- apply Hafter. rewrite app_nil_r.
           repeat split; cbn [config_ emitted_ clock_reads_]; [exact Hlog1|lia].
        -- unfold passes_throttle. rewrite Hlast. intros Hpass.
           apply Z.leb_le in Hpass.
           assert (clk (clock_reads_ st) <= clk (clock_reads_ s1))
             by (apply clk_mono; lia).
           pose proof (duration_minutes_mono (t - fired) (clk (clock_reads_ s1) - fired)
                         ltac:(unfold t; lia)).
           lia.
    + rewrite (generate_alert_first s1' id SENSOR_OFFLINE _ Hf1').
      subst s1'. cbn [config_ clock_reads_ emitted_ recent_alerts_ alert_throttle_].
      eexists [_]. split; [|split; [cbn; lia|reflexivity]].
      cbv zeta. apply Hafter. repeat split; cbn [config_ emitted_ clock_reads_]; [|lia].
      rewrite alerts_of_snoc_same. rewrite Hlog1. reflexivity.
Qed.

(** *** Histories *)

Lemma push_bounded_fmap {A B : Type} (f : A -> B) (cap : N) (x : A) (c : list A) :
  f <$> push_bounded cap x c = push_bounded cap (f x) (f <$> c).
Proof.
  unfold push_bounded, size. rewrite !length_app, length_fmap. cbn [length].
  destruct (_ <? _)%N.
  - destruct c as [|y c]; cbn; [reflexivity|]. rewrite fmap_app. reflexivity.
  - rewrite fmap_app. reflexivity.
Qed.

Lemma get_sensor_stats_frame st id :
  let st' := exec (get_sensor_stats clk id) st in
  config_ st' = config_ st /\ sensors_ st' = sensors_ st.
Proof.
  cbv zeta. unfold get_sensor_stats, exec, bind, get, ret, now. cbn [fst snd].
  destruct (sensors_ st !! id) as [sensor|]; [|split; reflexivity].
  destruct (SensorData.temperature_history sensor) as [|first rest].
  - destruct (decide _); split; reflexivity.
  - destruct (fold_left _ _ _) as [[sum lo] hi].
    destruct (decide _); split; reflexivity.
Qed.

Lemma tracker_run_call_config st c : config_ (run_call clk fmt st c) = config_ st.
Proof.
  destruct c as [id temperature humidity location| |id]; cbn [run_call].
  - apply process_sensor_data_sensors.
  - apply (check_offline_sensors_sensors st "").
  - apply get_sensor_stats_frame.
Qed.

Lemma tracker_run_config calls : forall st, config_ (run clk fmt st calls) = config_ st.
Proof.
  induction calls as [|c calls IH]; intros st; [reflexivity|].
  change (config_ (run clk fmt (run_call clk fmt st c) calls) = config_ st).
  rewrite IH. apply tracker_run_call_config.
Qed.

Lemma tracker_run_snoc st calls c :
  run clk fmt st (calls ++ [c]) = run_call clk fmt (run clk fmt st calls) c.
Proof. unfold run. rewrite fold_left_app. reflexivity. Qed.

Lemma tracker_run_call_histories st c id :
  temperature_history_of (run_call clk fmt st c) id
  = match c with
    | ProcessSensorData id' temperature _ _ =>
        if decide (id' = id)
        then push_bounded (ThermalConfig.history_size (config_ st)) temperature
                          (temperature_history_of st id)
        else temperature_history_of st id
    | _ => temperature_history_of st id
    end
  /\ humidity_history_of (run_call clk fmt st c) id
     = match c with
       | ProcessSensorData id' _ humidity _ =>
           if decide (id' = id)
           then push_bounded (ThermalConfig.history_size (config_ st)) humidity
                             (humidity_history_of st id)
           else humidity_history_of st id
       | _ => humidity_history_of st id
       end.
Proof.
  unfold temperature_history_of, humidity_history_of.
  destruct c as [id' temperature humidity location| |id']; cbn [run_call].
  - destruct (process_sensor_data_sensors st id' temperature humidity location)
      as [_ ->].
    destruct (decide (id' = id)) as [->|Hne].
    + rewrite lookup_insert_eq. cbn [apply_reading SensorData.temperature_history
                                      SensorData.humidity_history].
      rewrite !push_bounded_fmap. cbn [TimestampedReading.value].
      destruct (sensors_ st !! id); split; reflexivity.
    + rewrite lookup_insert_ne by exact Hne. split; reflexivity.
  - destruct (check_offline_sensors_sensors st id) as [_ ->].
    destruct (sensors_ st !! id) as [sensor|]; [|split; reflexivity].
    cbn. unfold sweep_sensor. destruct (_ && _); split; reflexivity.
  - destruct (get_sensor_stats_frame st id') as [_ ->]. split; reflexivity.
Qed.

Lemma tracker_histories config calls id :
  let st := run clk fmt (create config) calls in
  temperature_history_of st id
  = last_n (ThermalConfig.history_size config) (submitted_temperatures id calls)
  /\ humidity_history_of st id
     = last_n (ThermalConfig.history_size config) (submitted_humidities id calls).
Proof.
  cbv zeta. induction calls as [|c calls [IHt IHh]] using rev_ind.
  - unfold temperature_history_of, humidity_history_of. cbn.
    rewrite lookup_empty. split; reflexivity.
  - rewrite tracker_run_snoc.
    destruct (tracker_run_call_histories (run clk fmt (create config) calls) c id) as [-> ->].
    rewrite tracker_run_config. cbn [create config_].
    unfold submitted_temperatures, submitted_humidities in *.
    rewrite !flat_map_app. cbn [flat_map]. rewrite !app_nil_r.
    rewrite IHt, IHh.
    destruct c as [id' temperature humidity location| |id'].
    + destruct (decide (id' = id)).
      * rewrite !push_bounded_last_n. split; reflexivity.
      * rewrite !app_nil_r. split; reflexivity.
    + rewrite !app_nil_r. split; reflexivity.
    + rewrite !app_nil_r. split; reflexivity.
Qed.

(** *** The throttle rule in elapsed time *)

Lemma duration_minutes_le_iff (d c : Z) :
  0 <= d -> (c <= duration_minutes d <-> c * ns_per_minute <= d).
Proof.
  intros Hd. destruct (Z_lt_le_dec 0 c) as [Hpos|Hneg].
  - split; [apply duration_minutes_ge, Hpos|].
    unfold duration_minutes, ns_per_minute, ns_per_second.
    change (60 * 1000000000) with 60000000000. intros Hc.
    rewrite Z.quot_div_nonneg by lia.
    apply Z.div_le_lower_bound; lia.
  - assert (H0 : 0 <= duration_minutes d).
    { unfold duration_minutes, ns_per_minute, ns_per_second.
      apply Z.quot_pos; lia. }
    unfold ns_per_minute, ns_per_second in *. split; intros _; lia.
Qed.

Lemma passes_throttle_elapsed (config : ThermalConfig.t F) st id k :
  throttle_inv clk config st ->
  let t := clk (clock_reads_ st) in
  passes_throttle st id k t = true
  <-> (last_fired st id k = None
       \/ exists fired,
            last_fired st id k = Some fired
            /\ ThermalConfig.alert_throttle_minutes config * ns_per_minute <= t - fired).
Proof.
  intros (Hc & Hle & _). cbv zeta. unfold passes_throttle. rewrite Hc.
  destruct (last_fired st id k) as [fired|] eqn:Hlast.
  - specialize (Hle id k fired Hlast).
    rewrite Z.leb_le, duration_minutes_le_iff by lia.
    split.
    + intros Hok. right. exists fired. split; [reflexivity|exact Hok].
    + intros [Hnone|(fired' & [= <-] & Hok)]; [discriminate|exact Hok].
  - split; [intros _; left; reflexivity|reflexivity].
Qed.

End TrackerProofs.

(** ** The processor *)

Section ProcessorProofs.
Import DataProcessor ProcessorSpec.
Context {F : Type} `{FloatOps F}.
Variable clk : nat -> time_point.

(** *** Invalid packets *)

Lemma process_packet_internal_invalid st packet :
  SensorDataPacket.is_valid packet = false ->
  process_packet_internal clk packet st = (tt, st).
Proof. intros Hv. unfold process_packet_internal. rewrite Hv. reflexivity. Qed.

(** *** The steps that keep the core members *)

Ltac core_prim := intros ? ?; assumption.

Ltac core_steps :=
  repeat first
    [ core_prim
    | preserve_step ].

Lemma core_update_statistics c packet :
  preserves (fun st : state F => core st = c) (update_statistics packet).
Proof. unfold update_statistics. core_steps. Qed.

Lemma core_check_alerts c packet :
  preserves (fun st : state F => core st = c) (check_alerts packet).
Proof. unfold check_alerts. core_steps. Qed.

Lemma core_perform_edge_analytics c packet :
  preserves (fun st => core st = c) (perform_edge_analytics clk packet).
Proof. unfold perform_edge_analytics. core_steps. Qed.

Lemma core_format_aggregated_data c packets :
  preserves (fun st => core st = c) (format_aggregated_data clk packets).
Proof.
  unfold format_aggregated_data. destruct packets as [|first rest]; [core_steps|].
  destruct (fold_left _ _ _) as [[[[[sum_temp sum_hum] sum_press] lo] hi] n].
  core_steps.
Qed.

Lemma core_aggregate_sensor c entry :
  preserves (fun st => core st = c) (aggregate_sensor clk entry).
Proof.
  unfold aggregate_sensor. destruct entry as [id history].
  destruct history as [|first rest]; [core_steps|].
  repeat first [apply core_format_aggregated_data | core_prim | preserve_step].
Qed.

Lemma core_aggregate_and_forward c :
  preserves (fun st => core st = c) (aggregate_and_forward clk).
Proof.
  unfold aggregate_and_forward.
  repeat first [apply core_aggregate_sensor | core_prim | preserve_step].
Qed.
Lemma core_forward_packet c packet :
  preserves (fun st : state F => core st = c) (forward_packet packet).
Proof. unfold forward_packet. core_steps. Qed.

Lemma core_periodic_aggregation c :
  preserves (fun st => core st = c) (periodic_aggregation clk).
Proof.
  unfold periodic_aggregation.
  repeat first [apply core_aggregate_and_forward | core_prim | preserve_step].
Qed.

(** *** The effect of a processed packet on the core members *)

Lemma process_packet_internal_core st packet :
  SensorDataPacket.is_valid packet = true ->
  core (exec (process_packet_internal clk packet) st)
  = (config_ st, running_ st, processing_queue_ st,
     <[SensorDataPacket.sensor_id packet :=
         push_bounded (to_size_t (RPi4GatewayConfig.max_sensor_history (config_ st)))
                      packet (history_of st (SensorDataPacket.sensor_id packet))]>
       (sensor_history_ st),
     edge_analytics_enabled_ st, mqtt_callback_ st, websocket_callback_ st,
     alert_callback_ st).
Proof.
  intros Hv. unfold process_packet_internal. rewrite Hv. cbn [negb].
  rewrite exec_bind, exec_bind.
  set (s1 := exec (update_statistics packet) st).
  assert (H1 : core s1 = core st).
  { apply (core_update_statistics (core st) packet st). reflexivity. }
  set (s2 := exec (store_in_history packet) s1).
  match goal with
  | |- core (exec ?rest s2) = _ =>
      assert (Hrest : preserves (fun s => core s = core s2) rest)
  end.
  { repeat first [apply core_check_alerts | apply core_perform_edge_analytics
                 | apply core_forward_packet | apply core_periodic_aggregation
                 | preserve_step]. }
  rewrite (Hrest s2 eq_refl).
  unfold s2, store_in_history, exec, bind, get, set_sensor_history, core. cbn [fst snd].
  cbn [config_ running_ processing_queue_ sensor_history_ edge_analytics_enabled_
       mqtt_callback_ websocket_callback_ alert_callback_].
  reflexivity.
Qed.

Lemma worker_step_core st :
  core (exec (worker_step clk) st)
  = match dequeued st WorkerStep with
    | Some p =>
        (config_ st, running_ st, tail (processing_queue_ st),
         if SensorDataPacket.is_valid p
         then <[SensorDataPacket.sensor_id p :=
                  push_bounded
                    (to_size_t (RPi4GatewayConfig.max_sensor_history (config_ st)))
                    p (history_of st (SensorDataPacket.sensor_id p))]> (sensor_history_ st)
         else sensor_history_ st,
         edge_analytics_enabled_ st, mqtt_callback_ st, websocket_callback_ st,
         alert_callback_ st)
    | None => core st
    end.
Proof.
  unfold worker_step, dequeued. rewrite exec_bind. cbn [get exec eval fst snd].
  destruct (running_ st) eqn:Hrun; cbn [negb]; [|reflexivity].
  destruct (processing_queue_ st) as [|p rest] eqn:Hq; cbn [head]; [reflexivity|].
  change (snd ((set_processing_queue rest ;; process_packet_internal clk p) st))
    with (exec (set_processing_queue rest ;; process_packet_internal clk p) st).
  rewrite exec_bind.
  destruct (SensorDataPacket.is_valid p) eqn:Hv.
  - rewrite process_packet_internal_core by exact Hv.
    unfold exec, set_processing_queue, history_of. cbn [fst snd].
    cbn [config_ running_ processing_queue_ sensor_history_ edge_analytics_enabled_
         mqtt_callback_ websocket_callback_ alert_callback_].
    rewrite Hrun. reflexivity.
  - unfold exec at 1. rewrite process_packet_internal_invalid by exact Hv.
    unfold exec, set_processing_queue, core. cbn [fst snd].
    cbn [config_ running_ processing_queue_ sensor_history_ edge_analytics_enabled_
         mqtt_callback_ websocket_callback_ alert_callback_].
    rewrite Hrun. reflexivity.
Qed.

Lemma get_sensor_statistics_exec st id : exec (get_sensor_statistics id) st = st.
Proof.
  unfold get_sensor_statistics, exec, bind, get. cbn [fst snd].
  destruct (sensor_stats_ st !! id); reflexivity.
Qed.

Lemma processor_run_call_config st c : config_ (run_call clk st c) = config_ st.
Proof.
  destruct c; cbn [run_call]; rewrite ?get_sensor_statistics_exec; try reflexivity.
  - cbn [run_call]. unfold process_packet, exec, bind, get. cbn [fst snd].
    destruct (negb (running_ st)); [reflexivity|].
    destruct (_ <=? _)%N; reflexivity.
  - cbn [run_call]. pose proof (worker_step_core st) as Hc.
    destruct (dequeued st WorkerStep); unfold core in Hc; congruence.
Qed.

Lemma processor_run_call_history st c id :
  history_of (run_call clk st c) id
  = history_after (config_ st) (dequeued st c) id (history_of st id).
Proof.
  destruct c; cbn [run_call]; rewrite ?get_sensor_statistics_exec; try reflexivity.
  - cbn [run_call dequeued history_after]. unfold process_packet, exec, bind, get.
    cbn [fst snd]. destruct (negb (running_ st)); [reflexivity|].
    destruct (_ <=? _)%N; reflexivity.
  - cbn [run_call]. pose proof (worker_step_core st) as Hc.
    unfold history_of at 1.
    destruct (dequeued st WorkerStep) as [p|]; unfold core in Hc.
    + injection Hc as _ _ _ -> _ _ _ _. cbn [history_after].
      destruct (SensorDataPacket.is_valid p) eqn:Hv.
      * destruct (decide (SensorDataPacket.sensor_id p = id)) as [<-|Hne].
        -- rewrite lookup_insert_eq, decide_True by done. reflexivity.
        -- rewrite lookup_insert_ne, decide_False by tauto. reflexivity.
      * rewrite decide_False; [reflexivity|]. intros [? _]. discriminate.
    + injection Hc as _ _ _ -> _ _ _ _. reflexivity.
Qed.

Lemma processor_run_call_queue_bounded (config : RPi4GatewayConfig.t F) st c :
  queue_bounded config st -> queue_bounded config (run_call clk st c).
Proof.
  intros [Hc Hq]. split; [rewrite processor_run_call_config; exact Hc|].
  destruct c; cbn [run_call]; rewrite ?get_sensor_statistics_exec; try exact Hq.
  - cbn [run_call]. unfold process_packet, exec, bind, get. cbn [fst snd].
    destruct (negb (running_ st)); [exact Hq|].
    destruct (N.leb_spec (to_size_t (RPi4GatewayConfig.max_queue_size (config_ st)))
                (size (processing_queue_ st))) as [Hfull|Hroom]; [exact Hq|].
    unfold set_processing_queue. cbn [snd processing_queue_].
    unfold size in *. rewrite length_app. cbn [length]. rewrite <- Hc. lia.
  - cbn [run_call]. pose proof (worker_step_core st) as Hcore.
    destruct (dequeued st WorkerStep) as [p|]; unfold core in Hcore.
    + injection Hcore as _ _ -> _ _ _ _ _.
      unfold size in *. destruct (processing_queue_ st); cbn [tail length] in *; lia.
    + injection Hcore as _ _ -> _ _ _ _ _. exact Hq.
Qed.

Lemma processor_run_snoc st calls c :
  run clk st (calls ++ [c]) = run_call clk (run clk st calls) c.
Proof. unfold run. rewrite fold_left_app. reflexivity. Qed.

Lemma processor_run_config calls : forall st, config_ (run clk st calls) = config_ st.
Proof.
  induction calls as [|c calls IH]; intros st; [reflexivity|].
  change (config_ (run clk (run_call clk st c) calls) = config_ st).
  rewrite IH. apply processor_run_call_config.
Qed.

Lemma processor_run_queue_bounded (config : RPi4GatewayConfig.t F) calls : forall st,
  queue_bounded config st -> queue_bounded config (run clk st calls).
Proof.
  induction calls as [|c calls IH]; intros st Hst; [exact Hst|].
  change (queue_bounded config (run clk (run_call clk st c) calls)).
  apply IH, processor_run_call_queue_bounded, Hst.
Qed.

Lemma processed_snoc calls : forall st c,
  processed clk st (calls ++ [c])
  = processed clk st calls ++ option_list (dequeued (run clk st calls) c).
Proof.
  induction calls as [|c0 calls IH]; intros st c.
  - cbn. rewrite !app_nil_r. reflexivity.
  - cbn [app processed]. rewrite IH. rewrite <- app_assoc. reflexivity.
Qed.

Lemma stored_for_snoc id (packets : list (SensorDataPacket.t F)) p :
  stored_for id (packets ++ option_list p)
  = stored_for id packets
    ++ match p with
       | Some p =>
           if decide (SensorDataPacket.is_valid p = true
                      /\ SensorDataPacket.sensor_id p = id)
           then [p] else []
       | None => []
       end.
Proof.
  unfold stored_for. rewrite filter_app. f_equal.
  destruct p as [p|]; [|reflexivity]. change (option_list (Some p)) with [p].
  destruct (decide _) as [Hp|Hp].
  - rewrite filter_cons_True by exact Hp. reflexivity.
  - rewrite filter_cons_False by exact Hp. reflexivity.
Qed.

Lemma processor_history (config : RPi4GatewayConfig.t F) calls id :
  history_of (run clk (create config) calls) id
  = last_n (to_size_t (RPi4GatewayConfig.max_sensor_history config))
           (stored_for id (processed clk (create config) calls)).
Proof.
  induction calls as [|c calls IH] using rev_ind.
  - unfold history_of. cbn. rewrite lookup_empty. reflexivity.
  - rewrite processor_run_snoc, processor_run_call_history, processed_snoc, stored_for_snoc.
    rewrite processor_run_config. cbn [create config_]. rewrite IH.
    unfold history_after.
    destruct (dequeued _ c) as [p|]; [|rewrite app_nil_r; reflexivity].
    destruct (decide _); [|rewrite app_nil_r; reflexivity].
    apply push_bounded_last_n.
Qed.

(** *** Aggregation *)

Abbreviation valid_of packets :=
  (filter (fun p : SensorDataPacket.t F => SensorDataPacket.is_valid p = true) packets).

Lemma aggregate_fold (packets : list (SensorDataPacket.t F)) :
  forall sum_temp sum_hum sum_press lo hi n,
  fold_left aggregate_step packets (sum_temp, sum_hum, sum_press, lo, hi, n)
  = (accumulate (SensorDataPacket.temperature_celsius <$> valid_of packets) sum_temp,
     accumulate (SensorDataPacket.humidity_percent <$> valid_of packets) sum_hum,
     accumulate (SensorDataPacket.pressure_hpa <$> valid_of packets) sum_press,
     fold_left fmin (SensorDataPacket.temperature_celsius <$> valid_of packets) lo,
     fold_left fmax (SensorDataPacket.temperature_celsius <$> valid_of packets) hi,
     n + Z.of_nat (length (valid_of packets))).
Proof.
  induction packets as [|p packets IH]; intros sum_temp sum_hum sum_press lo hi n.
  - cbn. rewrite Z.add_0_r. reflexivity.
  - cbn [fold_left]. unfold aggregate_step at 2.
    destruct (SensorDataPacket.is_valid p) eqn:Hv.
    + rewrite IH. rewrite filter_cons_True by exact Hv.
      cbn [fmap list_fmap length accumulate fold_left].
      unfold accumulate. cbn [fold_left].
      f_equal. lia.
    + rewrite IH. rewrite filter_cons_False by (rewrite Hv; discriminate).
      reflexivity.
Qed.

Lemma format_aggregated_data_exec st first rest :
  format_aggregated_data clk (first :: rest) st
  = match valid_of (first :: rest) with
    | [] => (EmptyObject, st)
    | _ :: _ =>
        (AggregatedData (window_record (config_ st) first rest (clk (clock_reads_ st))),
         exec (now clk) st)
    end.
Proof.
  unfold format_aggregated_data. rewrite aggregate_fold.
  unfold window_record.
  destruct (valid_of (first :: rest)) as [|v valid] eqn:Hvalid.
  - reflexivity.
  - cbn [length]. rewrite Z.add_0_l.
    destruct (Z.eqb_spec (Z.of_nat (S (length valid))) 0) as [Hz|Hz]; [lia|].
    reflexivity.
Qed.

Lemma filter_all {A : Type} (P : A -> Prop) `{forall x, Decision (P x)} (l : list A) :
  Forall P l -> filter P l = l.
Proof.
  induction 1 as [|x l Hx _ IH]; [reflexivity|].
  rewrite filter_cons_True by exact Hx. rewrite IH. reflexivity.
Qed.

Lemma in_window_valid (config : RPi4GatewayConfig.t F) t history :
  Forall (fun p => SensorDataPacket.is_valid p = true) history ->
  Forall (fun p => SensorDataPacket.is_valid p = true) (in_window config t history).
Proof.
  intros Hall. unfold in_window. apply Forall_forall. intros p Hp.
  apply list_elem_of_filter in Hp as [_ Hp].
  rewrite Forall_forall in Hall. apply Hall, Hp.
Qed.

(** One iteration of the aggregation loop, on a history of valid packets. *)
Lemma aggregate_sensor_exec st id history :
  Forall (fun p => SensorDataPacket.is_valid p = true) history ->
  let st' := exec (aggregate_sensor clk (id, history)) st in
  core st' = core st
  /\ match in_window (config_ st) (clk (clock_reads_ st)) history with
     | [] =>
         mqtt_sent_ st' = mqtt_sent_ st /\ websocket_sent_ st' = websocket_sent_ st
     | first :: rest =>
         let message :=
           AggregatedData
             (window_record (config_ st) first rest (clk (S (clock_reads_ st)))) in
         mqtt_sent_ st'
         = mqtt_sent_ st
           ++ (if mqtt_callback_ st then [(aggregated_topic (config_ st) id, message)]
               else [])
         /\ websocket_sent_ st'
            = websocket_sent_ st ++ (if websocket_callback_ st then [message] else [])
     end.
Proof.
  intros Hall. cbv zeta. split.
  { apply (core_aggregate_sensor (core st) (id, history) st). reflexivity. }
  unfold aggregate_sensor.
  destruct history as [|p0 history0] eqn:Hh.
  { cbn. split; reflexivity. }
  rewrite <- Hh in *. clear Hh p0 history0.
  unfold exec, bind, get, now. cbn [fst snd config_ clock_reads_].
  fold (in_window (config_ st) (clk (clock_reads_ st)) history).
  pose proof (in_window_valid (config_ st) (clk (clock_reads_ st)) history Hall) as Hw.
  destruct (in_window (config_ st) (clk (clock_reads_ st)) history)
    as [|first rest] eqn:Hwin.
  { cbn. split; reflexivity. }
  rewrite format_aggregated_data_exec.
  rewrite (filter_all _ _ Hw).
  unfold exec, now, mqtt_forward, websocket_forward, aggregated_topic.
  cbn [fst snd config_ clock_reads_ mqtt_callback_ websocket_callback_
       mqtt_sent_ websocket_sent_].
  destruct (mqtt_callback_ st), (websocket_callback_ st);
    rewrite ?app_nil_r; split; reflexivity.
Qed.

(** The whole pass: one iteration per sensor of the store, each handing at
    most one record to each sink. *)
Lemma aggregate_loop (l : list (string * list (SensorDataPacket.t F))) : forall st,
  Forall (fun entry => Forall (fun p => SensorDataPacket.is_valid p = true) entry.2) l ->
  let st' := exec (for_each l (aggregate_sensor clk)) st in
  core st' = core st
  /\ (clock_reads_ st <= clock_reads_ st')%nat
  /\ exists (mqtt : list (list (string * Message F))) (ws : list (list (Message F))),
       mqtt_sent_ st' = mqtt_sent_ st ++ concat mqtt
       /\ websocket_sent_ st' = websocket_sent_ st ++ concat ws
       /\ Forall3
            (fun entry out_mqtt out_ws =>
               exists r, (clock_reads_ st <= r)%nat
                 /\ out_mqtt
                    = window_output (config_ st) (mqtt_callback_ st) entry.2
                        (clk r) (clk (S r))
                        (fun m => (aggregated_topic (config_ st) entry.1, m))
                 /\ out_ws
                    = window_output (config_ st) (websocket_callback_ st) entry.2
                        (clk r) (clk (S r)) (fun m => m))
            l mqtt ws.
Proof.
  induction l as [|[id history] l IH]; intros st Hall; cbv zeta.
  - split; [reflexivity|]. split; [cbn; lia|].
    exists [], []. cbn. rewrite !app_nil_r. repeat split. constructor.
  - apply Forall_cons in Hall as [Hh Hl]. cbn [snd] in Hh.
    rewrite exec_for_each_cons.
    set (s1 := exec (aggregate_sensor clk (id, history)) st).
    destruct (aggregate_sensor_exec st id history Hh) as [Hcore Hout].
    fold s1 in Hcore, Hout.
    assert (Hreads : (clock_reads_ st <= clock_reads_ s1)%nat).
    { unfold s1, aggregate_sensor. destruct history as [|p0 h0]; [cbn; lia|].
      unfold exec, bind, get, now. cbn [fst snd config_ clock_reads_].
      destruct (filter _ _) as [|first rest]; [cbn; lia|].
      rewrite format_aggregated_data_exec.
      destruct (valid_of (first :: rest)); cbn; lia. }
    destruct (IH s1 Hl) as (Hcore' & Hreads' & mqtt & ws & Hm & Hw & Hall3).
    split; [congruence|]. split; [lia|].
    assert (Hcfg : config_ s1 = config_ st) by (unfold core in Hcore; congruence).
    assert (Hmc : mqtt_callback_ s1 = mqtt_callback_ st)
      by (unfold core in Hcore; congruence).
    assert (Hwc : websocket_callback_ s1 = websocket_callback_ st)
      by (unfold core in Hcore; congruence).
    rewrite Hcfg, Hmc, Hwc in Hall3.
    exists (window_output (config_ st) (mqtt_callback_ st) history
              (clk (clock_reads_ st)) (clk (S (clock_reads_ st)))
              (fun m => (aggregated_topic (config_ st) id, m)) :: mqtt),
           (window_output (config_ st) (websocket_callback_ st) history
              (clk (clock_reads_ st)) (clk (S (clock_reads_ st))) (fun m => m) :: ws).
    cbn [concat]. rewrite Hm, Hw. rewrite !app_assoc.
    assert (Hfirst :
      mqtt_sent_ s1
      = mqtt_sent_ st
        ++ window_output (config_ st) (mqtt_callback_ st) history
             (clk (clock_reads_ st)) (clk (S (clock_reads_ st)))
             (fun m => (aggregated_topic (config_ st) id, m))
      /\ websocket_sent_ s1
         = websocket_sent_ st
           ++ window_output (config_ st) (websocket_callback_ st) history
                (clk (clock_reads_ st)) (clk (S (clock_reads_ st))) (fun m => m)).
    { unfold window_output.
      destruct (in_window (config_ st) (clk (clock_reads_ st)) history)
        as [|first rest].
      - rewrite !app_nil_r. exact Hout.
      - cbv zeta in Hout. destruct Hout as [-> ->].
        destruct (mqtt_callback_ st), (websocket_callback_ st); split; reflexivity. }
    destruct Hfirst as [-> ->].
    split; [reflexivity|]. split; [reflexivity|].
    constructor.
    + exists (clock_reads_ st). cbn [fst snd]. repeat split. lia.
    + eapply Forall3_impl; [exact Hall3|].
      intros entry om ow (r & Hr & Hom & How). exists r. repeat split; [lia|exact Hom|exact How].
Qed.

(** *** Trend analysis *)

Lemma trend_analysis_short packet history t :
  (size history < 5)%N -> trend_analysis packet history t = None.
Proof.
  intros Hlt. unfold trend_analysis. apply N.ltb_lt in Hlt. rewrite Hlt. reflexivity.
Qed.

Lemma trend_analysis_long packet history t :
  (5 <= size history)%N ->
  exists result,
    trend_analysis packet history t = Some result
    /\ EdgeProcessingResult.metrics result !! "temperature_trend_slope"
       = Some (fst (linear_regression (SensorDataPacket.temperature_celsius <$> history)))
    /\ EdgeProcessingResult.metrics result !! "temperature_trend_intercept"
       = Some (snd (linear_regression (SensorDataPacket.temperature_celsius <$> history))).
Proof.
  intros Hge. unfold trend_analysis.
  destruct (N.ltb_spec (size history) 5) as [Hlt|_]; [lia|].
  destruct (linear_regression _) as [slope intercept].
  eexists. split; [reflexivity|]. cbn [EdgeProcessingResult.metrics fst snd].
  split; reflexivity.
Qed.

Lemma perform_edge_analytics_short st packet :
  (size (history_of st (SensorDataPacket.sensor_id packet)) < 5)%N ->
  perform_edge_analytics clk packet st = (tt, st).
Proof.
  intros Hlt. unfold perform_edge_analytics, bind, get. unfold history_of in Hlt.
  apply N.ltb_lt in Hlt. rewrite Hlt. reflexivity.
Qed.

Lemma perform_edge_analytics_long st packet :
  let history := history_of st (SensorDataPacket.sensor_id packet) in
  (5 <= size history)%N ->
  exists result,
    trend_analysis packet history (clk (clock_reads_ st)) = Some result
    /\ edge_results_ (exec (perform_edge_analytics clk packet) st)
       = push_bounded 100 result (edge_results_ st).
Proof.
  cbv zeta. intros Hge.
  destruct (trend_analysis_long packet _ (clk (clock_reads_ st)) Hge) as (result & Hr & _).
  exists result. split; [exact Hr|].
  unfold perform_edge_analytics, exec, bind, get, now. unfold history_of in Hge, Hr.
  destruct (N.ltb_spec (size (default [] (sensor_history_ st
                                   !! SensorDataPacket.sensor_id packet))) 5)
    as [Hlt|_]; [lia|].
  cbn [fst snd config_ sensor_history_ clock_reads_]. rewrite Hr. reflexivity.
Qed.

(** *** Submission to the bounded queue *)

Lemma process_packet_full (st : state F) packet :
  (to_size_t (RPi4GatewayConfig.max_queue_size (config_ st))
     <= size (processing_queue_ st))%N ->
  process_packet packet st = (tt, st).
Proof.
  intros Hfull. unfold process_packet, bind, get.
  destruct (negb (running_ st)); [reflexivity|].
  apply N.leb_le in Hfull. rewrite Hfull. reflexivity.
Qed.

Lemma process_packet_room (st : state F) packet :
  running_ st = true ->
  (size (processing_queue_ st)
     < to_size_t (RPi4GatewayConfig.max_queue_size (config_ st)))%N ->
  processing_queue_ (exec (process_packet packet) st) = processing_queue_ st ++ [packet].
Proof.
  intros Hrun Hroom. unfold process_packet, exec, bind, get. rewrite Hrun. cbn [negb].
  destruct (N.leb_spec (to_size_t (RPi4GatewayConfig.max_queue_size (config_ st)))
              (size (processing_queue_ st))) as [Hfull|_]; [lia|].
  reflexivity.
Qed.

Lemma processor_run_history_valid (config : RPi4GatewayConfig.t F) calls :
  history_valid (run clk (create config) calls).
Proof.
  intros id h Hh.
  pose proof (processor_history config calls id) as Hfifo.
  unfold history_of in Hfifo. rewrite Hh in Hfifo. cbn in Hfifo. subst h.
  apply Forall_forall. intros p Hp. unfold last_n in Hp.
  apply subseteq_drop in Hp.
  unfold stored_for in Hp. apply list_elem_of_filter in Hp as [[Hv _] _]. exact Hv.
Qed.

End ProcessorProofs.

(** ** Regression in exact arithmetic *)

Section ExactRegression.
Import DataProcessor ProcessorSpec.
Local Open Scope Q_scope.

Ltac qhalf := unfold Qdiv in *; change (/ 2) with (1 # 2) in *.

Lemma nQ_S k : nQ (S k) == nQ k + 1.
Proof. unfold nQ. rewrite Nat2Z.inj_succ, <- Z.add_1_r, inject_Z_plus. reflexivity. Qed.

Lemma nQ_nonneg k : 0 <= nQ k.
Proof. unfold nQ. change 0 with (inject_Z 0). rewrite <- Zle_Qle. lia. Qed.

Lemma nQ_add i k : nQ (i + k) == nQ i + nQ k.
Proof. unfold nQ. rewrite Nat2Z.inj_add, inject_Z_plus. reflexivity. Qed.

Lemma regression_sums_snoc (l : list Q) : forall i acc y,
  regression_sums i (l ++ [y]) acc
  = (fst (regression_sums i l acc) + nQ (i + length l) * y,
     snd (regression_sums i l acc) + nQ (i + length l) * nQ (i + length l)).
Proof.
  induction l as [|z l IH]; intros i acc y.
  - cbn [app regression_sums length fst snd]. rewrite Nat.add_0_r. reflexivity.
  - cbn [app regression_sums length]. rewrite IH.
    replace (S i + length l)%nat with (i + S (length l))%nat by lia. reflexivity.
Qed.

Lemma Sy_snoc l y : Sy (l ++ [y]) = Sy l + y.
Proof. unfold Sy, accumulate. rewrite fold_left_app. reflexivity. Qed.

Lemma Sxy_snoc l y : Sxy (l ++ [y]) = Sxy l + nQ (length l) * y.
Proof. unfold Sxy. rewrite regression_sums_snoc. reflexivity. Qed.

Lemma Sx2_snoc l y : Sx2 (l ++ [y]) = Sx2 l + nQ (length l) * nQ (length l).
Proof. unfold Sx2. rewrite regression_sums_snoc. reflexivity. Qed.

Lemma linear_regression_slope (l : list Q) :
  fst (linear_regression l) = slope_num l / slope_den l.
Proof.
  unfold linear_regression, slope_num, slope_den, Sxy, Sx2, Sy, nQ, size.
  cbn [fst]. rewrite nat_N_Z. reflexivity.
Qed.

Lemma Sy_bound (l : list Q) y :
  Forall (fun x => x < y) l -> Sy l <= nQ (length l) * y.
Proof.
  induction l as [|z l IH] using rev_ind; intros Hall.
  - change (Sy []) with 0. change (nQ (length (@nil Q))) with 0. lra.
  - apply Forall_app in Hall as [Hl Hz]. apply Forall_inv in Hz.
    rewrite Sy_snoc, length_app. cbn [length]. rewrite nQ_add.
    specialize (IH Hl). change (nQ 1) with 1. lra.
Qed.

Lemma W_snoc l z : W (l ++ [z]) == W l + Sy l + z.
Proof.
  unfold W. rewrite Sy_snoc, Sxy_snoc, length_app. cbn [length].
  rewrite nQ_add. change (nQ 1) with 1. ring.
Qed.

Lemma W_bound (l : list Q) y :
  Forall (fun x => x < y) l ->
  W l <= (nQ (length l) * (nQ (length l) + 1) / 2) * y
  /\ (l <> [] -> W l < (nQ (length l) * (nQ (length l) + 1) / 2) * y).
Proof.
  induction l as [|z l IH] using rev_ind; intros Hall.
  - split; [|congruence]. unfold W. change (Sy []) with 0. change (Sxy []) with 0.
    change (nQ (length (@nil Q))) with 0. qhalf. lra.
  - apply Forall_app in Hall as [Hl Hz]. apply Forall_inv in Hz.
    destruct (IH Hl) as [IHle _].
    pose proof (Sy_bound l y Hl) as HSy.
    assert (Hlt : W (l ++ [z])
                  < (nQ (length (l ++ [z])) * (nQ (length (l ++ [z])) + 1) / 2) * y).
    { rewrite W_snoc, length_app. cbn [length]. rewrite nQ_add. change (nQ 1) with 1.
      set (n := nQ (length l)) in *. qhalf.
      assert (Hstep : W l + Sy l + z < n * (n + 1) * (1 # 2) * y + n * y + y) by lra.
      eapply Qlt_le_trans; [exact Hstep|].
      apply Qle_lteq. right. ring. }
    split; [apply Qlt_le_weak, Hlt|intros _; exact Hlt].
Qed.

Lemma slope_num_snoc l y :
  slope_num (l ++ [y])
  == slope_num l + (nQ (length l) * (nQ (length l) + 1) / 2) * y - W l.
Proof.
  unfold slope_num, W. cbv zeta.
  rewrite Sy_snoc, Sxy_snoc, length_app. cbn [length].
  rewrite nQ_add. change (nQ 1) with 1. qhalf. ring.
Qed.
Lemma strictly_increasing_snoc (l : list Q) y :
  strictly_increasing (l ++ [y]) ->
  strictly_increasing l /\ Forall (fun x => x < y) l.
Proof.
  induction l as [|x l IH]; intros Hinc.
  - split; [exact I|constructor].
  - destruct l as [|z l'].
    + cbn in Hinc. destruct Hinc as [Hxy _]. split; [exact I|]. repeat constructor. exact Hxy.
    + cbn [app strictly_increasing] in Hinc. destruct Hinc as [Hxz Hrest].
      destruct (IH Hrest) as [Hl Hall]. split.
      * cbn [strictly_increasing]. split; assumption.
      * constructor; [|exact Hall]. apply Forall_inv in Hall. lra.
Qed.

Lemma slope_num_increasing (l : list Q) :
  strictly_increasing l ->
  0 <= slope_num l /\ ((2 <= length l)%nat -> 0 < slope_num l).
Proof.
  induction l as [|y l IH] using rev_ind; intros Hinc.
  - split; [|cbn; lia]. unfold slope_num. cbv zeta.
    change (Sy []) with 0. change (Sxy []) with 0.
    change (nQ (length (@nil Q))) with 0. qhalf. lra.
  - apply strictly_increasing_snoc in Hinc as [Hl Hall].
    destruct (IH Hl) as [IHle _].
    destruct (W_bound l y Hall) as [HWle HWlt].
    pose proof (slope_num_snoc l y) as Hstep.
    split.
    + lra.
    + rewrite length_app. cbn [length]. intros Hlen.
      assert (Hne : l <> []) by (destruct l; cbn in Hlen; [lia|discriminate]).
      specialize (HWlt Hne). lra.
Qed.

Lemma Sx2_closed (l : list Q) :
  Sx2 l == (nQ (length l) - 1) * nQ (length l) * (2 * nQ (length l) - 1) * (1 # 6).
Proof.
  induction l as [|y l IH] using rev_ind.
  - change (Sx2 []) with 0. change (nQ (length (@nil Q))) with 0. ring.
  - rewrite Sx2_snoc, length_app. cbn [length]. rewrite nQ_add, IH.
    change (nQ 1) with 1. ring.
Qed.

Lemma slope_den_closed (l : list Q) :
  slope_den l
  == nQ (length l) * nQ (length l) * (nQ (length l) - 1) * (nQ (length l) + 1) * (1 # 12).
Proof.
  unfold slope_den. cbv zeta. rewrite Sx2_closed. qhalf. ring.
Qed.

Lemma nQ_ge_2 k : (2 <= k)%nat -> 2 <= nQ k.
Proof.
  intros Hk. unfold nQ. change 2 with (inject_Z 2). rewrite <- Zle_Qle. lia.
Qed.

Lemma slope_den_pos (l : list Q) : (2 <= length l)%nat -> 0 < slope_den l.
Proof.
  intros Hlen. rewrite slope_den_closed.
  pose proof (nQ_ge_2 _ Hlen) as Hn. set (n := nQ (length l)) in *.
  assert (H1 : 0 < n * n) by nra.
  assert (H2 : 0 < (n - 1) * (n + 1)) by nra.
  assert (H3 : 0 < (n * n) * ((n - 1) * (n + 1))) by (apply Qmult_lt_0_compat; assumption).
  assert (Heq : n * n * (n - 1) * (n + 1) * (1 # 12)
                == (1 # 12) * ((n * n) * ((n - 1) * (n + 1)))) by ring.
  rewrite Heq. apply Qmult_lt_0_compat; [reflexivity|exact H3].
Qed.

Lemma slope_increasing (l : list Q) :
  (2 <= length l)%nat -> strictly_increasing l -> 0 < fst (linear_regression l).
Proof.
  intros Hlen Hinc. rewrite linear_regression_slope.
  apply Qlt_shift_div_l; [apply slope_den_pos, Hlen|].
  rewrite Qmult_0_l. apply slope_num_increasing; assumption.
Qed.

(** The mirror image: negating the series negates the numerator. *)
Lemma Sy_opp (l : list Q) : Sy (Qopp <$> l) == - Sy l.
Proof.
  induction l as [|y l IH] using rev_ind.
  - reflexivity.
  - rewrite fmap_app. cbn [fmap list_fmap]. rewrite !Sy_snoc, IH. ring.
Qed.

Lemma Sxy_opp (l : list Q) : Sxy (Qopp <$> l) == - Sxy l.
Proof.
  induction l as [|y l IH] using rev_ind.
  - reflexivity.
  - rewrite fmap_app. cbn [fmap list_fmap]. rewrite !Sxy_snoc, IH, length_fmap. ring.
Qed.

Lemma Sx2_opp (l : list Q) : Sx2 (Qopp <$> l) == Sx2 l.
Proof. rewrite !Sx2_closed, length_fmap. reflexivity. Qed.

Lemma slope_num_opp (l : list Q) : slope_num (Qopp <$> l) == - slope_num l.
Proof.
  unfold slope_num. cbv zeta. rewrite Sy_opp, Sxy_opp, length_fmap. qhalf. ring.
Qed.

Lemma strictly_decreasing_opp (l : list Q) :
  strictly_decreasing l -> strictly_increasing (Qopp <$> l).
Proof.
  induction l as [|x l IH]; intros Hdec; [exact I|].
  destruct l as [|y l']; [exact I|].
  cbn [strictly_decreasing] in Hdec. destruct Hdec as [Hyx Hrest].
  cbn [fmap list_fmap strictly_increasing]. split; [lra|].
  apply IH, Hrest.
Qed.

Lemma slope_decreasing (l : list Q) :
  (2 <= length l)%nat -> strictly_decreasing l -> fst (linear_regression l) < 0.
Proof.
  intros Hlen Hdec. rewrite linear_regression_slope.
  apply Qlt_shift_div_r; [apply slope_den_pos, Hlen|].
  rewrite Qmult_0_l.
  destruct (slope_num_increasing (Qopp <$> l) (strictly_decreasing_opp l Hdec))
    as [_ Hpos].
  rewrite length_fmap in Hpos. specialize (Hpos Hlen).
  rewrite slope_num_opp in Hpos. lra.
Qed.

(** *** The slope is the least-squares slope *)

Lemma foldr_Qplus_snoc (a : list Q) b : foldr Qplus 0 (a ++ [b]) == foldr Qplus 0 a + b.
Proof.
  induction a as [|x a IH]; cbn [app foldr].
  - ring.
  - rewrite IH. ring.
Qed.

Lemma sum_over_snoc f (l : list Q) y :
  sum_over f (l ++ [y]) == sum_over f l + f (length l) y.
Proof.
  unfold sum_over. rewrite imap_app. cbn [imap]. rewrite foldr_Qplus_snoc.
  rewrite Nat.add_0_r. reflexivity.
Qed.

Lemma Sy_sum_over (l : list Q) : Sy l == sum_over (fun _ y => y) l.
Proof.
  induction l as [|y l IH] using rev_ind; [reflexivity|].
  rewrite Sy_snoc, sum_over_snoc, IH. reflexivity.
Qed.

Lemma Sxy_sum_over (l : list Q) : Sxy l == sum_over (fun i y => nQ i * y) l.
Proof.
  induction l as [|y l IH] using rev_ind; [reflexivity|].
  rewrite Sxy_snoc, sum_over_snoc, IH. reflexivity.
Qed.

Lemma Sx2_sum_over (l : list Q) : Sx2 l == sum_over (fun i _ => nQ i * nQ i) l.
Proof.
  induction l as [|y l IH] using rev_ind; [reflexivity|].
  rewrite Sx2_snoc, sum_over_snoc, IH. reflexivity.
Qed.

Lemma Sx_sum_over (l : list Q) :
  nQ (length l) * (nQ (length l) - 1) / 2 == sum_over (fun i _ => nQ i) l.
Proof.
  induction l as [|y l IH] using rev_ind.
  - change (nQ (length (@nil Q))) with 0. reflexivity.
  - rewrite sum_over_snoc, <- IH, length_app. cbn [length].
    rewrite nQ_add. change (nQ 1) with 1. qhalf. ring.
Qed.

Lemma linear_regression_ols (l : list Q) : fst (linear_regression l) == ols_slope l.
Proof.
  rewrite linear_regression_slope. unfold slope_num, slope_den, ols_slope. cbv zeta.
  rewrite <- Sy_sum_over, <- Sxy_sum_over, <- Sx2_sum_over, <- Sx_sum_over.
  reflexivity.
Qed.

End ExactRegression.

(** * Specified behaviour *)

(** ** C1: readings whose validity flag is false *)

(** C1 (as amended).  A reading whose validity flag is false is ignored by
    [process_packet_internal]: the whole state of the processor is left as
    it is, so the sensor's statistics (counters, [last_update], temperature
    and humidity values) and its history are unchanged and no alert is
    raised from that sample. *)
Theorem invalid_packet_ignored {F : Type} `{FloatOps F} (clk : nat -> Z)
    (st : DataProcessor.state F) (packet : SensorDataPacket.t F) :
  SensorDataPacket.is_valid packet = false ->
  let st' := exec (DataProcessor.process_packet_internal clk packet) st in
  st' = st
  /\ DataProcessor.sensor_stats_ st' = DataProcessor.sensor_stats_ st
  /\ DataProcessor.sensor_history_ st' = DataProcessor.sensor_history_ st
  /\ DataProcessor.alerts_raised_ st' = DataProcessor.alerts_raised_ st.
Proof.
  intros Hv. cbv zeta. unfold exec.
  rewrite (process_packet_internal_invalid clk st packet Hv). cbn [snd].
  repeat split.
Qed.

(** An invalid packet for a sensor that already has statistics. *)
Lemma invalid_packet_ignored_witness :
  let st' := exec (DataProcessor.process_packet_internal Scenario.still_clock
                     (Scenario.packet 22 2000 false)) Scenario.after_valid_packet in
  st' = Scenario.after_valid_packet
  /\ DataProcessor.sensor_stats_ st'
     = DataProcessor.sensor_stats_ Scenario.after_valid_packet
  /\ DataProcessor.sensor_history_ st'
     = DataProcessor.sensor_history_ Scenario.after_valid_packet
  /\ DataProcessor.alerts_raised_ st'
     = DataProcessor.alerts_raised_ Scenario.after_valid_packet.
Proof.
  apply (invalid_packet_ignored Scenario.still_clock Scenario.after_valid_packet
           (Scenario.packet 22 2000 false)).
  reflexivity.
Defined.

(** C1 as stated fails: after a valid packet stamped 1000, an invalid
    packet stamped 2000 for the same sensor leaves the error counter at 0
    and [last_update] at 1000. *)
Lemma invalid_packet_not_counted :
  let st' := exec (DataProcessor.process_packet_internal Scenario.still_clock
                     (Scenario.packet 22 2000 false)) Scenario.after_valid_packet in
  SensorStatistics.error_packets <$> DataProcessor.sensor_stats_ st' !! "s1" = Some 0
  /\ SensorStatistics.last_update <$> DataProcessor.sensor_stats_ st' !! "s1" = Some 1000
  /\ SensorDataPacket.timestamp (Scenario.packet 22 2000 false) = 2000.
Proof. vm_compute. repeat split. Qed.

(** ** C2: the alert throttle *)

(** C2.  With a monotonic clock: [generate_alert] emits an alert for a
    (sensor, kind) exactly when the throttle rule passes at the time of the
    check, that is when no last-fired entry exists or the cooldown has
    elapsed; the emitted alert is stamped no earlier than the check and its
    time becomes the last-fired entry; otherwise nothing is emitted, stored
    or recorded.  On every tracker reached from a new one the rule reads:
    no entry, or at least [alert_throttle_minutes] minutes since the
    recorded last fire.  Hence, in every run, two alerts of the same
    (sensor, kind) are at least the cooldown apart. *)
Theorem alert_throttle_cooldown {F : Type} `{FloatOps F} (clk : nat -> Z)
    (fmt : ThermalConfig.t F -> Alert.t F -> string) :
  (forall i j, (i <= j)%nat -> clk i <= clk j) ->
  (forall st id kind sensor,
     let t := clk (ThermalIsolationTracker.clock_reads_ st) in
     let st' := exec (ThermalIsolationTracker.generate_alert clk fmt id kind sensor) st in
     if TrackerSpec.passes_throttle st id kind t
     then exists alert,
            ThermalIsolationTracker.emitted_ st'
            = ThermalIsolationTracker.emitted_ st ++ [alert]
            /\ Alert.sensor_id alert = id /\ Alert.alert_type alert = kind
            /\ t <= Alert.timestamp alert
            /\ TrackerSpec.last_fired st' id kind = Some (Alert.timestamp alert)
     else ThermalIsolationTracker.emitted_ st' = ThermalIsolationTracker.emitted_ st
          /\ ThermalIsolationTracker.recent_alerts_ st'
             = ThermalIsolationTracker.recent_alerts_ st
          /\ ThermalIsolationTracker.alert_throttle_ st'
             = ThermalIsolationTracker.alert_throttle_ st)
  /\ (forall config calls id kind,
        let st := TrackerSpec.run clk fmt (ThermalIsolationTracker.create config) calls in
        let t := clk (ThermalIsolationTracker.clock_reads_ st) in
        TrackerSpec.passes_throttle st id kind t = true
        <-> (TrackerSpec.last_fired st id kind = None
             \/ exists fired,
                  TrackerSpec.last_fired st id kind = Some fired
                  /\ ThermalConfig.alert_throttle_minutes config * ns_per_minute
                     <= t - fired))
  /\ (forall config calls,
        TrackerSpec.spaced (ThermalConfig.alert_throttle_minutes config)
          (ThermalIsolationTracker.emitted_
             (TrackerSpec.run clk fmt (ThermalIsolationTracker.create config) calls))).
Proof.
  intros Hmono. split; [|split].
  - intros st id kind sensor. cbv zeta. unfold TrackerSpec.passes_throttle.
    destruct (TrackerSpec.last_fired st id kind) as [fired|] eqn:Hlast.
    + rewrite (generate_alert_again clk fmt st id kind sensor fired Hlast).
      destruct (_ <=? _).
      * eexists. split; [reflexivity|]. split; [reflexivity|]. split; [reflexivity|].
        split; [apply Hmono; lia|].
        cbv zeta. rewrite (last_fired_update clk fmt).
        rewrite decide_True by done. reflexivity.
      * repeat split.
    + rewrite (generate_alert_first clk fmt st id kind sensor Hlast).
      eexists. split; [reflexivity|]. split; [reflexivity|]. split; [reflexivity|].
      split; [cbn; lia|].
      cbv zeta. rewrite (last_fired_update clk fmt).
      rewrite decide_True by done. reflexivity.
  - intros config calls id kind.
    apply (passes_throttle_elapsed clk config).
    apply (throttle_inv_run clk fmt Hmono config calls), throttle_inv_create.
  - intros config calls.
    apply (throttle_inv_run clk fmt Hmono config calls), throttle_inv_create.
Qed.

Lemma ticking_mono (step : Z) :
  0 <= step -> forall i j, (i <= j)%nat -> Scenario.ticking step i <= Scenario.ticking step j.
Proof. intros Hstep i j Hij. unfold Scenario.ticking. nia. Qed.

(** Three readings above [temp_max], with a clock that ticks every 100
    seconds: the alerts of the run are five minutes apart. *)
Lemma alert_throttle_cooldown_witness :
  TrackerSpec.spaced 5
    (ThermalIsolationTracker.emitted_
       (TrackerSpec.run (Scenario.ticking (100 * ns_per_second)) Scenario.no_text
          Scenario.tracker Scenario.hot_readings)).
Proof.
  apply (proj2 (proj2 (alert_throttle_cooldown (Scenario.ticking (100 * ns_per_second))
                  Scenario.no_text
                  (ticking_mono (100 * ns_per_second) ltac:(vm_compute; discriminate))))
               ThermalConfig.default Scenario.hot_readings).
Defined.

(** Six such readings with a clock that ticks every 50 seconds raise three
    alerts, stamped 101 s, 451 s and 801 s: the reading after each alert
    falls inside the cooldown and is suppressed. *)
Example hot_readings_alerts :
  Alert.timestamp
    <$> ThermalIsolationTracker.emitted_
          (TrackerSpec.run (Scenario.ticking (50 * ns_per_second)) Scenario.no_text
             Scenario.tracker
             (Scenario.hot_readings ++ Scenario.hot_readings))
  = [101 * ns_per_second; 451 * ns_per_second; 801 * ns_per_second].
Proof. vm_compute. reflexivity. Qed.

(** ** C3: bounded histories *)

(** C3.  After any sequence of calls on a new tracker, the temperature and
    the humidity history of every sensor hold the last [history_size]
    values submitted for it, in the order of submission, and so at most
    [history_size] entries.  After any sequence of calls on a new
    processor, the history of every sensor holds the last
    [max_sensor_history] valid packets of that sensor that the workers
    processed, in that order. *)
Theorem history_bounded_fifo :
  (forall (F : Type) (ops : FloatOps F) (clk : nat -> Z)
          (fmt : ThermalConfig.t F -> Alert.t F -> string)
          (config : ThermalConfig.t F) (calls : list (TrackerSpec.call (F := F)))
          (id : string),
     let st := TrackerSpec.run clk fmt (ThermalIsolationTracker.create config) calls in
     let cap := ThermalConfig.history_size config in
     TrackerSpec.temperature_history_of st id
     = last_n cap (TrackerSpec.submitted_temperatures id calls)
     /\ TrackerSpec.humidity_history_of st id
        = last_n cap (TrackerSpec.submitted_humidities id calls)
     /\ (size (TrackerSpec.temperature_history_of st id) <= cap)%N
     /\ (size (TrackerSpec.humidity_history_of st id) <= cap)%N)
  /\ (forall (F : Type) (ops : FloatOps F) (clk : nat -> Z)
             (config : RPi4GatewayConfig.t F) (calls : list (ProcessorSpec.call (F := F)))
             (id : string),
        let st := ProcessorSpec.run clk (DataProcessor.create config) calls in
        let cap := to_size_t (RPi4GatewayConfig.max_sensor_history config) in
        ProcessorSpec.history_of st id
        = last_n cap
            (ProcessorSpec.stored_for id
               (ProcessorSpec.processed clk (DataProcessor.create config) calls))
        /\ (size (ProcessorSpec.history_of st id) <= cap)%N).
Proof.
  split.
  - intros F ops clk fmt config calls id. cbv zeta.
    destruct (tracker_histories clk fmt config calls id) as [Ht Hh].
    rewrite Ht, Hh. repeat split; apply last_n_length.
  - intros F ops clk config calls id. cbv zeta.
    rewrite processor_history. split; [reflexivity|apply last_n_length].
Qed.

(** With room for two entries, the history after 20, 21, 22 is 21, 22. *)
Example history_of_three_readings :
  TrackerSpec.temperature_history_of
    (TrackerSpec.run (Scenario.ticking ns_per_second) Scenario.no_text
       (ThermalIsolationTracker.create Scenario.two_entries)
       [Scenario.reading 20; Scenario.reading 21; Scenario.reading 22]) "s1"
  = [f_of_Z 21; f_of_Z 22].
Proof. vm_compute. reflexivity. Qed.

(** ** C4: threshold evaluation *)

(** C4 (as amended).  Among the candidates of one evaluation, TEMP_TOO_LOW
    is present exactly when [temperature < temp_min], TEMP_TOO_HIGH exactly
    when [temperature > temp_max] and not [temperature < temp_min],
    HUMIDITY_TOO_HIGH exactly when [humidity > humidity_max], and no kind
    is present twice.  In binary32, with [temp_max = 28.0] and a reading of
    30.0 that is not below [temp_min], exactly one TEMP_TOO_HIGH candidate
    is produced. *)
Theorem threshold_candidates_rules :
  (forall (F : Type) (ops : FloatOps F) (config : ThermalConfig.t F)
          (sensor : SensorData.t F) (t : Z),
     let candidates := ThermalIsolationTracker.threshold_candidates config sensor t in
     let temperature := SensorData.temperature sensor in
     (TEMP_TOO_LOW ∈ candidates <-> flt temperature (ThermalConfig.temp_min config) = true)
     /\ (TEMP_TOO_HIGH ∈ candidates
         <-> fgt temperature (ThermalConfig.temp_max config) = true
             /\ flt temperature (ThermalConfig.temp_min config) = false)
     /\ (HUMIDITY_TOO_HIGH ∈ candidates
         <-> fgt (SensorData.humidity sensor) (ThermalConfig.humidity_max config) = true)
     /\ NoDup candidates)
  /\ (forall (config : ThermalConfig.t binary32) (sensor : SensorData.t binary32) (t : Z),
        ThermalConfig.temp_max config = f_of_Z 28 ->
        SensorData.temperature sensor = f_of_Z 30 ->
        flt (f_of_Z 30 : binary32) (ThermalConfig.temp_min config) = false ->
        filter (fun kind => kind = TEMP_TOO_HIGH)
               (ThermalIsolationTracker.threshold_candidates config sensor t)
        = [TEMP_TOO_HIGH]).
Proof.
  split.
  - intros F ops config sensor t. cbv zeta.
    unfold ThermalIsolationTracker.threshold_candidates, fgt.
    destruct (flt (SensorData.temperature sensor) (ThermalConfig.temp_min config));
    destruct (flt (ThermalConfig.temp_max config) (SensorData.temperature sensor));
    destruct (flt (ThermalConfig.humidity_max config) (SensorData.humidity sensor));
    destruct (flt (ThermalConfig.temp_rate_limit config) (fabs (SensorData.temp_rate sensor)));
    destruct (flt (f_of_Z 0) (SensorData.temp_rate sensor));
    destruct (_ <? _);
    cbn [app]; (split; [|split; [|split]]);
    try (apply NoDup_ListNoDup; repeat constructor; cbn; intuition discriminate);
    (split; [intros Hin|intros Heq]);
    try (repeat (apply elem_of_cons in Hin as [Hin|Hin]; try discriminate);
         apply elem_of_nil in Hin; destruct Hin);
    try done; try (destruct Heq; discriminate);
    repeat first [left; reflexivity | right].
  - intros config sensor t Hmax Htemp Hmin.
    unfold ThermalIsolationTracker.threshold_candidates, fgt.
    rewrite Hmax, Htemp, Hmin.
    change (flt (f_of_Z 28 : binary32) (f_of_Z 30)) with true. cbv iota.
    destruct (flt (ThermalConfig.humidity_max config) (SensorData.humidity sensor));
    destruct (flt (ThermalConfig.temp_rate_limit config) (fabs (SensorData.temp_rate sensor)));
    destruct (flt (f_of_Z 0) (SensorData.temp_rate sensor));
    destruct (_ <? _); reflexivity.
Qed.

(** The default thresholds and a reading of 30.0. *)
Lemma threshold_candidates_rules_witness :
  filter (fun kind => kind = TEMP_TOO_HIGH)
         (ThermalIsolationTracker.threshold_candidates
            ThermalConfig.default Scenario.sensor_at_30 ns_per_second)
  = [TEMP_TOO_HIGH].
Proof.
  apply (proj2 threshold_candidates_rules ThermalConfig.default Scenario.sensor_at_30
           ns_per_second); reflexivity.
Defined.

(** C4 as stated fails: with [temp_min = 35.0] and [temp_max = 28.0], a
    reading of 30.0 is above [temp_max], and the only candidate is
    TEMP_TOO_LOW. *)
Lemma high_masked_by_low :
  fgt (SensorData.temperature Scenario.sensor_at_30)
      (ThermalConfig.temp_max Scenario.inverted_thresholds) = true
  /\ ThermalIsolationTracker.threshold_candidates
       Scenario.inverted_thresholds Scenario.sensor_at_30 ns_per_second
     = [TEMP_TOO_LOW].
Proof. vm_compute. split; reflexivity. Qed.

(** ** C5: the bounded queue *)

(** C5 (as amended).  A packet submitted while the queue holds at least
    [max_queue_size] packets (as a [size_t]) is dropped: [process_packet]
    leaves the whole state of the processor as it is, the queue and every
    per-sensor member included.  After any sequence of calls on a new
    processor the queue holds at most that many packets; for a capacity
    within the [size_t] range, the [size_t] value is the configured one. *)
Theorem queue_full_drops_newest :
  forall (F : Type) (ops : FloatOps F) (clk : nat -> Z),
  (forall (st : DataProcessor.state F) (packet : SensorDataPacket.t F),
     (to_size_t (RPi4GatewayConfig.max_queue_size (DataProcessor.config_ st))
        <= size (DataProcessor.processing_queue_ st))%N ->
     DataProcessor.process_packet packet st = (tt, st))
  /\ (forall (config : RPi4GatewayConfig.t F) (calls : list (ProcessorSpec.call (F := F))),
        (size (DataProcessor.processing_queue_
                 (ProcessorSpec.run clk (DataProcessor.create config) calls))
           <= to_size_t (RPi4GatewayConfig.max_queue_size config))%N)
  /\ (forall (config : RPi4GatewayConfig.t F),
        0 <= RPi4GatewayConfig.max_queue_size config < 2 ^ 64 ->
        Z.of_N (to_size_t (RPi4GatewayConfig.max_queue_size config))
        = RPi4GatewayConfig.max_queue_size config).
Proof.
  intros F ops clk. split; [|split].
  - intros st packet Hfull. apply process_packet_full, Hfull.
  - intros config calls.
    apply (processor_run_queue_bounded clk config calls (DataProcessor.create config)).
    split; [reflexivity|]. apply N.le_0_l.
  - intros config Hrange. unfold to_size_t.
    rewrite Z.mod_small by exact Hrange. apply Z2N.id. lia.
Qed.

(** A third packet submitted to a running processor with room for two. *)
Lemma queue_full_drops_newest_witness :
  DataProcessor.process_packet (Scenario.packet 24 3000 true) Scenario.full_queue
  = (tt, Scenario.full_queue).
Proof.
  apply (proj1 (queue_full_drops_newest binary32 _ Scenario.still_clock)).
  vm_compute. discriminate.
Defined.

(** C5 as stated fails: the rejected submission changes no member of the
    processor, so nothing that counts drops has been incremented. *)
Lemma full_queue_counts_nothing :
  exec (DataProcessor.process_packet (Scenario.packet 24 3000 true)) Scenario.full_queue
  = Scenario.full_queue
  /\ ~ (exists drop_counter : DataProcessor.state binary32 -> nat,
          drop_counter (exec (DataProcessor.process_packet (Scenario.packet 24 3000 true))
                             Scenario.full_queue)
          = S (drop_counter Scenario.full_queue)).
Proof.
  assert (Hsame : exec (DataProcessor.process_packet (Scenario.packet 24 3000 true))
                       Scenario.full_queue = Scenario.full_queue).
  { unfold exec. rewrite process_packet_full; [reflexivity|]. vm_compute. discriminate. }
  split; [exact Hsame|].
  intros [drop_counter Hinc]. rewrite Hsame in Hinc. lia.
Qed.

(** ** C6: the offline sweep *)

(** C6 (as amended).  With a monotonic clock: for an active sensor whose
    last update is more whole minutes old than [sensor_timeout_minutes],
    the sweep marks the sensor inactive and adds at most one SENSOR_OFFLINE
    alert for it, exactly one when the throttle rule passes at the time of
    the sweep; for an inactive (or unknown) sensor the sweep leaves the
    sensor and its alerts as they are; and a reading sets the sensor active
    with the time of the reading as its last update. *)
Theorem offline_sweep_once_per_episode {F : Type} `{FloatOps F} (clk : nat -> Z)
    (fmt : ThermalConfig.t F -> Alert.t F -> string) :
  (forall i j, (i <= j)%nat -> clk i <= clk j) ->
  (forall st id sensor,
     ThermalIsolationTracker.sensors_ st !! id = Some sensor ->
     SensorData.is_active sensor = true ->
     TrackerSpec.stale (ThermalIsolationTracker.config_ st) sensor
       (clk (ThermalIsolationTracker.clock_reads_ st)) = true ->
     let st' := exec (ThermalIsolationTracker.check_offline_sensors clk fmt) st in
     ThermalIsolationTracker.sensors_ st' !! id = Some (TrackerSpec.deactivated sensor)
     /\ exists new,
          TrackerSpec.alerts_of id SENSOR_OFFLINE (ThermalIsolationTracker.emitted_ st')
          = TrackerSpec.alerts_of id SENSOR_OFFLINE (ThermalIsolationTracker.emitted_ st)
            ++ new
          /\ (length new <= 1)%nat
          /\ (TrackerSpec.passes_throttle st id SENSOR_OFFLINE
                (clk (ThermalIsolationTracker.clock_reads_ st)) = true ->
              length new = 1%nat))
  /\ (forall st id kind,
        (forall sensor, ThermalIsolationTracker.sensors_ st !! id = Some sensor ->
                        SensorData.is_active sensor = false) ->
        let st' := exec (ThermalIsolationTracker.check_offline_sensors clk fmt) st in
        ThermalIsolationTracker.sensors_ st' !! id = ThermalIsolationTracker.sensors_ st !! id
        /\ TrackerSpec.alerts_of id kind (ThermalIsolationTracker.emitted_ st')
           = TrackerSpec.alerts_of id kind (ThermalIsolationTracker.emitted_ st))
  /\ (forall st id temperature humidity location,
        exists sensor,
          ThermalIsolationTracker.sensors_
            (exec (ThermalIsolationTracker.process_sensor_data clk fmt
                     id temperature humidity location) st) !! id = Some sensor
          /\ SensorData.is_active sensor = true
          /\ SensorData.last_update sensor
             = clk (ThermalIsolationTracker.clock_reads_ st)).
Proof.
  intros Hmono. split; [|split].
  - intros st id sensor Hs Hact Hstale.
    apply (sweep_stale_sensor clk fmt Hmono st id sensor Hs Hact Hstale).
  - intros st id kind Hinactive. cbv zeta.
    destruct (sweep_inactive_sensor clk fmt st id kind Hinactive) as (Hs & Hlog & _).
    split; assumption.
  - intros st id temperature humidity location.
    destruct (process_sensor_data_sensors clk fmt st id temperature humidity location)
      as [_ ->].
    eexists. rewrite lookup_insert_eq. split; [reflexivity|]. split; reflexivity.
Qed.

Lemma silent_clock_mono i j :
  (i <= j)%nat -> Scenario.silent_clock i <= Scenario.silent_clock j.
Proof.
  intros Hij. unfold Scenario.silent_clock, ns_per_minute, ns_per_second.
  destruct (Nat.ltb_spec i 2), (Nat.ltb_spec j 2); lia.
Qed.

(** A sensor read once, and swept 22 minutes later. *)
Lemma offline_sweep_witness :
  let st' := exec (ThermalIsolationTracker.check_offline_sensors
                     Scenario.silent_clock Scenario.no_text) Scenario.silent_sensor in
  let sensor :=
    default SensorData.default
      (ThermalIsolationTracker.sensors_ Scenario.silent_sensor !! "s1") in
  ThermalIsolationTracker.sensors_ st' !! "s1" = Some (TrackerSpec.deactivated sensor)
  /\ exists new,
       TrackerSpec.alerts_of "s1" SENSOR_OFFLINE (ThermalIsolationTracker.emitted_ st')
       = TrackerSpec.alerts_of "s1" SENSOR_OFFLINE
           (ThermalIsolationTracker.emitted_ Scenario.silent_sensor) ++ new
       /\ (length new <= 1)%nat
       /\ (TrackerSpec.passes_throttle Scenario.silent_sensor "s1" SENSOR_OFFLINE
             (Scenario.silent_clock
                (ThermalIsolationTracker.clock_reads_ Scenario.silent_sensor)) = true ->
           length new = 1%nat).
Proof.
  apply (proj1 (offline_sweep_once_per_episode Scenario.silent_clock Scenario.no_text
                  silent_clock_mono)); vm_compute; reflexivity.
Defined.

(** C6 as stated fails: with a timeout of one minute and a cooldown of
    five, a sensor goes offline, reports again, and goes offline again two
    and a half minutes after the first alert.  Before the second sweep it
    is active and stale; the sweep marks it inactive and emits nothing, so
    the second offline episode has no alert. *)
Lemma second_episode_raises_nothing :
  SensorData.is_active
    <$> ThermalIsolationTracker.sensors_ Scenario.second_episode_before !! "s1" = Some true
  /\ (fun sensor =>
        TrackerSpec.stale Scenario.short_timeout sensor
          (Scenario.episode_clock
             (ThermalIsolationTracker.clock_reads_ Scenario.second_episode_before)))
       <$> ThermalIsolationTracker.sensors_ Scenario.second_episode_before !! "s1"
     = Some true
  /\ SensorData.is_active
       <$> ThermalIsolationTracker.sensors_ Scenario.second_episode_after !! "s1"
     = Some false
  /\ ThermalIsolationTracker.emitted_ Scenario.second_episode_after
     = ThermalIsolationTracker.emitted_ Scenario.second_episode_before
  /\ length (TrackerSpec.alerts_of "s1" SENSOR_OFFLINE
               (ThermalIsolationTracker.emitted_ Scenario.second_episode_after)) = 1%nat.
Proof. vm_compute. repeat split. Qed.

(** ** C7: the rate of change *)

(** C7 (a defect of the code).  [process_sensor_data] divides the change
    of temperature by the time since the previous reading counted in whole
    minutes, and skips the update when that count is 0, although the time
    that has passed is positive.  In the repository's own test of a rapid
    temperature change, with [temp_rate_limit] at 1.5, the reading of 27.0
    comes 100 ms after the reading of 22.0: the rate of [test_sensor_2]
    stays 0.0 and the whole test raises no TEMP_RISING_FAST, where the
    quotient of the claim, 5.0 degrees over 100/60000 of a minute, is far
    above the limit. *)
Theorem rapid_rise_rate_not_computed :
  SensorData.last_update
    <$> ThermalIsolationTracker.sensors_ Scenario.test_before_rapid_rise !! "test_sensor_2"
  = Some (ns_per_second + 1500 * Scenario.ns_per_millisecond)
  /\ SensorData.last_update
       <$> ThermalIsolationTracker.sensors_ Scenario.test_after_rapid_rise !! "test_sensor_2"
     = Some (ns_per_second + 1600 * Scenario.ns_per_millisecond)
  /\ SensorData.temp_rate
       <$> ThermalIsolationTracker.sensors_ Scenario.test_after_rapid_rise !! "test_sensor_2"
     = Some (f_of_Z 0)
  /\ Alert.alert_type <$> ThermalIsolationTracker.emitted_ Scenario.test_after_rapid_rise
     = [TEMP_TOO_LOW; TEMP_TOO_HIGH; HUMIDITY_TOO_HIGH]
  /\ fgt (fdiv (fsub (f_of_Z 27) (f_of_Z 22)) (fdiv (f_of_Z 100) (f_of_Z 60000)))
         (ThermalConfig.temp_rate_limit Scenario.test_config)
     = true.
Proof. vm_compute. repeat split. Qed.

(** ** C8: trend analysis *)

(** C8 (as amended).  Trend analysis gives no result, and leaves the
    processor as it is, when the history has fewer than 5 samples; for a
    history of at least 5 samples it gives a result whose slope and
    intercept are those of [linear_regression] over the temperatures.  In
    exact arithmetic that slope is the least-squares slope of value against
    sample index; it is positive for every strictly increasing series of at
    least 5 values and negative for every strictly decreasing one. *)
Theorem trend_analysis_regression :
  (forall (F : Type) (ops : FloatOps F) (packet : SensorDataPacket.t F)
          (history : list (SensorDataPacket.t F)) (t : Z),
     (size history < 5)%N -> DataProcessor.trend_analysis packet history t = None)
  /\ (forall (F : Type) (ops : FloatOps F) (clk : nat -> Z)
             (st : DataProcessor.state F) (packet : SensorDataPacket.t F),
        (size (ProcessorSpec.history_of st (SensorDataPacket.sensor_id packet)) < 5)%N ->
        DataProcessor.perform_edge_analytics clk packet st = (tt, st))
  /\ (forall (F : Type) (ops : FloatOps F) (packet : SensorDataPacket.t F)
             (history : list (SensorDataPacket.t F)) (t : Z),
        (5 <= size history)%N ->
        exists result,
          DataProcessor.trend_analysis packet history t = Some result
          /\ EdgeProcessingResult.metrics result !! "temperature_trend_slope"
             = Some (fst (DataProcessor.linear_regression
                            (SensorDataPacket.temperature_celsius <$> history)))
          /\ EdgeProcessingResult.metrics result !! "temperature_trend_intercept"
             = Some (snd (DataProcessor.linear_regression
                            (SensorDataPacket.temperature_celsius <$> history))))
  /\ (forall l : list Q,
        (fst (DataProcessor.linear_regression l) == ProcessorSpec.ols_slope l)%Q)
  /\ (forall l : list Q,
        (5 <= length l)%nat -> ProcessorSpec.strictly_increasing l ->
        (0 < fst (DataProcessor.linear_regression l))%Q)
  /\ (forall l : list Q,
        (5 <= length l)%nat -> ProcessorSpec.strictly_decreasing l ->
        (fst (DataProcessor.linear_regression l) < 0)%Q).
Proof.
  repeat split.
  - intros F ops packet history t. apply trend_analysis_short.
  - intros F ops clk st packet. apply perform_edge_analytics_short.
  - intros F ops packet history t. apply trend_analysis_long.
  - apply linear_regression_ols.
  - intros l Hlen. apply slope_increasing. lia.
  - intros l Hlen. apply slope_decreasing. lia.
Qed.

(** The series 20, 21, 22, 23, 24. *)
Lemma slope_positive_witness :
  (0 < fst (DataProcessor.linear_regression [20; 21; 22; 23; 24]%Q))%Q.
Proof.
  apply (proj1 (proj2 (proj2 (proj2 (proj2 trend_analysis_regression))))).
  - cbn. lia.
  - cbn. repeat split.
Defined.

(** In binary32 the same series has slope 1.0. *)
Example slope_of_five_readings :
  fst (DataProcessor.linear_regression
         [f_of_Z 20; f_of_Z 21; f_of_Z 22; f_of_Z 23; f_of_Z 24])
  = (f_of_Z 1 : binary32).
Proof. vm_compute. reflexivity. Qed.

(** C8 as stated fails in binary32.  For five strictly increasing values
    near the top of the range the sums overflow and the slope is NaN; for
    five strictly increasing values near 100 degrees, one unit in the last
    place apart, the slope is rounded to zero.  Neither is positive. *)
Lemma slope_not_positive_in_binary32 :
  (Scenario.increasing32 Scenario.steep_series = true
   /\ length Scenario.steep_series = 5%nat
   /\ fst (DataProcessor.linear_regression Scenario.steep_series) = S754_nan
   /\ flt (f_of_Z 0) (fst (DataProcessor.linear_regression Scenario.steep_series)) = false)
  /\ (Scenario.increasing32 Scenario.fine_series = true
      /\ length Scenario.fine_series = 5%nat
      /\ fst (DataProcessor.linear_regression Scenario.fine_series) = S754_zero false
      /\ flt (f_of_Z 0) (fst (DataProcessor.linear_regression Scenario.fine_series)) = false).
Proof. vm_compute. repeat split. Qed.

(** ** C9: aggregation *)

(** C9.  On a processor whose histories hold valid packets only (every
    processor reached from a new one), an aggregation pass makes one
    iteration per sensor of the store; the iteration reads the clock,
    keeps the packets of the sensor's history inside the trailing window,
    and hands to each registered sink nothing when the window is empty and
    exactly one record otherwise, with the sample count, the valid count,
    the average, minimum and maximum temperature, the average humidity and
    the average pressure of the window's valid packets. *)
Theorem aggregation_pass_records {F : Type} `{FloatOps F} (clk : nat -> Z)
    (st : DataProcessor.state F) :
  ProcessorSpec.history_valid st ->
  let st' := exec (DataProcessor.aggregate_and_forward clk) st in
  let config := DataProcessor.config_ st in
  exists (mqtt : list (list (string * Message F))) (ws : list (list (Message F))),
    DataProcessor.mqtt_sent_ st' = DataProcessor.mqtt_sent_ st ++ concat mqtt
    /\ DataProcessor.websocket_sent_ st' = DataProcessor.websocket_sent_ st ++ concat ws
    /\ Forall3
         (fun entry out_mqtt out_ws =>
            exists r, (DataProcessor.clock_reads_ st <= r)%nat
              /\ out_mqtt
                 = ProcessorSpec.window_output config (DataProcessor.mqtt_callback_ st)
                     entry.2 (clk r) (clk (S r))
                     (fun m => (ProcessorSpec.aggregated_topic config entry.1, m))
              /\ out_ws
                 = ProcessorSpec.window_output config (DataProcessor.websocket_callback_ st)
                     entry.2 (clk r) (clk (S r)) (fun m => m))
         (map_to_list (DataProcessor.sensor_history_ st)) mqtt ws.
Proof.
  intros Hvalid. cbv zeta. unfold DataProcessor.aggregate_and_forward.
  rewrite exec_bind. cbn [get exec eval fst snd].
  destruct (aggregate_loop clk (map_to_list (DataProcessor.sensor_history_ st)) st)
    as (_ & _ & mqtt & ws & Hm & Hw & Hall).
  { apply Forall_forall. intros [id h] Hel. apply elem_of_map_to_list in Hel.
    apply (Hvalid id h Hel). }
  exists mqtt, ws. repeat split; assumption.
Qed.

(** A processor that has processed ten packets of one sensor. *)
Lemma aggregation_pass_witness :
  let st := Scenario.ten_processed in
  let st' := exec (DataProcessor.aggregate_and_forward Scenario.still_clock) st in
  let config := DataProcessor.config_ st in
  exists (mqtt : list (list (string * Message binary32))) (ws : list (list (Message binary32))),
    DataProcessor.mqtt_sent_ st' = DataProcessor.mqtt_sent_ st ++ concat mqtt
    /\ DataProcessor.websocket_sent_ st' = DataProcessor.websocket_sent_ st ++ concat ws
    /\ Forall3
         (fun entry out_mqtt out_ws =>
            exists r, (DataProcessor.clock_reads_ st <= r)%nat
              /\ out_mqtt
                 = ProcessorSpec.window_output config (DataProcessor.mqtt_callback_ st)
                     entry.2 (Scenario.still_clock r) (Scenario.still_clock (S r))
                     (fun m => (ProcessorSpec.aggregated_topic config entry.1, m))
              /\ out_ws
                 = ProcessorSpec.window_output config (DataProcessor.websocket_callback_ st)
                     entry.2 (Scenario.still_clock r) (Scenario.still_clock (S r))
                     (fun m => m))
         (map_to_list (DataProcessor.sensor_history_ st)) mqtt ws.
Proof.
  apply (aggregation_pass_records Scenario.still_clock Scenario.ten_processed).
  apply processor_run_history_valid.
Defined.

(** The example of the specification: ten readings in a window of 60 s,
    with average 22.0, minimum 20.0 and maximum 24.0, give one record with
    [sample_count = 10] and [temperature.avg = 22.0]. *)
Example ten_packets_aggregated :
  exists window,
    DataProcessor.mqtt_sent_
      (exec (DataProcessor.aggregate_and_forward Scenario.still_clock)
            Scenario.ten_processed)
    = DataProcessor.mqtt_sent_ Scenario.ten_processed
      ++ [("gateway/sensors/s1/aggregated", AggregatedData window)]
    /\ AggregatedWindow.sample_count window = 10%N
    /\ AggregatedWindow.valid_count window = 10
    /\ AggregatedWindow.temperature_avg window = f_of_Z 22
    /\ AggregatedWindow.temperature_min window = f_of_Z 20
    /\ AggregatedWindow.temperature_max window = f_of_Z 24.
Proof. eexists. vm_compute. repeat split. Qed.

(** ** C10: statistics of an unknown sensor *)

(** C10.  For a sensor id that is in neither store, [get_sensor_stats]
    returns the zero-initialised [SensorStats], whose [sensor_id] and
    [location] are empty, and leaves the tracker as it is;
    [get_sensor_statistics] returns the zero-initialised record with the
    requested id in [sensor_id], and leaves the processor as it is. *)
Theorem unknown_sensor_statistics {F : Type} `{FloatOps F} (clk : nat -> Z)
    (tracker : ThermalIsolationTracker.state F) (processor : DataProcessor.state F)
    (id : string) :
  ThermalIsolationTracker.sensors_ tracker !! id = None ->
  DataProcessor.sensor_stats_ processor !! id = None ->
  let '(stats, tracker') := ThermalIsolationTracker.get_sensor_stats clk id tracker in
  let '(statistics, processor') := DataProcessor.get_sensor_statistics id processor in
  stats = SensorStats.zero
  /\ SensorStats.sensor_id stats = "" /\ SensorStats.location stats = ""
  /\ tracker' = tracker
  /\ SensorStatistics.sensor_id statistics = id
  /\ statistics
     = SensorStatistics.mk id 0 0 0 (f_of_Z 0) (f_of_Z 0) (f_of_Z 0)
         (f_of_Z 0) (f_of_Z 0) (f_of_Z 0) 0 0
  /\ processor' = processor.
Proof.
  intros Htracker Hprocessor.
  unfold ThermalIsolationTracker.get_sensor_stats, DataProcessor.get_sensor_statistics,
    bind, get, ret.
  rewrite Htracker, Hprocessor. repeat split.
Qed.

(** The id "ghost" on a new tracker and a new processor. *)
Lemma unknown_sensor_statistics_witness :
  let '(stats, tracker') :=
    ThermalIsolationTracker.get_sensor_stats Scenario.still_clock "ghost" Scenario.tracker in
  let '(statistics, processor') :=
    DataProcessor.get_sensor_statistics "ghost" Scenario.processor in
  stats = SensorStats.zero
  /\ SensorStats.sensor_id stats = "" /\ SensorStats.location stats = ""
  /\ tracker' = Scenario.tracker
  /\ SensorStatistics.sensor_id statistics = "ghost"
  /\ statistics
     = SensorStatistics.mk "ghost" 0 0 0 (f_of_Z 0) (f_of_Z 0) (f_of_Z 0)
         (f_of_Z 0) (f_of_Z 0) (f_of_Z 0) 0 0
  /\ processor' = Scenario.processor.
Proof.
  apply (unknown_sensor_statistics Scenario.still_clock Scenario.tracker
           Scenario.processor "ghost"); reflexivity.
Defined.

(** * Further properties *)

(** ** The copy loop of the queries *)

Lemma copy_range_drop {A : Type} (c : list A) (steps : nat) : forall i,
  (i + steps = length c)%nat -> copy_range c i steps = drop i c.
Proof.
  induction steps as [|k IH]; intros i Hlen; cbn [copy_range].
  - rewrite drop_ge by lia. reflexivity.
  - destruct (c !! i) as [x|] eqn:Hx.
    + rewrite (drop_S c x i Hx). f_equal. apply IH. lia.
    + apply lookup_ge_None in Hx. lia.
Qed.

Lemma to_int32_small (z : Z) : - 2 ^ 31 <= z < 2 ^ 31 -> to_int32 z = z.
Proof. intros Hz. unfold to_int32. rewrite Z.mod_small by lia. lia. Qed.

Lemma recent_items_last_n {A : Type} (c : list A) (count : Z) :
  (size c < 2 ^ 31)%N ->
  - 2 ^ 31 <= Z.of_N (size c) - count < 2 ^ 31 ->
  recent_items c count = Some (last_n (Z.to_N count) c).
Proof.
  intros Hsize Hrange. unfold recent_items.
  rewrite to_int32_small by lia.
  rewrite decide_True by exact Hrange.
  f_equal. unfold last_n, size in *.
  destruct (Z_lt_le_dec count 0) as [Hneg|Hpos].
  - replace (Z.to_nat (Z.of_N (N.of_nat (length c))
                         - Z.max 0 (Z.of_N (N.of_nat (length c)) - count)))
      with 0%nat by lia.
    cbn [copy_range]. rewrite drop_ge by lia. reflexivity.
  - rewrite copy_range_drop by lia. f_equal. lia.
Qed.

(** ** The window of recent alerts *)

Section RecentAlerts.
Import ThermalIsolationTracker TrackerSpec TrackerQueries.
Context {F : Type} `{FloatOps F}.
Variable clk : nat -> time_point.
Variable fmt : ThermalConfig.t F -> Alert.t F -> string.

Lemma alerts_window_now (config : ThermalConfig.t F) :
  preserves (alerts_window config) (now clk).
Proof. intros st Hst. exact Hst. Qed.

Lemma alerts_window_set_sensors (config : ThermalConfig.t F) m :
  preserves (alerts_window config) (set_sensors m).
Proof. intros st Hst. exact Hst. Qed.

Lemma alerts_window_generate_alert (config : ThermalConfig.t F) id k sensor :
  preserves (alerts_window config) (generate_alert clk fmt id k sensor).
Proof.
  intros st [Hc Hw]. subst config.
  destruct (last_fired st id k) as [fired|] eqn:Hlast.
  - rewrite (generate_alert_again clk fmt st id k sensor fired Hlast).
    destruct (_ <=? _); cbv zeta.
    + split; [reflexivity|]. cbn [recent_alerts_ emitted_].
      rewrite Hw. apply push_bounded_last_n.
    + split; [reflexivity|exact Hw].
  - rewrite (generate_alert_first clk fmt st id k sensor Hlast). cbv zeta.
    split; [reflexivity|]. cbn [recent_alerts_ emitted_].
    rewrite Hw. apply push_bounded_last_n.
Qed.

Lemma alerts_window_run_call (config : ThermalConfig.t F) st c :
  alerts_window config st -> alerts_window config (run_call clk fmt st c).
Proof.
  revert st. change (preserves (alerts_window config) (fun st => (tt, run_call clk fmt st c))).
  destruct c as [id temperature humidity location| |id]; intros st Hst; unfold exec; cbn.
  - revert st Hst. unfold process_sensor_data, check_thresholds.
    repeat first [apply alerts_window_now | apply alerts_window_set_sensors
                 | apply alerts_window_generate_alert | preserve_step].
  - revert st Hst. unfold check_offline_sensors, check_offline_sensor.
    repeat first [apply alerts_window_now | apply alerts_window_set_sensors
                 | apply alerts_window_generate_alert | preserve_step].
  - revert st Hst. unfold get_sensor_stats.
    repeat first [apply alerts_window_now | preserve_step].
Qed.

Lemma alerts_window_run (config : ThermalConfig.t F) calls : forall st,
  alerts_window config st -> alerts_window config (run clk fmt st calls).
Proof.
  induction calls as [|c calls IH]; intros st Hst; [exact Hst|].
  cbn. apply IH, alerts_window_run_call, Hst.
Qed.

End RecentAlerts.

(** X1.  After any sequence of calls on a new tracker, [recent_alerts_]
    holds the last [max_alerts_history] alerts that [generate_alert] has
    emitted, in the order of emission, and so never more than
    [max_alerts_history] of them. *)
Theorem recent_alerts_window {F : Type} `{FloatOps F} (clk : nat -> Z)
    (fmt : ThermalConfig.t F -> Alert.t F -> string)
    (config : ThermalConfig.t F) (calls : list (TrackerSpec.call (F := F))) :
  let st := TrackerSpec.run clk fmt (ThermalIsolationTracker.create config) calls in
  ThermalIsolationTracker.recent_alerts_ st
  = last_n (ThermalConfig.max_alerts_history config) (ThermalIsolationTracker.emitted_ st)
  /\ (size (ThermalIsolationTracker.recent_alerts_ st)
        <= ThermalConfig.max_alerts_history config)%N.
Proof.
  cbv zeta.
  destruct (alerts_window_run clk fmt config calls (ThermalIsolationTracker.create config))
    as [_ Hw]; [split; reflexivity|].
  rewrite Hw. split; [reflexivity|apply last_n_length].
Qed.

(** X2.  When fewer than 2^31 alerts are stored and the [int] subtraction
    [size - count] does not overflow (as for every [count >= 0]),
    [get_recent_alerts(count)] returns the last [count] stored alerts, oldest
    first: all of them when [count] exceeds their number, none when
    [count <= 0]. *)
Theorem get_recent_alerts_last {F : Type} `{FloatOps F}
    (st : ThermalIsolationTracker.state F) (count : Z) :
  (size (ThermalIsolationTracker.recent_alerts_ st) < 2 ^ 31)%N ->
  - 2 ^ 31 <= Z.of_N (size (ThermalIsolationTracker.recent_alerts_ st)) - count < 2 ^ 31 ->
  ThermalIsolationTracker.get_recent_alerts count st
  = Some (last_n (Z.to_N count) (ThermalIsolationTracker.recent_alerts_ st))
  /\ (count <= 0 -> ThermalIsolationTracker.get_recent_alerts count st = Some [])
  /\ (Z.of_N (size (ThermalIsolationTracker.recent_alerts_ st)) <= count ->
      ThermalIsolationTracker.get_recent_alerts count st
      = Some (ThermalIsolationTracker.recent_alerts_ st)).
Proof.
  intros Hsize Hrange. unfold ThermalIsolationTracker.get_recent_alerts.
  rewrite (recent_items_last_n _ count Hsize Hrange).
  split; [reflexivity|]. split.
  - intros Hcount. f_equal. unfold last_n.
    replace (Z.to_N count) with 0%N by lia. rewrite Nat.sub_0_r. apply drop_all.
  - intros Hcount. f_equal. unfold last_n, size in *.
    replace (length _ - _)%nat with 0%nat by lia. reflexivity.
Qed.

(** The two most recent of the three alerts of the threshold test. *)
Lemma get_recent_alerts_last_two :
  ThermalIsolationTracker.get_recent_alerts 2 Scenario.test_after_rapid_rise
  = Some (last_n 2 (ThermalIsolationTracker.recent_alerts_ Scenario.test_after_rapid_rise)).
Proof.
  apply (get_recent_alerts_last Scenario.test_after_rapid_rise 2).
  - vm_compute. reflexivity.
  - vm_compute. split; [discriminate|reflexivity].
Defined.

(** ** Statistics of a sensor *)

Section SensorStatistics.
Import ThermalIsolationTracker TrackerSpec TrackerQueries.
Context {F : Type} `{FloatOps F}.
Variable clk : nat -> time_point.
Variable fmt : ThermalConfig.t F -> Alert.t F -> string.

Lemma history_fold (l : list (TimestampedReading.t F)) : forall sum lo hi,
  fold_left
    (fun '(sum, lo, hi) reading =>
       (fadd sum (TimestampedReading.value reading),
        fmin lo (TimestampedReading.value reading),
        fmax hi (TimestampedReading.value reading)))
    l (sum, lo, hi)
  = (fold_left fadd (TimestampedReading.value <$> l) sum,
     fold_left fmin (TimestampedReading.value <$> l) lo,
     fold_left fmax (TimestampedReading.value <$> l) hi).
Proof.
  induction l as [|r l IH]; intros sum lo hi; [reflexivity|].
  cbn [fold_left fmap list_fmap]. apply IH.
Qed.

Lemma get_sensor_stats_eval st id sensor :
  sensors_ st !! id = Some sensor ->
  eval (get_sensor_stats clk id) st
  = let '(avg, lo, hi) :=
      history_summary (TimestampedReading.value <$> SensorData.temperature_history sensor) in
    SensorStats.mk id (SensorData.location sensor) (SensorData.temperature sensor)
      (SensorData.humidity sensor) avg lo hi
      (reported_uptime sensor (clk (clock_reads_ st))).
Proof.
  intros Hs. unfold get_sensor_stats, eval, bind, get, ret, now, reported_uptime.
  cbn [fst snd]. rewrite Hs.
  destruct (SensorData.temperature_history sensor) as [|first rest] eqn:Hh.
  - cbn. destruct (decide _); reflexivity.
  - rewrite history_fold. unfold history_summary, accumulate, size.
    cbn [fmap list_fmap length]. rewrite !length_fmap.
    destruct (decide _); reflexivity.
Qed.

Lemma fold_fmin_member (values : list F) : forall lo,
  fold_left fmin values lo ∈ lo :: values.
Proof.
  induction values as [|v values IH]; intros lo; cbn [fold_left].
  - left.
  - specialize (IH (fmin lo v)). apply elem_of_cons in IH as [->|IH].
    + unfold fmin. destruct (flt v lo); [right; left|left].
    + right. right. exact IH.
Qed.

Lemma fold_fmax_member (values : list F) : forall hi,
  fold_left fmax values hi ∈ hi :: values.
Proof.
  induction values as [|v values IH]; intros hi; cbn [fold_left].
  - left.
  - specialize (IH (fmax hi v)). apply elem_of_cons in IH as [->|IH].
    + unfold fmax. destruct (flt hi v); [right; left|left].
    + right. right. exact IH.
Qed.

Lemma history_summary_members (values : list F) :
  values <> [] ->
  (history_summary values).1.2 ∈ values /\ (history_summary values).2 ∈ values.
Proof.
  destruct values as [|v0 rest]; [done|]. intros _. cbn [history_summary fst snd].
  split.
  - pose proof (fold_fmin_member (v0 :: rest) v0) as Hm.
    apply elem_of_cons in Hm as [->|Hm]; [left|exact Hm].
  - pose proof (fold_fmax_member (v0 :: rest) v0) as Hm.
    apply elem_of_cons in Hm as [->|Hm]; [left|exact Hm].
Qed.

(** The entry of a sensor after a sequence of calls carries the values of
    the last reading submitted for it. *)
Lemma tracker_run_call_sensor st c id :
  sensors_ (run_call clk fmt st c) !! id
  = match c with
    | ProcessSensorData id' temperature humidity location =>
        if decide (id' = id)
        then Some (apply_reading (config_ st) (default SensorData.default (sensors_ st !! id))
                     id temperature humidity location (clk (clock_reads_ st)))
        else sensors_ st !! id
    | CheckOfflineSensors =>
        sweep_sensor (config_ st) (clk (clock_reads_ st)) <$> sensors_ st !! id
    | GetSensorStats _ => sensors_ st !! id
    end.
Proof.
  destruct c as [id' temperature humidity location| |id']; cbn [run_call].
  - destruct (process_sensor_data_sensors clk fmt st id' temperature humidity location)
      as [_ ->].
    destruct (decide (id' = id)) as [->|Hne].
    + apply lookup_insert_eq.
    + apply lookup_insert_ne. exact Hne.
  - apply check_offline_sensors_sensors.
  - destruct (get_sensor_stats_frame clk st id') as [_ ->]. reflexivity.
Qed.

End SensorStatistics.

Section ExactStatistics.
Import TrackerQueries.
Local Open Scope Q_scope.

Lemma Qfmin_spec (a b : Q) : fmin a b <= a /\ fmin a b <= b.
Proof.
  unfold fmin. cbn [flt Q_ops]. unfold Qltb.
  destruct (Qle_bool a b) eqn:Hle; cbn [negb].
  - apply Qle_bool_iff in Hle. split; [apply Qle_refl|exact Hle].
  - assert (~ a <= b) as Hn by (rewrite <- Qle_bool_iff; congruence).
    apply Qnot_le_lt in Hn. split; [apply Qlt_le_weak, Hn|apply Qle_refl].
Qed.

Lemma Qfmax_spec (a b : Q) : a <= fmax a b /\ b <= fmax a b.
Proof.
  unfold fmax. cbn [flt Q_ops]. unfold Qltb.
  destruct (Qle_bool b a) eqn:Hle; cbn [negb].
  - apply Qle_bool_iff in Hle. split; [apply Qle_refl|exact Hle].
  - assert (~ b <= a) as Hn by (rewrite <- Qle_bool_iff; congruence).
    apply Qnot_le_lt in Hn. split; [apply Qlt_le_weak, Hn|apply Qle_refl].
Qed.

Lemma fold_fmin_lower (values : list Q) : forall lo,
  fold_left fmin values lo <= lo /\ Forall (fun v => fold_left fmin values lo <= v) values.
Proof.
  induction values as [|v values IH]; intros lo; cbn [fold_left].
  - split; [apply Qle_refl|constructor].
  - destruct (IH (fmin lo v)) as [Hlo Hall]. destruct (Qfmin_spec lo v) as [Ha Hb].
    split; [eapply Qle_trans; eassumption|].
    constructor; [eapply Qle_trans; eassumption|exact Hall].
Qed.

Lemma fold_fmax_upper (values : list Q) : forall hi,
  hi <= fold_left fmax values hi /\ Forall (fun v => v <= fold_left fmax values hi) values.
Proof.
  induction values as [|v values IH]; intros hi; cbn [fold_left].
  - split; [apply Qle_refl|constructor].
  - destruct (IH (fmax hi v)) as [Hhi Hall]. destruct (Qfmax_spec hi v) as [Ha Hb].
    split; [eapply Qle_trans; eassumption|].
    constructor; [eapply Qle_trans; eassumption|exact Hall].
Qed.

Lemma accumulate_snoc_Q (values : list Q) (v : Q) (init : Q) :
  accumulate (values ++ [v]) init = accumulate values init + v.
Proof. unfold accumulate. rewrite fold_left_app. reflexivity. Qed.

(** A sum of [n] values between [lo] and [hi] lies between [n * lo] and
    [n * hi]. *)
Lemma accumulate_bounds (lo hi : Q) (values : list Q) :
  Forall (fun v => lo <= v /\ v <= hi) values ->
  inject_Z (Z.of_nat (length values)) * lo <= accumulate values 0
  /\ accumulate values 0 <= inject_Z (Z.of_nat (length values)) * hi.
Proof.
  induction values as [|v values IH] using rev_ind; intros Hall.
  - change (inject_Z (Z.of_nat (length (@nil Q)))) with 0.
    change (accumulate (@nil Q) 0) with 0. split; lra.
  - apply Forall_app in Hall as [Hall Hv]. apply Forall_inv in Hv. destruct Hv as [Hv1 Hv2].
    destruct (IH Hall) as [IHlo IHhi]. rewrite accumulate_snoc_Q.
    rewrite length_app. cbn [length].
    replace (Z.of_nat (length values + 1)) with (Z.of_nat (length values) + 1)%Z by lia.
    rewrite inject_Z_plus. change (inject_Z 1) with 1.
    split; lra.
Qed.

Lemma history_summary_bounds (values : list Q) :
  values <> [] ->
  let '(avg, lo, hi) := history_summary values in
  Forall (fun v => lo <= v /\ v <= hi) values /\ lo <= avg /\ avg <= hi.
Proof.
  destruct values as [|v0 rest]; [done|]. intros _. cbn [history_summary].
  remember (v0 :: rest) as values eqn:Hv.
  destruct (fold_fmin_lower values v0) as [_ Hlo].
  destruct (fold_fmax_upper values v0) as [_ Hhi].
  assert (Hall : Forall (fun v => fold_left fmin values v0 <= v
                                  /\ v <= fold_left fmax values v0) values).
  { apply Forall_and. split; assumption. }
  split; [exact Hall|].
  destruct (accumulate_bounds _ _ _ Hall) as [Hsum_lo Hsum_hi].
  cbn [f_of_Z Q_ops fdiv]. unfold size. rewrite nat_N_Z.
  assert (Hpos : 0 < inject_Z (Z.of_nat (length values))).
  { rewrite Hv. cbn [length]. change 0 with (inject_Z 0). rewrite <- Zlt_Qlt. lia. }
  split.
  - apply Qle_shift_div_l; [exact Hpos|]. rewrite Qmult_comm. exact Hsum_lo.
  - apply Qle_shift_div_r; [exact Hpos|]. rewrite Qmult_comm. exact Hsum_hi.
Qed.

End ExactStatistics.

(** X3.  A query that follows a reading reports that reading:
    [get_sensor_stats(id)] called after [process_sensor_data(id, temperature,
    humidity, location)] returns the id, the temperature and the humidity of
    the reading, the location given with it (for an empty one: the
    configured location of the id, or "Unknown"), and as uptime the whole
    minutes between the reading and the query, or 0 when the reading was
    stamped with the clock's epoch. *)
Theorem stats_after_reading {F : Type} `{FloatOps F} (clk : nat -> Z)
    (fmt : ThermalConfig.t F -> Alert.t F -> string)
    (st : ThermalIsolationTracker.state F) (id : string) (temperature humidity : F)
    (location : string) :
  let t := clk (ThermalIsolationTracker.clock_reads_ st) in
  let st' :=
    exec (ThermalIsolationTracker.process_sensor_data clk fmt id temperature humidity location)
         st in
  let stats := eval (ThermalIsolationTracker.get_sensor_stats clk id) st' in
  SensorStats.sensor_id stats = id
  /\ SensorStats.current_temp stats = temperature
  /\ SensorStats.current_humidity stats = humidity
  /\ SensorStats.location stats
     = (if decide (location = "")
        then match ThermalConfig.sensor_locations (ThermalIsolationTracker.config_ st) !! id with
             | Some configured => configured
             | None => "Unknown"
             end
        else location)
  /\ SensorStats.uptime_minutes stats
     = (if decide (t = 0) then 0
        else to_int32 (duration_minutes
                         (clk (ThermalIsolationTracker.clock_reads_ st') - t))).
Proof.
  cbv zeta.
  destruct (process_sensor_data_sensors clk fmt st id temperature humidity location)
    as [_ Hm].
  rewrite (get_sensor_stats_eval clk _ id _ ltac:(rewrite Hm; apply lookup_insert_eq)).
  destruct (TrackerQueries.history_summary _) as [[avg lo] hi].
  cbn [SensorStats.sensor_id SensorStats.current_temp SensorStats.current_humidity
       SensorStats.location SensorStats.uptime_minutes
       ThermalIsolationTracker.apply_reading SensorData.location SensorData.temperature
       SensorData.humidity].
  repeat (split; [reflexivity|]).
  unfold TrackerQueries.reported_uptime.
  cbn [ThermalIsolationTracker.apply_reading SensorData.last_update].
  destruct (decide (clk (ThermalIsolationTracker.clock_reads_ st) = 0)) as [->|Hne].
  - rewrite decide_False by (intros Hn; apply Hn; reflexivity). reflexivity.
  - rewrite decide_True by exact Hne. reflexivity.
Qed.



(** ** The sensors a tracker knows *)

Section KnownSensors.
Import ThermalIsolationTracker TrackerSpec TrackerQueries.
Context {F : Type} `{FloatOps F}.
Variable clk : nat -> time_point.
Variable fmt : ThermalConfig.t F -> Alert.t F -> string.

Lemma keyed_run_call st c : keyed st -> keyed (run_call clk fmt st c).
Proof.
  intros Hk id sensor. rewrite (tracker_run_call_sensor clk fmt st c id).
  destruct c as [id' temperature humidity location| |id'].
  - destruct (decide (id' = id)) as [->|Hne]; [|apply Hk].
    intros [= <-]. reflexivity.
  - destruct (sensors_ st !! id) as [sensor0|] eqn:Hs; [|discriminate].
    cbn. intros [= <-]. unfold sweep_sensor, deactivated.
    destruct (_ && _); cbn; apply (Hk id sensor0 Hs).
  - apply Hk.
Qed.

Lemma keyed_run calls : forall st, keyed st -> keyed (run clk fmt st calls).
Proof.
  induction calls as [|c calls IH]; intros st Hst; [exact Hst|].
  cbn. apply IH, keyed_run_call, Hst.
Qed.

Lemma known_run_call st c id :
  is_Some (sensors_ (run_call clk fmt st c) !! id)
  <-> is_Some (sensors_ st !! id) \/ id ∈ submitted_ids [c].
Proof.
  rewrite (tracker_run_call_sensor clk fmt st c id).
  destruct c as [id' temperature humidity location| |id']; cbn [submitted_ids flat_map app].
  - destruct (decide (id' = id)) as [->|Hne].
    + split; [intros _; right; left|intros _; eexists; reflexivity].
    + split; [intros Hs; left; exact Hs|].
      intros [Hs|Hin]; [exact Hs|].
      apply list_elem_of_singleton in Hin. congruence.
  - rewrite fmap_is_Some. split; [intros Hs; left; exact Hs|].
    intros [Hs|Hin]; [exact Hs|]. apply elem_of_nil in Hin. destruct Hin.
  - split; [intros Hs; left; exact Hs|].
    intros [Hs|Hin]; [exact Hs|]. apply elem_of_nil in Hin. destruct Hin.
Qed.

Lemma known_run config calls id :
  is_Some (sensors_ (run clk fmt (create config) calls) !! id) <-> id ∈ submitted_ids calls.
Proof.
  induction calls as [|c calls IH] using rev_ind.
  - cbn. rewrite lookup_empty. split; [intros [? [=]]|intros Hin].
    apply elem_of_nil in Hin. destruct Hin.
  - rewrite tracker_run_snoc, known_run_call, IH.
    unfold submitted_ids. rewrite flat_map_app, elem_of_app. reflexivity.
Qed.

Lemma keyed_ids (st : state F) :
  keyed st -> SensorData.sensor_id <$> get_all_sensors st = (map_to_list (sensors_ st)).*1.
Proof.
  intros Hk. unfold get_all_sensors. rewrite <- list_fmap_compose.
  apply Forall_fmap_ext_1, Forall_forall. intros [id sensor] Hel. cbn.
  apply (Hk id sensor). apply elem_of_map_to_list. exact Hel.
Qed.

End KnownSensors.

(** X5.  After any sequence of calls on a new tracker, [get_all_sensors]
    returns exactly one entry for every sensor id for which a reading has
    been submitted, and no other: the returned sensors carry distinct ids,
    and an id is among them exactly when it was submitted.  Sweeps and
    queries neither add nor remove a sensor. *)
Theorem get_all_sensors_ids {F : Type} `{FloatOps F} (clk : nat -> Z)
    (fmt : ThermalConfig.t F -> Alert.t F -> string)
    (config : ThermalConfig.t F) (calls : list (TrackerSpec.call (F := F))) :
  let st := TrackerSpec.run clk fmt (ThermalIsolationTracker.create config) calls in
  let ids := SensorData.sensor_id <$> ThermalIsolationTracker.get_all_sensors st in
  NoDup ids /\ forall id, id ∈ ids <-> id ∈ TrackerQueries.submitted_ids calls.
Proof.
  cbv zeta.
  rewrite (keyed_ids _ (keyed_run clk fmt calls (ThermalIsolationTracker.create config)
                          ltac:(intros id sensor; cbn; rewrite lookup_empty; discriminate))).
  split; [apply NoDup_fst_map_to_list|].
  intros id. rewrite <- (known_run clk fmt config calls id).
  rewrite list_elem_of_fmap. split.
  - intros ([id' sensor] & -> & Hel). apply elem_of_map_to_list in Hel.
    eexists. exact Hel.
  - intros [sensor Hs]. exists (id, sensor). split; [reflexivity|].
    apply elem_of_map_to_list. exact Hs.
Qed.

(** ** The alerts of one reading *)

Section ReadingAlerts.
Import ThermalIsolationTracker TrackerSpec TrackerQueries.
Context {F : Type} `{FloatOps F}.
Variable clk : nat -> time_point.
Variable fmt : ThermalConfig.t F -> Alert.t F -> string.

(** What one call of [generate_alert] adds to the log. *)
Lemma generate_alert_log st id k sensor :
  let st' := exec (generate_alert clk fmt id k sensor) st in
  config_ st' = config_ st /\ sensors_ st' = sensors_ st
  /\ exists new,
       emitted_ st' = emitted_ st ++ new
       /\ Forall (fun a => Alert.sensor_id a = id /\ describes sensor a) new
       /\ Alert.alert_type <$> new `sublist_of` [k].
Proof.
  cbv zeta.
  assert (Hbuilt : forall ts,
    Forall (fun a => Alert.sensor_id a = id /\ describes sensor a)
           [built_alert fmt (config_ st) id k sensor ts]).
  { intros ts. apply Forall_singleton. repeat split. }
  destruct (last_fired st id k) as [fired|] eqn:Hlast.
  - rewrite (generate_alert_again clk fmt st id k sensor fired Hlast).
    destruct (_ <=? _); cbv zeta; cbn [config_ sensors_ emitted_].
    + split; [reflexivity|]. split; [reflexivity|].
      eexists. split; [reflexivity|]. split; [apply Hbuilt|reflexivity].
    + split; [reflexivity|]. split; [reflexivity|].
      exists []. rewrite app_nil_r. split; [reflexivity|].
      split; [constructor|apply sublist_nil_l].
  - rewrite (generate_alert_first clk fmt st id k sensor Hlast).
    cbv zeta; cbn [config_ sensors_ emitted_].
    split; [reflexivity|]. split; [reflexivity|].
    eexists. split; [reflexivity|]. split; [apply Hbuilt|reflexivity].
Qed.

Lemma generate_alerts_log id sensor (kinds : list AlertType) : forall st,
  let st' := exec (for_each kinds (fun k => generate_alert clk fmt id k sensor)) st in
  config_ st' = config_ st /\ sensors_ st' = sensors_ st
  /\ exists new,
       emitted_ st' = emitted_ st ++ new
       /\ Forall (fun a => Alert.sensor_id a = id /\ describes sensor a) new
       /\ Alert.alert_type <$> new `sublist_of` kinds.
Proof.
  induction kinds as [|k kinds IH]; intros st; cbv zeta.
  - split; [reflexivity|]. split; [reflexivity|].
    exists []. rewrite app_nil_r. split; [reflexivity|]. split; [constructor|reflexivity].
  - rewrite exec_for_each_cons.
    destruct (generate_alert_log st id k sensor) as (Hc1 & Hm1 & new1 & He1 & Hd1 & Hs1).
    destruct (IH (exec (generate_alert clk fmt id k sensor) st))
      as (Hc2 & Hm2 & new2 & He2 & Hd2 & Hs2).
    split; [congruence|]. split; [congruence|].
    exists (new1 ++ new2). split; [rewrite He2, He1, app_assoc; reflexivity|].
    split; [apply Forall_app; split; assumption|].
    rewrite fmap_app. apply (sublist_app _ [k] _ kinds); assumption.
Qed.

Lemma threshold_candidates_in_order (config : ThermalConfig.t F) sensor t :
  threshold_candidates config sensor t `sublist_of` kinds_in_order.
Proof.
  unfold threshold_candidates, kinds_in_order, fgt.
  destruct (flt (SensorData.temperature sensor) (ThermalConfig.temp_min config));
  destruct (flt (ThermalConfig.temp_max config) (SensorData.temperature sensor));
  destruct (flt (ThermalConfig.humidity_max config) (SensorData.humidity sensor));
  destruct (flt (ThermalConfig.temp_rate_limit config) (fabs (SensorData.temp_rate sensor)));
  destruct (flt (f_of_Z 0) (SensorData.temp_rate sensor));
  destruct (_ <? _); cbn [app];
  repeat first [apply sublist_nil_l | apply sublist_skip | apply sublist_cons].
Qed.

Lemma process_sensor_data_log st id temperature humidity location :
  let sensor :=
    apply_reading (config_ st) (default SensorData.default (sensors_ st !! id))
      id temperature humidity location (clk (clock_reads_ st)) in
  exists new,
    emitted_ (exec (process_sensor_data clk fmt id temperature humidity location) st)
    = emitted_ st ++ new
    /\ Forall (fun a => Alert.sensor_id a = id /\ describes sensor a) new
    /\ Alert.alert_type <$> new
       `sublist_of` threshold_candidates (config_ st) sensor (clk (S (clock_reads_ st))).
Proof.
  cbv zeta.
  unfold process_sensor_data, check_thresholds, exec, bind, get, now, set_sensors, ret.
  cbn [fst snd config_ sensors_ clock_reads_ emitted_].
  match goal with
  | |- context [for_each ?kinds _ ?st0] =>
      destruct (generate_alerts_log id
                  (apply_reading (config_ st) (default SensorData.default (sensors_ st !! id))
                     id temperature humidity location (clk (clock_reads_ st)))
                  kinds st0) as (_ & _ & new & He & Hd & Hs)
  end.
  exists new. unfold exec in He. cbn [emitted_] in He.
  destruct (for_each _ _ _) as [u st1]. cbn [fst snd] in *.
  split; [exact He|]. split; [exact Hd|exact Hs].
Qed.

(** The alerts of another sensor, and its throttle entries, are left alone. *)
Lemma generate_alert_others st id k sensor id' :
  id' <> id ->
  let st' := exec (generate_alert clk fmt id k sensor) st in
  alerts_about id' (emitted_ st') = alerts_about id' (emitted_ st)
  /\ throttle_of st' id' = throttle_of st id'.
Proof.
  intros Hne. cbv zeta.
  assert (Hfilter : forall ts,
    alerts_about id' (emitted_ st ++ [built_alert fmt (config_ st) id k sensor ts])
    = alerts_about id' (emitted_ st)).
  { intros ts. unfold alerts_about. rewrite filter_app, filter_cons_False, filter_nil.
    - apply app_nil_r.
    - cbn. congruence. }
  assert (Hthrottle : forall ts,
    default ∅ (<[id := <[k := ts]> (default ∅ (alert_throttle_ st !! id))]>
                 (alert_throttle_ st) !! id')
    = default ∅ (alert_throttle_ st !! id')).
  { intros ts. rewrite lookup_insert_ne by congruence. reflexivity. }
  unfold throttle_of.
  destruct (last_fired st id k) as [fired|] eqn:Hlast.
  - rewrite (generate_alert_again clk fmt st id k sensor fired Hlast).
    destruct (_ <=? _); cbv zeta; cbn [emitted_ alert_throttle_].
    + rewrite Hfilter, Hthrottle. split; reflexivity.
    + split; reflexivity.
  - rewrite (generate_alert_first clk fmt st id k sensor Hlast).
    cbv zeta; cbn [emitted_ alert_throttle_].
    rewrite Hfilter, Hthrottle. split; reflexivity.
Qed.

Lemma others_generate_alert id k sensor id' log throttle :
  id' <> id ->
  preserves (fun st => alerts_about id' (emitted_ st) = log /\ throttle_of st id' = throttle)
            (generate_alert clk fmt id k sensor).
Proof.
  intros Hne st [Hl Ht].
  destruct (generate_alert_others st id k sensor id' Hne) as [-> ->].
  split; assumption.
Qed.

Lemma others_process_sensor_data st id temperature humidity location id' :
  id' <> id ->
  let st' := exec (process_sensor_data clk fmt id temperature humidity location) st in
  alerts_about id' (emitted_ st') = alerts_about id' (emitted_ st)
  /\ throttle_of st' id' = throttle_of st id'.
Proof.
  intros Hne. cbv zeta.
  assert (Hp : preserves
            (fun s => alerts_about id' (emitted_ s) = alerts_about id' (emitted_ st)
                      /\ throttle_of s id' = throttle_of st id')
            (process_sensor_data clk fmt id temperature humidity location)).
  { unfold process_sensor_data, check_thresholds.
    repeat first [apply (others_generate_alert _ _ _ _ _ _ Hne)
                 | (intros s Hs; exact Hs) | preserve_step]. }
  exact (Hp st (conj eq_refl eq_refl)).
Qed.

End ReadingAlerts.

(** X6.  The alerts that [process_sensor_data] raises for a reading are
    appended to the log in the order in which [check_thresholds] tests the
    kinds, at most one of each kind and at most of the kinds that are
    candidates for the stored snapshot; every one of them carries the id of
    the reading and the location, temperature, humidity and rate of change
    of the snapshot. *)
Theorem reading_alerts_describe_reading {F : Type} `{FloatOps F} (clk : nat -> Z)
    (fmt : ThermalConfig.t F -> Alert.t F -> string)
    (st : ThermalIsolationTracker.state F) (id : string) (temperature humidity : F)
    (location : string) :
  let st' :=
    exec (ThermalIsolationTracker.process_sensor_data clk fmt id temperature humidity location)
         st in
  exists sensor new,
    ThermalIsolationTracker.sensors_ st' !! id = Some sensor
    /\ SensorData.temperature sensor = temperature
    /\ SensorData.humidity sensor = humidity
    /\ ThermalIsolationTracker.emitted_ st' = ThermalIsolationTracker.emitted_ st ++ new
    /\ Forall (fun a => Alert.sensor_id a = id /\ TrackerQueries.describes sensor a) new
    /\ Alert.alert_type <$> new
       `sublist_of` ThermalIsolationTracker.threshold_candidates
                      (ThermalIsolationTracker.config_ st) sensor
                      (clk (S (ThermalIsolationTracker.clock_reads_ st)))
    /\ Alert.alert_type <$> new `sublist_of` TrackerQueries.kinds_in_order
    /\ NoDup (Alert.alert_type <$> new).
Proof.
  cbv zeta.
  destruct (process_sensor_data_sensors clk fmt st id temperature humidity location)
    as [_ Hm].
  destruct (process_sensor_data_log clk fmt st id temperature humidity location)
    as (new & He & Hd & Hs).
  eexists. exists new. rewrite Hm, lookup_insert_eq.
  split; [reflexivity|]. split; [reflexivity|]. split; [reflexivity|].
  split; [exact He|]. split; [exact Hd|]. split; [exact Hs|].
  assert (Hord : Alert.alert_type <$> new `sublist_of` TrackerQueries.kinds_in_order).
  { etransitivity; [exact Hs|apply threshold_candidates_in_order]. }
  split; [exact Hord|].
  refine (sublist_NoDup _ _ _ Hord).
  apply NoDup_ListNoDup. repeat constructor; cbn; intuition discriminate.
Qed.

(** X7.  A reading for one sensor leaves every other sensor alone:
    [process_sensor_data(id, ...)] changes neither the stored entry of
    another sensor [id'], nor the alerts about [id'] in the log, nor the
    throttle entries of [id']. *)
Theorem reading_leaves_other_sensors {F : Type} `{FloatOps F} (clk : nat -> Z)
    (fmt : ThermalConfig.t F -> Alert.t F -> string)
    (st : ThermalIsolationTracker.state F) (id : string) (temperature humidity : F)
    (location : string) (id' : string) :
  id' <> id ->
  let st' :=
    exec (ThermalIsolationTracker.process_sensor_data clk fmt id temperature humidity location)
         st in
  ThermalIsolationTracker.sensors_ st' !! id' = ThermalIsolationTracker.sensors_ st !! id'
  /\ TrackerQueries.alerts_about id' (ThermalIsolationTracker.emitted_ st')
     = TrackerQueries.alerts_about id' (ThermalIsolationTracker.emitted_ st)
  /\ TrackerQueries.throttle_of st' id' = TrackerQueries.throttle_of st id'.
Proof.
  intros Hne. cbv zeta.
  destruct (process_sensor_data_sensors clk fmt st id temperature humidity location)
    as [_ ->].
  split; [apply lookup_insert_ne; congruence|].
  apply others_process_sensor_data. exact Hne.
Qed.

(** The last reading of the threshold test leaves [test_sensor_1] alone. *)
Lemma reading_leaves_test_sensor_1 :
  ThermalIsolationTracker.sensors_ Scenario.test_after_rapid_rise !! "test_sensor_1"
  = ThermalIsolationTracker.sensors_ Scenario.test_before_rapid_rise !! "test_sensor_1".
Proof.
  apply (reading_leaves_other_sensors Scenario.test_clock Scenario.no_text
           Scenario.test_before_rapid_rise "test_sensor_2" (f_of_Z 27) (f_of_Z 50) ""
           "test_sensor_1").
  vm_compute. discriminate.
Defined.

(** X8.  In binary32 a NaN raises no threshold alert: with a NaN
    temperature neither TEMP_TOO_LOW nor TEMP_TOO_HIGH is a candidate, with
    a NaN humidity HUMIDITY_TOO_HIGH is none, and with a NaN rate of change
    neither TEMP_RISING_FAST nor TEMP_FALLING_FAST is one. *)
Theorem nan_raises_no_alert (config : ThermalConfig.t binary32)
    (sensor : SensorData.t binary32) (t : Z) :
  let candidates := ThermalIsolationTracker.threshold_candidates config sensor t in
  (SensorData.temperature sensor = S754_nan ->
   (TEMP_TOO_LOW ∉ candidates) /\ (TEMP_TOO_HIGH ∉ candidates))
  /\ (SensorData.humidity sensor = S754_nan -> HUMIDITY_TOO_HIGH ∉ candidates)
  /\ (SensorData.temp_rate sensor = S754_nan ->
      (TEMP_RISING_FAST ∉ candidates) /\ (TEMP_FALLING_FAST ∉ candidates)).
Proof.
  cbv zeta.
  assert (Hl : forall x : binary32, flt S754_nan x = false) by (intros x; reflexivity).
  assert (Hr : forall x : binary32, flt x S754_nan = false) by (intros [ | | |]; reflexivity).
  unfold ThermalIsolationTracker.threshold_candidates, fgt.
  split; [|split].
  - intros ->. rewrite Hl, Hr.
    repeat match goal with |- context [if ?b then _ else _] => destruct b end;
    cbn [app]; split; intros Hin;
    repeat (apply elem_of_cons in Hin as [Hin|Hin]; try discriminate);
    apply elem_of_nil in Hin; destruct Hin.
  - intros ->. rewrite Hr.
    repeat match goal with |- context [if ?b then _ else _] => destruct b end;
    cbn [app]; intros Hin;
    repeat (apply elem_of_cons in Hin as [Hin|Hin]; try discriminate);
    apply elem_of_nil in Hin; destruct Hin.
  - intros ->. change (fabs S754_nan) with (S754_nan : binary32). rewrite !Hr.
    repeat match goal with |- context [if ?b then _ else _] => destruct b end;
    cbn [app]; split; intros Hin;
    repeat (apply elem_of_cons in Hin as [Hin|Hin]; try discriminate);
    apply elem_of_nil in Hin; destruct Hin.
Qed.

(** A NaN temperature under the default thresholds. *)
Lemma nan_temperature_raises_no_alert :
  (TEMP_TOO_LOW
     ∉ ThermalIsolationTracker.threshold_candidates ThermalConfig.default Scenario.nan_sensor
         (2 * ns_per_second))
  /\ (TEMP_TOO_HIGH
        ∉ ThermalIsolationTracker.threshold_candidates ThermalConfig.default
            Scenario.nan_sensor (2 * ns_per_second)).
Proof.
  apply (proj1 (nan_raises_no_alert ThermalConfig.default Scenario.nan_sensor
                  (2 * ns_per_second))).
  reflexivity.
Defined.

(** ** Strings *)

Section Strings.
Import StringFacts.

Lemma string_app_cons (a : ascii) (s t : string) : String a s +:+ t = String a (s +:+ t).
Proof. reflexivity. Qed.

Lemma string_app_nil_l (t : string) : "" +:+ t = t.
Proof. reflexivity. Qed.

Lemma string_app_nil_r (s : string) : s +:+ "" = s.
Proof. induction s as [|a s IH]; [reflexivity|]. rewrite string_app_cons, IH. reflexivity. Qed.

Lemma string_app_assoc (s t u : string) : (s +:+ t) +:+ u = s +:+ (t +:+ u).
Proof.
  induction s as [|a s IH]; [reflexivity|]. rewrite !string_app_cons, IH. reflexivity.
Qed.

Lemma string_snoc_not_empty (s : string) (a : ascii) : s +:+ String a "" <> "".
Proof. destruct s; discriminate. Qed.

Lemma char_in_app (c : ascii) (s t : string) :
  char_in c (s +:+ t) = char_in c s || char_in c t.
Proof.
  induction s as [|a s IH]; [reflexivity|].
  rewrite string_app_cons. cbn [char_in]. destruct (decide (c = a)); [reflexivity|exact IH].
Qed.

(** *** The extraction loop of [split_string] *)

Lemma getline_loop_nil (str : string) (d : ascii) : forall item,
  getline_loop str d item = [] <-> str = "" /\ item = "".
Proof.
  induction str as [|c str IH]; intros item; cbn [getline_loop].
  - destruct (decide (item = "")) as [->|Hne]; split; try done.
    intros [_ ?]. congruence.
  - destruct (decide (c = d)); [split; [discriminate|intros [? _]; discriminate]|].
    rewrite IH. split; [|intros [? _]; discriminate].
    intros [_ Hitem]. destruct (string_snoc_not_empty _ _ Hitem).
Qed.

Lemma getline_loop_clean (str : string) (d : ascii) : forall item,
  char_in d item = false ->
  Forall (fun piece => char_in d piece = false) (getline_loop str d item).
Proof.
  induction str as [|c str IH]; intros item Hitem; cbn [getline_loop].
  - destruct (decide (item = "")); [constructor|]. constructor; [exact Hitem|constructor].
  - destruct (decide (c = d)) as [->|Hne].
    + constructor; [exact Hitem|]. apply IH. reflexivity.
    + apply IH. rewrite char_in_app, Hitem. cbn [char_in orb].
      rewrite decide_False by congruence. reflexivity.
Qed.

Lemma getline_loop_join (str : string) (d : ascii) : forall item,
  item +:+ str
  = join d (getline_loop str d item) +:+ (if ends_with d str then String d "" else "").
Proof.
  induction str as [|c str IH]; intros item; cbn [getline_loop].
  - cbn [ends_with]. destruct (decide (item = "")) as [->|Hne]; reflexivity.
  - destruct (decide (c = d)) as [->|Hne].
    + specialize (IH ""). rewrite string_app_nil_l in IH.
      destruct (getline_loop str d "") as [|piece pieces] eqn:Hrest.
      * apply getline_loop_nil in Hrest as [-> _]. cbn [join ends_with].
        rewrite bool_decide_eq_true_2 by reflexivity. reflexivity.
      * assert (Hstr : str <> "").
        { intros ->. cbn in Hrest. discriminate. }
        change (join d (item :: piece :: pieces))
          with (item +:+ String d (join d (piece :: pieces))).
        replace (ends_with d (String d str)) with (ends_with d str)
          by (destruct str; [done|reflexivity]).
        rewrite string_app_assoc, string_app_cons. rewrite <- IH. reflexivity.
    + replace (ends_with d (String c str)) with (ends_with d str).
      * rewrite <- IH, string_app_assoc. reflexivity.
      * destruct str as [|c' str]; cbn [ends_with]; [|reflexivity].
        rewrite bool_decide_eq_false_2 by exact Hne. reflexivity.
Qed.

Lemma getline_loop_skip (part : string) (d : ascii) : forall str item,
  char_in d part = false ->
  getline_loop (part +:+ str) d item = getline_loop str d (item +:+ part).
Proof.
  induction part as [|a part IH]; intros str item Hpart.
  - rewrite string_app_nil_l, string_app_nil_r. reflexivity.
  - cbn [char_in] in Hpart. destruct (decide (d = a)) as [|Hne]; [discriminate|].
    rewrite string_app_cons. cbn [getline_loop].
    rewrite decide_False by congruence. rewrite IH by exact Hpart.
    rewrite string_app_assoc. reflexivity.
Qed.

Lemma split_string_join_parts (d : ascii) (parts : list string) :
  Forall (fun part => char_in d part = false) parts ->
  last parts <> Some "" ->
  split_string (join d parts) d = parts.
Proof.
  unfold split_string. induction parts as [|part rest IH]; intros Hclean Hlast.
  - reflexivity.
  - apply Forall_cons in Hclean as [Hpart Hrest].
    destruct rest as [|part' rest].
    + cbn [join]. pose proof (getline_loop_skip part d "" "" Hpart) as Hskip.
      rewrite string_app_nil_r, string_app_nil_l in Hskip. rewrite Hskip.
      cbn [getline_loop]. rewrite decide_False; [reflexivity|].
      intros ->. apply Hlast. reflexivity.
    + change (join d (part :: part' :: rest))
        with (part +:+ String d (join d (part' :: rest))).
      rewrite getline_loop_skip by exact Hpart. cbn [getline_loop].
      rewrite decide_True by reflexivity. rewrite string_app_nil_l.
      f_equal. apply IH; [exact Hrest|]. exact Hlast.
Qed.

End Strings.

(** X9.  [split_string] loses nothing but one trailing delimiter: no
    piece contains the delimiter, and the pieces joined by the delimiter
    give back the string, up to a delimiter at its very end; the empty
    string, and only it, has no pieces. *)
Theorem split_string_join (str : string) (delimiter : ascii) :
  let pieces := split_string str delimiter in
  Forall (fun piece => char_in delimiter piece = false) pieces
  /\ str = StringFacts.join delimiter pieces
           +:+ (if StringFacts.ends_with delimiter str then String delimiter "" else "")
  /\ (pieces = [] <-> str = "").
Proof.
  cbv zeta. unfold split_string. split; [|split].
  - apply getline_loop_clean. reflexivity.
  - apply (getline_loop_join str delimiter "").
  - rewrite getline_loop_nil. split; [intros [? _]; assumption|intros ->; done].
Qed.

(** X10.  [split_string] undoes a join: for parts that do not contain the
    delimiter and the last of which is not empty, splitting the parts joined
    by the delimiter returns the parts. *)
Theorem split_string_of_join (delimiter : ascii) (parts : list string) :
  Forall (fun part => char_in delimiter part = false) parts ->
  last parts <> Some "" ->
  split_string (StringFacts.join delimiter parts) delimiter = parts.
Proof. apply split_string_join_parts. Qed.

(** The topic of a data message, joined and split again. *)
Lemma split_string_of_topic :
  split_string (StringFacts.join "/" ["sensors"; "sensor_001"; "data"]) "/"
  = ["sensors"; "sensor_001"; "data"].
Proof.
  apply (split_string_of_join "/" ["sensors"; "sensor_001"; "data"]).
  - repeat constructor.
  - vm_compute. discriminate.
Defined.

(** ** Sensor messages *)

Section SensorMessages.
Import Parsing StringFacts.
Context {F : Type} `{FloatOps F}.
Variable stof : string -> option F.

Lemma first_match_no_quote (key : string) (s : string) :
  char_in dquote s = false ->
  first_match (String.prefix (String dquote key)) s = None.
Proof.
  induction s as [|a s IH]; intros Hs; cbn [first_match String.prefix].
  - reflexivity.
  - cbn [char_in] in Hs. destruct (decide (dquote = a)) as [|Hne]; [discriminate|].
    destruct (ascii_dec dquote a) as [Heq|_]; [contradiction|].
    rewrite (IH Hs). reflexivity.
Qed.

Lemma find_no_quote (key : string) (s : string) :
  char_in dquote s = false -> find s (String dquote key) 0 = npos.
Proof.
  intros Hs. unfold find, find_if.
  destruct s; cbn [suffix_from N.eqb]; rewrite first_match_no_quote by exact Hs; reflexivity.
Qed.

Lemma parse_json_no_quote (json_str : string) (reading : SensorReading.t F) :
  char_in dquote json_str = false ->
  parse_json_sensor_data stof json_str reading = Some reading.
Proof.
  intros Hq. unfold parse_json_sensor_data, temperature_key, humidity_key, location_key.
  rewrite !find_no_quote by exact Hq.
  rewrite !decide_False by (intros Hn; apply Hn; reflexivity).
  destruct reading. reflexivity.
Qed.

Lemma parse_json_sensor_id (json_str : string) (reading result : SensorReading.t F) :
  parse_json_sensor_data stof json_str reading = Some result ->
  SensorReading.sensor_id result = SensorReading.sensor_id reading.
Proof.
  unfold parse_json_sensor_data. intros Hp.
  repeat match type of Hp with
         | (?m ≫= _) = Some _ => destruct m; [cbn [mbind option_bind] in Hp|discriminate]
         end.
  injection Hp as <-. reflexivity.
Qed.

Lemma parse_temperature_topic topic payload id rest value :
  split_string topic "/" = "sensors" :: id :: "temperature" :: rest ->
  stof payload = Some value ->
  parse_sensor_message stof topic payload
  = Returns (Some (SensorReading.mk id value (f_of_Z 0) "")).
Proof. unfold parse_sensor_message. intros -> ->. reflexivity. Qed.

Lemma parse_humidity_topic topic payload id rest value :
  split_string topic "/" = "sensors" :: id :: "humidity" :: rest ->
  stof payload = Some value ->
  parse_sensor_message stof topic payload
  = Returns (Some (SensorReading.mk id (f_of_Z 0) value "")).
Proof. unfold parse_sensor_message. intros -> ->. reflexivity. Qed.

End SensorMessages.

(** X11.  [parse_sensor_message] leaves by an exception exactly for a
    message on a topic [sensors/<id>/temperature] or [sensors/<id>/humidity]
    (further segments are ignored) whose payload [std::stof] rejects; a
    message on any other topic, the [data] topic included, never throws. *)
Theorem parse_sensor_message_throws {F : Type} `{FloatOps F} (stof : string -> option F)
    (topic payload : string) :
  Parsing.parse_sensor_message stof topic payload = Throws
  <-> exists id data_type rest,
        split_string topic "/" = "sensors" :: id :: data_type :: rest
        /\ (data_type = "temperature" \/ data_type = "humidity")
        /\ stof payload = None.
Proof.
  unfold Parsing.parse_sensor_message.
  destruct (split_string topic "/") as [|part0 [|part1 [|data_type rest]]].
  1-3: split; [discriminate|intros (? & ? & ? & [=] & _)].
  destruct (decide (part0 <> "sensors")) as [Hne|Heq].
  { split; [discriminate|]. intros (? & ? & ? & [= -> _ _ _] & _).
    exfalso. apply Hne. reflexivity. }
  assert (part0 = "sensors") as -> by (destruct (decide (part0 = "sensors")); tauto).
  destruct (decide (data_type = "data")) as [->|Hd].
  { split; [discriminate|]. intros (? & ? & ? & [= _ <- _] & [[=]|[=]] & _). }
  destruct (decide (data_type = "temperature")) as [->|Ht].
  { destruct (stof payload) eqn:Hs.
    - split; [discriminate|]. intros (? & ? & ? & _ & _ & [=]).
    - split; [|reflexivity]. intros _. exists part1, "temperature", rest.
      split; [reflexivity|]. split; [left; reflexivity|reflexivity]. }
  destruct (decide (data_type = "humidity")) as [->|Hh].
  { destruct (stof payload) eqn:Hs.
    - split; [discriminate|]. intros (? & ? & ? & _ & _ & [=]).
    - split; [|reflexivity]. intros _. exists part1, "humidity", rest.
      split; [reflexivity|]. split; [right; reflexivity|reflexivity]. }
  split; [discriminate|]. intros (? & ? & ? & [= _ <- _] & [?|?] & _); exfalso; tauto.
Qed.

(** X12.  [parse_sensor_message] returns a reading only for a topic of at
    least three segments, the first of which is [sensors] and the third one
    of [data], [temperature], [humidity]; the reading's id is the second
    segment.  On a [temperature] topic the reading is the converted payload
    with humidity 0.0 and no location, on a [humidity] topic the converted
    payload with temperature 0.0 and no location. *)
Theorem parse_sensor_message_reading {F : Type} `{FloatOps F} (stof : string -> option F)
    (topic payload : string) :
  (forall reading,
     Parsing.parse_sensor_message stof topic payload = Returns (Some reading) ->
     exists data_type rest,
       split_string topic "/"
       = "sensors" :: SensorReading.sensor_id reading :: data_type :: rest
       /\ data_type ∈ ["data"; "temperature"; "humidity"])
  /\ (forall id rest value,
        split_string topic "/" = "sensors" :: id :: "temperature" :: rest ->
        stof payload = Some value ->
        Parsing.parse_sensor_message stof topic payload
        = Returns (Some (SensorReading.mk id value (f_of_Z 0) "")))
  /\ (forall id rest value,
        split_string topic "/" = "sensors" :: id :: "humidity" :: rest ->
        stof payload = Some value ->
        Parsing.parse_sensor_message stof topic payload
        = Returns (Some (SensorReading.mk id (f_of_Z 0) value ""))).
Proof.
  unfold Parsing.parse_sensor_message. split; [|split].
  - intros reading.
    destruct (split_string topic "/") as [|part0 [|part1 [|data_type rest]]];
      try discriminate.
    destruct (decide (part0 <> "sensors")) as [Hne|Heq]; [discriminate|].
    assert (part0 = "sensors") as -> by (destruct (decide (part0 = "sensors")); tauto).
    destruct (decide (data_type = "data")) as [->|Hd].
    { intros [= Hp]. apply parse_json_sensor_id in Hp. cbn in Hp. rewrite Hp.
      exists "data", rest. split; [reflexivity|]. left. }
    destruct (decide (data_type = "temperature")) as [->|Ht].
    { destruct (stof payload); [|discriminate]. intros [= <-].
      exists "temperature", rest. split; [reflexivity|]. right. left. }
    destruct (decide (data_type = "humidity")) as [->|Hh]; [|discriminate].
    destruct (stof payload); [|discriminate]. intros [= <-].
    exists "humidity", rest. split; [reflexivity|]. right. right. left.
  - intros id rest value. apply parse_temperature_topic.
  - intros id rest value. apply parse_humidity_topic.
Qed.

(** The temperature message of [test_message_parsing]. *)
Lemma parse_temperature_message :
  Parsing.parse_sensor_message Scenario.stof_sample "sensors/sensor_002/temperature" "23.7"
  = Returns (Some (SensorReading.mk "sensor_002" (fdiv (f_of_Z 237) (f_of_Z 10))
                     (f_of_Z 0) "")).
Proof.
  apply (proj1 (proj2 (parse_sensor_message_reading Scenario.stof_sample
                         "sensors/sensor_002/temperature" "23.7"))
           "sensor_002" []).
  - vm_compute. reflexivity.
  - vm_compute. reflexivity.
Defined.

(** X13.  A payload without any double quote holds none of the three
    keys, so [parse_json_sensor_data] returns the reading it was given
    unchanged: on a [sensors/<id>/data] topic such a payload, whatever its
    text, is parsed as the reading with temperature 0.0, humidity 0.0 and
    no location. *)
Theorem unquoted_payload_parses_as_zero {F : Type} `{FloatOps F} (stof : string -> option F)
    (payload : string) :
  char_in dquote payload = false ->
  (forall reading, Parsing.parse_json_sensor_data stof payload reading = Some reading)
  /\ (forall topic id rest,
        split_string topic "/" = "sensors" :: id :: "data" :: rest ->
        Parsing.parse_sensor_message stof topic payload
        = Returns (Some (SensorReading.mk id (f_of_Z 0) (f_of_Z 0) ""))).
Proof.
  intros Hq. split.
  - intros reading. apply parse_json_no_quote. exact Hq.
  - intros topic id rest Hsplit. unfold Parsing.parse_sensor_message. rewrite Hsplit.
    rewrite decide_False by (intros Hn; apply Hn; reflexivity).
    rewrite decide_True by reflexivity.
    rewrite parse_json_no_quote by exact Hq. reflexivity.
Qed.

(** The payload [invalid json format] of [test_message_parsing]. *)
Lemma invalid_json_parses_as_zero :
  Parsing.parse_sensor_message Scenario.stof_sample "sensors/sensor_005/data"
    "invalid json format"
  = Returns (Some (SensorReading.mk "sensor_005" (f_of_Z 0) (f_of_Z 0) "")).
Proof.
  apply (proj2 (unquoted_payload_parses_as_zero Scenario.stof_sample "invalid json format"
                  ltac:(vm_compute; reflexivity))
           "sensors/sensor_005/data" "sensor_005" []).
  vm_compute. reflexivity.
Defined.

(** X14.  The bridge hands a parsed message to the tracker as it is:
    after a message on [sensors/<id>/humidity] whose payload converts to
    [value], the tracker holds for [id] the humidity [value] and the
    temperature 0.0, whatever temperature it held before; after a message on
    [sensors/<id>/temperature], the temperature [value] and the humidity
    0.0.  A message on a topic that yields no reading leaves the tracker as
    it is. *)
Theorem scalar_message_resets_other_value {F : Type} `{FloatOps F} (clk : nat -> Z)
    (fmt : ThermalConfig.t F -> Alert.t F -> string) (stof : string -> option F)
    (topic payload : string) (tracker : ThermalIsolationTracker.state F) :
  (forall id rest value,
     split_string topic "/" = "sensors" :: id :: "humidity" :: rest ->
     stof payload = Some value ->
     exists tracker' sensor,
       MqttWebSocketBridge.process_sensor_message clk fmt stof topic payload (Some tracker)
       = Returns (Some tracker')
       /\ ThermalIsolationTracker.sensors_ tracker' !! id = Some sensor
       /\ SensorData.humidity sensor = value
       /\ SensorData.temperature sensor = f_of_Z 0)
  /\ (forall id rest value,
        split_string topic "/" = "sensors" :: id :: "temperature" :: rest ->
        stof payload = Some value ->
        exists tracker' sensor,
          MqttWebSocketBridge.process_sensor_message clk fmt stof topic payload (Some tracker)
          = Returns (Some tracker')
          /\ ThermalIsolationTracker.sensors_ tracker' !! id = Some sensor
          /\ SensorData.temperature sensor = value
          /\ SensorData.humidity sensor = f_of_Z 0)
  /\ (Parsing.parse_sensor_message stof topic payload = Returns None ->
      MqttWebSocketBridge.process_sensor_message clk fmt stof topic payload (Some tracker)
      = Returns (Some tracker)).
Proof.
  unfold MqttWebSocketBridge.process_sensor_message.
  split; [|split].
  - intros id rest value Hsplit Hvalue.
    rewrite (parse_humidity_topic stof topic payload id rest value Hsplit Hvalue).
    cbn [SensorReading.sensor_id SensorReading.temperature SensorReading.humidity
         SensorReading.location].
    eexists. eexists. split; [reflexivity|].
    destruct (process_sensor_data_sensors clk fmt tracker id (f_of_Z 0) value "") as [_ ->].
    rewrite lookup_insert_eq. repeat split.
  - intros id rest value Hsplit Hvalue.
    rewrite (parse_temperature_topic stof topic payload id rest value Hsplit Hvalue).
    cbn [SensorReading.sensor_id SensorReading.temperature SensorReading.humidity
         SensorReading.location].
    eexists. eexists. split; [reflexivity|].
    destruct (process_sensor_data_sensors clk fmt tracker id value (f_of_Z 0) "") as [_ ->].
    rewrite lookup_insert_eq. repeat split.
  - intros ->. reflexivity.
Qed.

(** The humidity message of [test_message_parsing], handed to a new tracker. *)
Lemma humidity_message_resets_temperature :
  exists tracker' sensor,
    MqttWebSocketBridge.process_sensor_message (Scenario.ticking ns_per_second)
      Scenario.no_text Scenario.stof_sample "sensors/sensor_003/humidity" "58.5"
      (Some Scenario.tracker)
    = Returns (Some tracker')
    /\ ThermalIsolationTracker.sensors_ tracker' !! "sensor_003" = Some sensor
    /\ SensorData.humidity sensor = fdiv (f_of_Z 585) (f_of_Z 10)
    /\ SensorData.temperature sensor = f_of_Z 0.
Proof.
  apply (proj1 (scalar_message_resets_other_value (Scenario.ticking ns_per_second)
                  Scenario.no_text Scenario.stof_sample "sensors/sensor_003/humidity" "58.5"
                  Scenario.tracker)
           "sensor_003" []).
  - vm_compute. reflexivity.
  - vm_compute. reflexivity.
Defined.

(** ** The documented payload *)

Section Payload.
Import Parsing StringFacts.

Lemma strlen_nil : strlen "" = 0%N.
Proof. reflexivity. Qed.

Lemma strlen_cons (a : ascii) (s : string) : strlen (String a s) = N.succ (strlen s).
Proof. unfold strlen. cbn [String.length]. lia. Qed.

Lemma strlen_app (s t : string) : strlen (s +:+ t) = (strlen s + strlen t)%N.
Proof.
  induction s as [|a s IH]; [reflexivity|].
  rewrite string_app_cons, !strlen_cons, IH. lia.
Qed.

Lemma suffix_from_strlen (pre rest : string) :
  suffix_from (strlen pre) (pre +:+ rest) = Some rest.
Proof.
  induction pre as [|a pre IH].
  - destruct rest; reflexivity.
  - rewrite string_app_cons, strlen_cons. cbn [suffix_from].
    destruct (N.eqb_spec (N.succ (strlen pre)) 0) as [Hz|_]; [lia|].
    rewrite N.pred_succ. exact IH.
Qed.

Lemma take_chars_strlen (x rest : string) : take_chars (strlen x) (x +:+ rest) = x.
Proof.
  induction x as [|a x IH].
  - destruct rest; reflexivity.
  - rewrite string_app_cons, strlen_cons. cbn [take_chars].
    destruct (N.eqb_spec (N.succ (strlen x)) 0) as [Hz|_]; [lia|].
    rewrite N.pred_succ, IH. reflexivity.
Qed.

Lemma substr_decomposed (pre x rest : string) :
  substr (pre +:+ x +:+ rest) (strlen pre) (strlen x) = Some x.
Proof. unfold substr. rewrite suffix_from_strlen. cbn. rewrite take_chars_strlen. reflexivity. Qed.

Lemma first_match_here (P : string -> bool) (s : string) :
  P s = true -> first_match P s = Some 0%N.
Proof. intros HP. destruct s; cbn [first_match]; rewrite HP; reflexivity. Qed.

Lemma first_match_never (P : string -> bool) (mid rest : string) :
  never P mid rest ->
  first_match P (mid +:+ rest) = (fun i => (strlen mid + i)%N) <$> first_match P rest.
Proof.
  induction mid as [|a mid IH]; intros Hn.
  - rewrite string_app_nil_l. destruct (first_match P rest); reflexivity.
  - destruct Hn as [Ha Hn]. rewrite string_app_cons. cbn [first_match]. rewrite Ha.
    rewrite (IH Hn). destruct (first_match P rest); cbn; [|reflexivity].
    rewrite strlen_cons. f_equal. lia.
Qed.

Lemma find_if_decomposed (P : string -> bool) (pre mid rest : string) :
  never P mid rest -> P rest = true ->
  find_if P (pre +:+ mid +:+ rest) (strlen pre) = strlen (pre +:+ mid).
Proof.
  intros Hn HP. unfold find_if. rewrite suffix_from_strlen.
  rewrite (first_match_never P mid rest Hn), (first_match_here P rest HP). cbn.
  rewrite strlen_app. lia.
Qed.

Lemma never_app (P : string -> bool) (mid1 mid2 rest : string) :
  never P mid1 (mid2 +:+ rest) -> never P mid2 rest -> never P (mid1 +:+ mid2) rest.
Proof.
  induction mid1 as [|a mid1 IH]; intros H1 H2.
  - exact H2.
  - destruct H1 as [Ha H1]. rewrite string_app_cons. cbn [never].
    rewrite string_app_assoc. split; [exact Ha|]. apply IH; assumption.
Qed.

Lemma never_head_in (chars mid rest : string) :
  (forall a, char_in a mid = true -> char_in a chars = false) ->
  never (head_in chars) mid rest.
Proof.
  induction mid as [|a mid IH]; intros Hclean; cbn [never]; [exact I|].
  split.
  - cbn [head_in]. apply Hclean. cbn [char_in]. rewrite decide_True by reflexivity. reflexivity.
  - apply IH. intros b Hb. apply Hclean. cbn [char_in]. destruct (decide (b = a)); [reflexivity|exact Hb].
Qed.

Lemma never_prefix (c : ascii) (key mid rest : string) :
  char_in c mid = false -> never (String.prefix (String c key)) mid rest.
Proof.
  induction mid as [|a mid IH]; intros Hclean; cbn [never]; [exact I|].
  cbn [char_in] in Hclean. destruct (decide (c = a)) as [|Hne]; [discriminate|].
  split; [|apply IH; exact Hclean].
  cbn [String.prefix]. destruct (ascii_dec c a); [contradiction|reflexivity].
Qed.

Lemma char_in_one (a c : ascii) : char_in a (String c "") = true -> a = c.
Proof. cbn [char_in]. destruct (decide (a = c)); [done|discriminate]. Qed.

Lemma size_t_add_strlen (pos : N) :
  (pos < npos)%N -> size_t_add pos 1 = (pos + 1)%N.
Proof. unfold size_t_add, npos. intros Hp. apply N.mod_small. lia. Qed.

Lemma size_t_sub_strlen (a b : N) :
  (b <= a)%N -> (a < npos)%N -> size_t_sub a b = (a - b)%N.
Proof.
  unfold size_t_sub, npos. intros Hba Ha.
  rewrite Z.mod_small by lia. lia.
Qed.

Lemma prefix_app (key rest : string) : String.prefix key (key +:+ rest) = true.
Proof.
  induction key as [|a key IH]; [destruct rest; reflexivity|].
  rewrite string_app_cons. cbn [String.prefix].
  destruct (ascii_dec a a); [exact IH|contradiction].
Qed.

Lemma find_decomposed (c : ascii) (key mid rest : string) :
  never (String.prefix (String c key)) mid (String c key +:+ rest) ->
  find (mid +:+ String c key +:+ rest) (String c key) 0 = strlen mid.
Proof.
  intros Hn. unfold find.
  apply (find_if_decomposed _ "" mid (String c key +:+ rest) Hn (prefix_app _ _)).
Qed.

Section Texts.
Context {F : Type} `{FloatOps F}.

(** The number behind a key: [json] is [pre], the key without its colon,
    the colon, the text [x] and a terminator [c]. *)
Lemma number_text_decomposed (pre key x : string) (c : ascii) (rest : string) :
  let json := pre +:+ key +:+ String ":" (x +:+ String c rest) in
  char_in ":" key = false ->
  (forall a, char_in a x = true -> char_in a ",}" = false) ->
  char_in c ",}" = true ->
  (strlen json < npos)%N ->
  number_text json (strlen pre) = Some x.
Proof.
  cbv zeta. intros Hkey Hx Hc Hlen. unfold number_text, find_char, find_first_of.
  rewrite (find_if_decomposed (head_in ":") pre key (String ":" (x +:+ String c rest))).
  2:{ apply never_head_in. intros a Ha. cbn [char_in].
      destruct (decide (a = ":"%char)) as [->|_]; [congruence|reflexivity]. }
  2:{ reflexivity. }
  rewrite !strlen_app, strlen_cons, !strlen_app, strlen_cons in Hlen.
  rewrite size_t_add_strlen by (rewrite strlen_app; lia).
  replace (strlen (pre +:+ key) + 1)%N with (strlen ((pre +:+ key) +:+ ":"))
    by (rewrite strlen_app; reflexivity).
  replace (pre +:+ key +:+ String ":" (x +:+ String c rest))
    with (((pre +:+ key) +:+ ":") +:+ x +:+ String c rest)
    by (rewrite !string_app_assoc; reflexivity).
  rewrite (find_if_decomposed (head_in ",}") ((pre +:+ key) +:+ ":") x (String c rest)).
  2:{ apply never_head_in. exact Hx. }
  2:{ exact Hc. }
  rewrite size_t_sub_strlen.
  2:{ rewrite !strlen_app. lia. }
  2:{ rewrite !strlen_app. change (strlen ":") with 1%N. lia. }
  replace (strlen (((pre +:+ key) +:+ ":") +:+ x) - strlen ((pre +:+ key) +:+ ":"))%N
    with (strlen x) by (rewrite (strlen_app _ x); lia).
  apply substr_decomposed.
Qed.

(** The text behind a key: [json] is [pre], the key without its colon, the
    colon, some text [ws] and the quoted text [x]. *)
Lemma quoted_text_decomposed (pre key ws x rest : string) :
  let json := pre +:+ key +:+ String ":" (ws +:+ String dquote (x +:+ String dquote rest)) in
  char_in ":" key = false ->
  char_in dquote ws = false ->
  char_in dquote x = false ->
  (strlen json < npos)%N ->
  quoted_text json (strlen pre) = Some x.
Proof.
  cbv zeta. intros Hkey Hws Hx Hlen. unfold quoted_text, find_char.
  rewrite (find_if_decomposed (head_in ":") pre key
             (String ":" (ws +:+ String dquote (x +:+ String dquote rest)))).
  2:{ apply never_head_in. intros a Ha. cbn [char_in].
      destruct (decide (a = ":"%char)) as [->|_]; [congruence|reflexivity]. }
  2:{ reflexivity. }
  rewrite !strlen_app, strlen_cons, !strlen_app, strlen_cons, !strlen_app, strlen_cons in Hlen.
  replace (pre +:+ key +:+ String ":" (ws +:+ String dquote (x +:+ String dquote rest)))
    with ((pre +:+ key) +:+ (String ":" ws) +:+ String dquote (x +:+ String dquote rest))
    by (rewrite !string_app_assoc; reflexivity).
  rewrite (find_if_decomposed (head_in (String dquote "")) (pre +:+ key) (String ":" ws)
             (String dquote (x +:+ String dquote rest))).
  2:{ apply never_head_in. intros a Ha. cbn [char_in].
      destruct (decide (a = dquote)) as [->|_]; [|reflexivity].
      cbn [char_in] in Ha. rewrite decide_False in Ha by discriminate. congruence. }
  2:{ cbn [head_in char_in]. rewrite decide_True by reflexivity. reflexivity. }
  rewrite size_t_add_strlen.
  2:{ rewrite !strlen_app, strlen_cons. lia. }
  replace (strlen ((pre +:+ key) +:+ String ":" ws) + 1)%N
    with (strlen (((pre +:+ key) +:+ String ":" ws) +:+ String dquote ""))
    by (rewrite (strlen_app _ (String dquote "")); reflexivity).
  replace ((pre +:+ key) +:+ String ":" ws +:+ String dquote (x +:+ String dquote rest))
    with ((((pre +:+ key) +:+ String ":" ws) +:+ String dquote "")
          +:+ x +:+ String dquote rest)
    by (rewrite !string_app_assoc; reflexivity).
  rewrite (find_if_decomposed (head_in (String dquote ""))
             (((pre +:+ key) +:+ String ":" ws) +:+ String dquote "") x
             (String dquote rest)).
  2:{ apply never_head_in. intros a Ha. cbn [char_in].
      destruct (decide (a = dquote)) as [->|_]; [congruence|reflexivity]. }
  2:{ cbn [head_in char_in]. rewrite decide_True by reflexivity. reflexivity. }
  rewrite size_t_sub_strlen.
  2:{ rewrite !strlen_app. lia. }
  2:{ rewrite !strlen_app, !strlen_cons, strlen_nil. lia. }
  replace (strlen ((((pre +:+ key) +:+ String ":" ws) +:+ String dquote "") +:+ x)
           - strlen (((pre +:+ key) +:+ String ":" ws) +:+ String dquote ""))%N
    with (strlen x) by (rewrite (strlen_app _ x); lia).
  apply substr_decomposed.
Qed.

End Texts.

End Payload.
Section DocumentedPayload.
Import Parsing StringFacts.
Context {F : Type} `{FloatOps F}.
Variable stof : string -> option F.
Variables temperature humidity location : string.

Hypothesis temperature_clean :
  char_in "," temperature = false /\ char_in "}" temperature = false
  /\ char_in dquote temperature = false.
Hypothesis humidity_clean :
  char_in "," humidity = false /\ char_in "}" humidity = false
  /\ char_in dquote humidity = false.
Hypothesis location_clean : char_in dquote location = false.
Hypothesis payload_fits : (strlen (sensor_json temperature humidity location) < npos)%N.

(** The payload up to the humidity key, and up to the location key. *)
Local Abbreviation before_humidity :=
  ("{" +:+ temperature_key +:+ " " +:+ temperature +:+ ", ").
Local Abbreviation before_location :=
  ("{" +:+ temperature_key +:+ " " +:+ temperature +:+ ", "
   +:+ humidity_key +:+ " " +:+ humidity +:+ ", ").

Lemma number_chars_clean (x : string) :
  char_in "," x = false -> char_in "}" x = false ->
  forall a, char_in a (" " +:+ x) = true -> char_in a ",}" = false.
Proof.
  intros Hc Hb a Ha. rewrite char_in_app in Ha. cbn [char_in].
  destruct (decide (a = ","%char)) as [->|_].
  { rewrite Hc, orb_false_r in Ha. discriminate. }
  destruct (decide (a = "}"%char)) as [->|_]; [|reflexivity].
  rewrite Hb, orb_false_r in Ha. discriminate.
Qed.

Lemma payload_temperature_key :
  find (sensor_json temperature humidity location) temperature_key 0 = strlen "{".
Proof.
  unfold sensor_json, temperature_key.
  apply (find_decomposed dquote _ "{"). split; [reflexivity|exact I].
Qed.

Lemma payload_humidity_key :
  find (sensor_json temperature humidity location) humidity_key 0 = strlen before_humidity.
Proof.
  destruct temperature_clean as (_ & _ & Hq).
  replace (sensor_json temperature humidity location)
    with (before_humidity +:+ humidity_key
          +:+ " " +:+ humidity +:+ ", " +:+ location_key +:+ " "
          +:+ String dquote (location +:+ String dquote "}"))
    by (unfold sensor_json; rewrite !string_app_assoc; reflexivity).
  unfold humidity_key at 1 2. apply (find_decomposed dquote).
  apply (never_app _ "{"); [vm_compute; repeat split|].
  apply (never_app _ temperature_key); [vm_compute; repeat split|].
  apply (never_app _ " "); [vm_compute; repeat split|].
  apply (never_app _ temperature); [apply never_prefix; exact Hq|].
  vm_compute; repeat split.
Qed.

Lemma payload_location_key :
  find (sensor_json temperature humidity location) location_key 0 = strlen before_location.
Proof.
  destruct temperature_clean as (_ & _ & Hqt). destruct humidity_clean as (_ & _ & Hqh).
  replace (sensor_json temperature humidity location)
    with (before_location +:+ location_key +:+ " "
          +:+ String dquote (location +:+ String dquote "}"))
    by (unfold sensor_json; rewrite !string_app_assoc; reflexivity).
  unfold location_key at 1 2. apply (find_decomposed dquote).
  apply (never_app _ "{"); [vm_compute; repeat split|].
  apply (never_app _ temperature_key); [vm_compute; repeat split|].
  apply (never_app _ " "); [vm_compute; repeat split|].
  apply (never_app _ temperature); [apply never_prefix; exact Hqt|].
  apply (never_app _ ", "); [vm_compute; repeat split|].
  apply (never_app _ humidity_key); [vm_compute; repeat split|].
  apply (never_app _ " "); [vm_compute; repeat split|].
  apply (never_app _ humidity); [apply never_prefix; exact Hqh|].
  vm_compute; repeat split.
Qed.

Lemma payload_temperature_text :
  number_text (sensor_json temperature humidity location) (strlen "{")
  = Some (" " +:+ temperature).
Proof.
  destruct temperature_clean as (Hc & Hb & _).
  apply (number_text_decomposed "{" (String dquote ("temperature" +:+ String dquote ""))
           (" " +:+ temperature) ","
           (" " +:+ humidity_key +:+ " " +:+ humidity +:+ ", " +:+ location_key +:+ " "
            +:+ String dquote (location +:+ String dquote "}"))).
  - reflexivity.
  - apply number_chars_clean; assumption.
  - reflexivity.
  - exact payload_fits.
Qed.

Lemma payload_humidity_text :
  number_text (sensor_json temperature humidity location) (strlen before_humidity)
  = Some (" " +:+ humidity).
Proof.
  destruct humidity_clean as (Hc & Hb & _).
  assert (Hjson : sensor_json temperature humidity location
                  = before_humidity +:+ String dquote ("humidity" +:+ String dquote "")
                    +:+ String ":" ((" " +:+ humidity)
                          +:+ String "," (" " +:+ location_key +:+ " "
                                +:+ String dquote (location +:+ String dquote "}")))).
  { unfold sensor_json. rewrite !string_app_assoc. reflexivity. }
  pose proof payload_fits as Hfits. rewrite Hjson in Hfits |- *.
  apply number_text_decomposed.
  - reflexivity.
  - apply number_chars_clean; assumption.
  - reflexivity.
  - exact Hfits.
Qed.

Lemma payload_location_text :
  quoted_text (sensor_json temperature humidity location) (strlen before_location)
  = Some location.
Proof.
  assert (Hjson : sensor_json temperature humidity location
                  = before_location +:+ String dquote ("location" +:+ String dquote "")
                    +:+ String ":" (" " +:+ String dquote (location +:+ String dquote "}"))).
  { unfold sensor_json. rewrite !string_app_assoc. reflexivity. }
  pose proof payload_fits as Hfits. rewrite Hjson in Hfits |- *.
  apply quoted_text_decomposed.
  - reflexivity.
  - reflexivity.
  - exact location_clean.
  - exact Hfits.
Qed.

Lemma payload_positions :
  strlen "{" <> npos /\ strlen before_humidity <> npos /\ strlen before_location <> npos.
Proof.
  pose proof payload_fits as Hfits.
  replace (sensor_json temperature humidity location)
    with (before_location +:+ location_key +:+ " "
          +:+ String dquote (location +:+ String dquote "}")) in Hfits
    by (unfold sensor_json; rewrite !string_app_assoc; reflexivity).
  rewrite !strlen_app in Hfits. rewrite !strlen_app.
  split; [discriminate|]. split; lia.
Qed.

Lemma parse_documented_payload (reading : SensorReading.t F) :
  parse_json_sensor_data stof (sensor_json temperature humidity location) reading
  = (t ← stof (" " +:+ temperature);
     h ← stof (" " +:+ humidity);
     Some (SensorReading.mk (SensorReading.sensor_id reading) t h location)).
Proof.
  destruct payload_positions as (Ht & Hh & Hl).
  unfold parse_json_sensor_data.
  rewrite payload_temperature_key, payload_humidity_key, payload_location_key.
  rewrite !decide_True by assumption.
  rewrite payload_temperature_text, payload_humidity_text, payload_location_text.
  cbn [mbind option_bind].
  destruct (stof (" " +:+ temperature)); [|reflexivity].
  destruct (stof (" " +:+ humidity)); reflexivity.
Qed.

End DocumentedPayload.

(** X15.  A payload in the documented format is parsed back into its
    parts: for [{"temperature": T, "humidity": H, "location": "L"}], where
    the texts [T] and [H] contain no comma, closing brace or double quote
    and [L] no double quote, [parse_json_sensor_data] converts with
    [std::stof] the text behind each of the two colons up to the comma
    (the blank and [T], the blank and [H]) and takes [L] as the location; it
    yields no reading exactly when one of the two conversions throws. *)
Theorem documented_payload_parses {F : Type} `{FloatOps F} (stof : string -> option F)
    (temperature humidity location : string) (reading : SensorReading.t F) :
  char_in "," temperature = false /\ char_in "}" temperature = false
  /\ char_in dquote temperature = false ->
  char_in "," humidity = false /\ char_in "}" humidity = false
  /\ char_in dquote humidity = false ->
  char_in dquote location = false ->
  (StringFacts.strlen (StringFacts.sensor_json temperature humidity location) < npos)%N ->
  Parsing.parse_json_sensor_data stof
    (StringFacts.sensor_json temperature humidity location) reading
  = match stof (" " +:+ temperature), stof (" " +:+ humidity) with
    | Some t, Some h => Some (SensorReading.mk (SensorReading.sensor_id reading) t h location)
    | _, _ => None
    end.
Proof.
  intros Ht Hh Hl Hfits.
  rewrite (parse_documented_payload stof temperature humidity location Ht Hh Hl Hfits).
  destruct (stof (" " +:+ temperature)); [|reflexivity].
  destruct (stof (" " +:+ humidity)); reflexivity.
Qed.

(** The data message of [test_message_parsing]. *)
Lemma documented_payload_of_the_test :
  Parsing.parse_json_sensor_data Scenario.stof_sample
    (StringFacts.sensor_json "25.5" "60.2" "room1") (SensorReading.mk "sensor_001" (f_of_Z 0) (f_of_Z 0) "")
  = match Scenario.stof_sample (" " +:+ "25.5"), Scenario.stof_sample (" " +:+ "60.2") with
    | Some t, Some h => Some (SensorReading.mk "sensor_001" t h "room1")
    | _, _ => None
    end.
Proof.
  apply (documented_payload_parses Scenario.stof_sample "25.5" "60.2" "room1"
           (SensorReading.mk "sensor_001" (f_of_Z 0) (f_of_Z 0) "")).
  - vm_compute. repeat split.
  - vm_compute. repeat split.
  - vm_compute. reflexivity.
  - vm_compute. reflexivity.
Defined.

(** ** The queue of the processor *)

Section ProcessorQueue.
Import DataProcessor ProcessorSpec ProcessorQueries.
Context {F : Type} `{FloatOps F}.
Variable clk : nat -> time_point.

Lemma processor_run_call_queue (st : state F) c :
  processing_queue_ st ++ option_list (enqueued st c)
  = option_list (dequeued st c) ++ processing_queue_ (run_call clk st c).
Proof.
  destruct c; cbn [run_call enqueued dequeued option_list];
    rewrite ?get_sensor_statistics_exec, ?app_nil_r; try reflexivity.
  - unfold process_packet, exec, bind, get. cbn [fst snd].
    destruct (running_ st); cbn [negb andb]; [|rewrite app_nil_r; reflexivity].
    rewrite N.ltb_antisym.
    destruct (_ <=? _)%N; cbn [negb option_list]; [rewrite app_nil_r|]; reflexivity.
  - pose proof (worker_step_core clk st) as Hc. unfold dequeued in Hc |- *.
    destruct (running_ st).
    + destruct (processing_queue_ st) as [|p rest] eqn:Hq; cbn [head] in Hc |- *.
      * unfold core in Hc. injection Hc as _ _ -> _ _ _ _ _. rewrite Hq. reflexivity.
      * unfold core in Hc. injection Hc as _ _ -> _ _ _ _ _. reflexivity.
    + unfold core in Hc. injection Hc as _ _ -> _ _ _ _ _. reflexivity.
Qed.

Lemma processor_run_queue calls : forall st : state F,
  processing_queue_ st ++ accepted clk st calls
  = processed clk st calls ++ processing_queue_ (run clk st calls).
Proof.
  induction calls as [|c calls IH]; intros st.
  - cbn. rewrite app_nil_r. reflexivity.
  - cbn [accepted processed]. change (run clk st (c :: calls))
      with (run clk (run_call clk st c) calls).
    rewrite app_assoc, processor_run_call_queue, <- !app_assoc. f_equal. apply IH.
Qed.

End ProcessorQueue.

(** X16.  The queue is first in, first out and loses nothing: at every
    point of a run the packets that the workers have taken, followed by the
    packets still queued, are the packets that were queued at the start
    followed by those that [process_packet] has accepted since, in the same
    order.  On a new processor the packets taken so far are a prefix of the
    packets accepted. *)
Theorem queue_first_in_first_out {F : Type} `{FloatOps F} (clk : nat -> Z)
    (calls : list (ProcessorSpec.call (F := F))) :
  (forall st : DataProcessor.state F,
     ProcessorSpec.processed clk st calls
       ++ DataProcessor.processing_queue_ (ProcessorSpec.run clk st calls)
     = DataProcessor.processing_queue_ st ++ ProcessorQueries.accepted clk st calls)
  /\ (forall config : RPi4GatewayConfig.t F,
        let st := DataProcessor.create config in
        ProcessorSpec.processed clk st calls
          ++ DataProcessor.processing_queue_ (ProcessorSpec.run clk st calls)
        = ProcessorQueries.accepted clk st calls).
Proof.
  split.
  - intros st. symmetry. apply processor_run_queue.
  - intros config. cbv zeta. rewrite <- processor_run_queue. reflexivity.
Qed.

(** X17.  A processor that is not running does nothing: [process_packet]
    drops the packet and a worker takes none, both leaving the whole state
    as it is.  [stop] keeps the queue, so on a running processor [stop]
    followed by [start] is the identity: the packets queued before the stop
    are still queued afterwards, and a packet submitted in between is
    lost. *)
Theorem stopped_processor_is_inert {F : Type} `{FloatOps F} (clk : nat -> Z)
    (st : DataProcessor.state F) (packet : SensorDataPacket.t F) :
  (DataProcessor.running_ st = false ->
   DataProcessor.process_packet packet st = (tt, st)
   /\ DataProcessor.worker_step clk st = (tt, st))
  /\ (DataProcessor.running_ st = true ->
      ProcessorSpec.run clk st
        [ProcessorSpec.Stop; ProcessorSpec.ProcessPacket packet; ProcessorSpec.WorkerStep;
         ProcessorSpec.Start]
      = st).
Proof.
  split.
  - intros Hrun. unfold DataProcessor.process_packet, DataProcessor.worker_step, bind, get.
    rewrite Hrun. split; reflexivity.
  - intros Hrun. destruct st. cbn in Hrun. subst. reflexivity.
Qed.

(** A processor that was never started. *)
Lemma new_processor_is_inert :
  DataProcessor.process_packet (Scenario.packet 22 1000 true) Scenario.processor
  = (tt, Scenario.processor)
  /\ DataProcessor.worker_step Scenario.still_clock Scenario.processor
     = (tt, Scenario.processor).
Proof.
  apply (proj1 (stopped_processor_is_inert Scenario.still_clock Scenario.processor
                  (Scenario.packet 22 1000 true))).
  reflexivity.
Defined.

(** ** The statistics of the processor *)

Ltac frame_steps := repeat first [ (intros ? ?; assumption) | preserve_step ].

Ltac unfold_processing :=
  unfold DataProcessor.store_in_history, DataProcessor.check_alerts,
    DataProcessor.perform_edge_analytics, DataProcessor.forward_packet,
    DataProcessor.periodic_aggregation, DataProcessor.aggregate_and_forward,
    DataProcessor.aggregate_sensor, DataProcessor.format_aggregated_data.

Section ProcessorStatistics.
Import DataProcessor ProcessorSpec ProcessorQueries.
Context {F : Type} `{FloatOps F}.
Variable clk : nat -> time_point.

Lemma process_packet_internal_stats (st : state F) packet :
  SensorDataPacket.is_valid packet = true ->
  sensor_stats_ (exec (process_packet_internal clk packet) st)
  = <[SensorDataPacket.sensor_id packet :=
        statistics_after (sensor_stats_ st !! SensorDataPacket.sensor_id packet) packet]>
      (sensor_stats_ st).
Proof.
  intros Hv. unfold process_packet_internal. rewrite Hv. cbn [negb].
  rewrite exec_bind.
  set (s1 := exec (update_statistics packet) st).
  match goal with
  | |- sensor_stats_ (exec ?rest s1) = _ =>
      assert (Hrest : preserves (fun s => sensor_stats_ s = sensor_stats_ s1) rest)
  end.
  { unfold_processing. frame_steps. }
  rewrite (Hrest s1 eq_refl).
  unfold s1, update_statistics, exec, bind, get, set_sensor_stats, statistics_after.
  cbn [fst snd sensor_stats_]. rewrite Hv. reflexivity.
Qed.

Lemma processor_run_call_stats (st : state F) c id :
  sensor_stats_ (run_call clk st c) !! id
  = match dequeued st c with
    | Some p =>
        if decide (SensorDataPacket.is_valid p = true /\ SensorDataPacket.sensor_id p = id)
        then Some (statistics_after (sensor_stats_ st !! id) p)
        else sensor_stats_ st !! id
    | None => sensor_stats_ st !! id
    end.
Proof.
  destruct c; cbn [run_call dequeued]; rewrite ?get_sensor_statistics_exec; try reflexivity.
  - unfold process_packet, exec, bind, get. cbn [fst snd].
    destruct (negb (running_ st)); [reflexivity|]. destruct (_ <=? _)%N; reflexivity.
  - unfold worker_step. rewrite exec_bind. cbn [get exec eval fst snd].
    destruct (running_ st); cbn [negb]; [|reflexivity].
    destruct (processing_queue_ st) as [|p rest]; cbn [head]; [reflexivity|].
    change (snd ((set_processing_queue rest ;; process_packet_internal clk p) st))
      with (exec (set_processing_queue rest ;; process_packet_internal clk p) st).
    rewrite exec_bind.
    destruct (SensorDataPacket.is_valid p) eqn:Hv.
    + rewrite process_packet_internal_stats by exact Hv.
      unfold exec at 1 2, set_processing_queue. cbn [fst snd sensor_stats_].
      destruct (decide (SensorDataPacket.sensor_id p = id)) as [<-|Hne].
      * rewrite lookup_insert_eq, decide_True by done. reflexivity.
      * rewrite lookup_insert_ne, decide_False by tauto. reflexivity.
    + unfold exec at 1. rewrite process_packet_internal_invalid by exact Hv.
      rewrite decide_False; [reflexivity|]. intros [? _]. discriminate.
Qed.

Lemma statistics_after_first (id : string) (p : SensorDataPacket.t F) :
  SensorDataPacket.sensor_id p = id ->
  counts id [p] (statistics_after None p).
Proof.
  intros <-. unfold counts, statistics_after. cbn [default SensorStatistics.zero
    SensorStatistics.sensor_id]. rewrite decide_True by reflexivity.
  cbn. repeat split.
Qed.

Lemma statistics_after_next (id : string) (stored : list (SensorDataPacket.t F))
    (stats : SensorStatistics.t F) (p : SensorDataPacket.t F) :
  id <> "" -> stored <> [] -> counts id stored stats ->
  counts id (stored ++ [p]) (statistics_after (Some stats) p).
Proof.
  intros Hid Hne (Hs & Ht & Hv & He & Hf & Hl & Hmin & Hmax).
  unfold counts, statistics_after.
  change (default SensorStatistics.zero (Some stats)) with stats.
  rewrite decide_False by (rewrite Hs; exact Hid).
  cbn [SensorStatistics.sensor_id SensorStatistics.total_packets
       SensorStatistics.valid_packets SensorStatistics.error_packets
       SensorStatistics.first_seen SensorStatistics.last_update
       SensorStatistics.min_temperature SensorStatistics.max_temperature].
  rewrite length_app, fmap_app, !fold_left_app, last_snoc. cbn [length fmap list_fmap fold_left].
  assert (Hwrap : forall n, wrap64 (wrap64 (Z.of_nat n) + 1) = wrap64 (Z.of_nat (n + 1))).
  { intros n. unfold wrap64. rewrite Z.add_mod_idemp_l by lia. f_equal. lia. }
  destruct stored as [|p0 stored]; [done|].
  cbn [app head fmap list_fmap default option_fmap option_map] in *.
  rewrite Ht, Hv, Hmin, Hmax, Hwrap.
  repeat split; assumption.
Qed.

Lemma statistics_count_of_run (config : RPi4GatewayConfig.t F) calls id :
  id <> "" ->
  match sensor_stats_ (run clk (create config) calls) !! id with
  | None => stored_for id (processed clk (create config) calls) = []
  | Some stats =>
      stored_for id (processed clk (create config) calls) <> []
      /\ counts id (stored_for id (processed clk (create config) calls)) stats
  end.
Proof.
  intros Hid. induction calls as [|c calls IH] using rev_ind.
  - cbn. rewrite lookup_empty. reflexivity.
  - rewrite processor_run_snoc, processor_run_call_stats, processed_snoc, stored_for_snoc.
    destruct (dequeued _ c) as [p|]; [|rewrite app_nil_r; exact IH].
    destruct (decide _) as [[Hv Hp]|_]; [|rewrite app_nil_r; exact IH].
    destruct (sensor_stats_ _ !! id) as [stats|].
    + destruct IH as [Hne Hc]. split; [intros Hnil; apply app_eq_nil in Hnil as [_ [=]]|].
      apply statistics_after_next; assumption.
    + rewrite IH. split; [discriminate|]. apply statistics_after_first. exact Hp.
Qed.

End ProcessorStatistics.



(** X19.  A sensor whose id is the empty string is counted anew with every
    packet: [update_statistics] takes an entry with an empty [sensor_id] for
    a new one, so the entry of the empty id always shows one packet,
    received at the time of the last one. *)
Theorem empty_sensor_id_restarts_statistics {F : Type} `{FloatOps F} (clk : nat -> Z)
    (config : RPi4GatewayConfig.t F) (calls : list (ProcessorSpec.call (F := F))) :
  forall stats,
    DataProcessor.sensor_stats_ (ProcessorSpec.run clk (DataProcessor.create config) calls) !! ""
    = Some stats ->
    SensorStatistics.sensor_id stats = ""
    /\ SensorStatistics.total_packets stats = 1
    /\ SensorStatistics.valid_packets stats = 1
    /\ SensorStatistics.first_seen stats = SensorStatistics.last_update stats.
Proof.
  induction calls as [|c calls IH] using rev_ind; intros stats.
  - cbn. rewrite lookup_empty. discriminate.
  - rewrite processor_run_snoc, processor_run_call_stats.
    destruct (ProcessorSpec.dequeued _ c) as [p|]; [|apply IH].
    destruct (decide _) as [[Hv Hp]|_]; [|apply IH].
    intros [= <-]. unfold ProcessorQueries.statistics_after.
    destruct (DataProcessor.sensor_stats_ _ !! "") as [previous|].
    + destruct (IH previous eq_refl) as (Hid & _).
      change (default SensorStatistics.zero (Some previous)) with previous.
      rewrite decide_True by exact Hid. cbn. rewrite Hp. repeat split.
    + change (default SensorStatistics.zero None) with (@SensorStatistics.zero F _).
      cbn. rewrite Hp. repeat split.
Qed.

(** Two packets without a sensor id: the second is counted as the first. *)
Lemma unnamed_sensor_counted_once :
  let stats :=
    default SensorStatistics.zero
      (DataProcessor.sensor_stats_
         (ProcessorSpec.run Scenario.still_clock Scenario.processor Scenario.unnamed_calls)
         !! "") in
  SensorStatistics.sensor_id stats = ""
  /\ SensorStatistics.total_packets stats = 1
  /\ SensorStatistics.valid_packets stats = 1
  /\ SensorStatistics.first_seen stats = SensorStatistics.last_update stats.
Proof.
  cbv zeta.
  apply (empty_sensor_id_restarts_statistics Scenario.still_clock RPi4GatewayConfig.default
           Scenario.unnamed_calls).
  vm_compute. reflexivity.
Defined.

Section ExactAverages.
Import DataProcessor ProcessorSpec ProcessorQueries.
Local Open Scope Q_scope.

Lemma wrap64_small (z : Z) : (0 <= z < 2 ^ 64)%Z -> wrap64 z = z.
Proof. intros Hz. unfold wrap64. apply Z.mod_small. exact Hz. Qed.

(** One step of the running average, in exact arithmetic. *)
Lemma running_average_step (avg sum x : Q) (n : Z) :
  (0 <= n)%Z -> (n + 1 < 2 ^ 64)%Z ->
  avg * inject_Z n == sum ->
  (avg * inject_Z (wrap64 (wrap64 (n + 1) - 1)) + x) / inject_Z (wrap64 (n + 1))
    * inject_Z (n + 1)
  == sum + x.
Proof.
  intros Hn Hbound Havg.
  rewrite (wrap64_small (n + 1)) by lia.
  replace (n + 1 - 1)%Z with n by lia. rewrite (wrap64_small n) by lia.
  rewrite Havg. field.
  change 0 with (inject_Z 0). rewrite inject_Z_injective. lia.
Qed.

Lemma statistics_after_average (id : string) (stored : list (SensorDataPacket.t Q))
    (previous : option (SensorStatistics.t Q)) (p : SensorDataPacket.t Q) :
  id <> "" ->
  (Z.of_nat (length stored) + 1 < 2 ^ 64)%Z ->
  match previous with
  | None => stored = []
  | Some stats =>
      stored <> [] /\ counts id stored stats
      /\ SensorStatistics.avg_temperature stats * inject_Z (Z.of_nat (length stored))
         == accumulate (SensorDataPacket.temperature_celsius <$> stored) 0
      /\ SensorStatistics.avg_humidity stats * inject_Z (Z.of_nat (length stored))
         == accumulate (SensorDataPacket.humidity_percent <$> stored) 0
  end ->
  let stats' := statistics_after previous p in
  SensorStatistics.avg_temperature stats' * inject_Z (Z.of_nat (length (stored ++ [p])))
  == accumulate (SensorDataPacket.temperature_celsius <$> (stored ++ [p])) 0
  /\ SensorStatistics.avg_humidity stats' * inject_Z (Z.of_nat (length (stored ++ [p])))
     == accumulate (SensorDataPacket.humidity_percent <$> (stored ++ [p])) 0.
Proof.
  intros Hid Hbound Hprev. cbv zeta.
  rewrite length_app, !fmap_app. cbn [length fmap list_fmap]. rewrite !accumulate_snoc_Q.
  replace (Z.of_nat (length stored + 1)) with (Z.of_nat (length stored) + 1)%Z by lia.
  unfold statistics_after.
  destruct previous as [stats|].
  - destruct Hprev as (Hne & (Hs & _ & Hv & _) & Ht & Hh).
    change (default SensorStatistics.zero (Some stats)) with stats.
    rewrite decide_False by (rewrite Hs; exact Hid).
    cbn [SensorStatistics.avg_temperature SensorStatistics.avg_humidity].
    rewrite Hv. rewrite (wrap64_small (Z.of_nat (length stored))) by lia.
    cbn [f_of_Z fadd fmul fdiv Q_ops].
    split; apply running_average_step; try lia; assumption.
  - subst stored.
    change (default SensorStatistics.zero None) with (@SensorStatistics.zero Q _).
    cbn [SensorStatistics.zero SensorStatistics.sensor_id]. rewrite decide_True by reflexivity.
    cbn [SensorStatistics.avg_temperature SensorStatistics.avg_humidity
         SensorStatistics.valid_packets length].
    cbn [f_of_Z fadd fmul fdiv Q_ops].
    change (accumulate (@nil Q) 0) with 0.
    split; apply (running_average_step _ 0 _ 0); try lia; ring.
Qed.

End ExactAverages.



(** ** Alerts and trend results of the processor *)

Section ProcessorAlerts.
Import DataProcessor ProcessorSpec ProcessorQueries.
Context {F : Type} `{FloatOps F}.
Variable clk : nat -> time_point.

Lemma raise_alerts_exec id (alerts : list (PacketAlert F)) : forall st : state F,
  alerts_raised_ (exec (for_each alerts (raise_alert id)) st)
  = alerts_raised_ st ++ ((fun alert => (id, alert)) <$> alerts).
Proof.
  induction alerts as [|a alerts IH]; intros st.
  - cbn. rewrite app_nil_r. reflexivity.
  - rewrite exec_for_each_cons, IH. unfold exec at 1, raise_alert.
    cbn [snd alerts_raised_ fmap list_fmap]. rewrite <- app_assoc. reflexivity.
Qed.

Lemma process_packet_internal_alerts (st : state F) packet :
  alerts_raised_ (exec (process_packet_internal clk packet) st)
  = alerts_raised_ st ++ raised_by (config_ st) packet.
Proof.
  unfold raised_by. destruct (SensorDataPacket.is_valid packet) eqn:Hv.
  2:{ unfold exec. rewrite process_packet_internal_invalid by exact Hv.
      rewrite app_nil_r. reflexivity. }
  unfold process_packet_internal. rewrite Hv. cbn [negb].
  rewrite exec_bind, exec_bind, exec_bind.
  set (s2 := exec (store_in_history packet) (exec (update_statistics packet) st)).
  assert (H2 : alerts_raised_ s2 = alerts_raised_ st /\ config_ s2 = config_ st).
  { unfold s2, store_in_history, update_statistics, exec, bind, get, set_sensor_history,
      set_sensor_stats. cbn. split; reflexivity. }
  destruct H2 as [Ha Hc].
  set (s3 := exec (check_alerts packet) s2).
  assert (H3 : alerts_raised_ s3
               = alerts_raised_ st
                 ++ ((fun alert => (SensorDataPacket.sensor_id packet, alert))
                       <$> packet_alerts (config_ st) packet)).
  { unfold s3, check_alerts. rewrite exec_bind. cbn [eval exec get fst snd].
    change (snd (for_each ?l ?b ?s)) with (exec (for_each l b) s).
    rewrite raise_alerts_exec, Ha, Hc. reflexivity. }
  match goal with
  | |- alerts_raised_ (exec ?rest s3) = _ =>
      assert (Hrest : preserves (fun s => alerts_raised_ s = alerts_raised_ s3) rest)
  end.
  { unfold_processing. frame_steps. }
  rewrite (Hrest s3 eq_refl). exact H3.
Qed.

Lemma processor_run_call_alerts (st : state F) c :
  alerts_raised_ (run_call clk st c)
  = alerts_raised_ st ++ flat_map (raised_by (config_ st)) (option_list (dequeued st c)).
Proof.
  destruct c; cbn [run_call dequeued option_list flat_map];
    rewrite ?get_sensor_statistics_exec, ?app_nil_r; try reflexivity.
  - unfold process_packet, exec, bind, get. cbn [fst snd].
    destruct (negb (running_ st)); [reflexivity|]. destruct (_ <=? _)%N; reflexivity.
  - unfold worker_step. rewrite exec_bind. cbn [get exec eval fst snd].
    destruct (running_ st); cbn [negb]; [|rewrite app_nil_r; reflexivity].
    destruct (processing_queue_ st) as [|p rest]; cbn [head option_list flat_map];
      [rewrite app_nil_r; reflexivity|].
    change (snd ((set_processing_queue rest ;; process_packet_internal clk p) st))
      with (exec (set_processing_queue rest ;; process_packet_internal clk p) st).
    rewrite exec_bind, process_packet_internal_alerts.
    change (flat_map ?f (option_list (Some p))) with (f p ++ []).
    rewrite app_nil_r. reflexivity.
Qed.

End ProcessorAlerts.


Section EdgeResults.
Import DataProcessor ProcessorSpec ProcessorQueries.
Context {F : Type} `{FloatOps F}.
Variable clk : nat -> time_point.

Lemma trend_analysis_well_formed packet history t (result : EdgeProcessingResult.t F) :
  trend_analysis packet history t = Some result -> well_formed_result result.
Proof.
  unfold trend_analysis. destruct (_ <? _)%N; [discriminate|].
  destruct (linear_regression _) as [slope intercept]. intros [= <-].
  unfold well_formed_result.
  cbn [EdgeProcessingResult.analysis_type EdgeProcessingResult.alerts
       EdgeProcessingResult.recommendations EdgeProcessingResult.confidence_score
       EdgeProcessingResult.metrics].
  split; [reflexivity|]. split; [rewrite !length_fmap; reflexivity|].
  split.
  { rewrite length_fmap, length_app.
    destruct (fgt (fabs slope) f_half); destruct (fgt slope (f_of_Z 0));
    destruct (fgt (SensorDataPacket.humidity_percent packet) (f_of_Z 70)); cbn; lia. }
  split.
  { unfold fmin. destruct (flt _ (f_of_Z 1)) eqn:Hlt; [right; exact Hlt|left; reflexivity]. }
  rewrite !dom_insert_L, dom_empty_L. set_solver.
Qed.

Lemma edge_results_perform packet :
  preserves results_bounded (perform_edge_analytics clk packet).
Proof.
  intros st [Hsize Hall]. unfold perform_edge_analytics, exec, bind, get, now.
  cbn [fst snd sensor_history_ clock_reads_].
  destruct (_ <? _)%N; [split; assumption|].
  destruct (trend_analysis _ _ _) as [result|] eqn:Hr; [|split; assumption].
  unfold results_bounded. cbn [fst snd edge_results_ set_edge_results]. split.
  - apply push_bounded_length. exact Hsize.
  - unfold push_bounded. assert (Hnew : Forall well_formed_result (edge_results_ st ++ [result])).
    { apply Forall_app. split; [exact Hall|].
      apply Forall_singleton. eapply trend_analysis_well_formed, Hr. }
    destruct (_ <? _)%N; [|exact Hnew].
    destruct (edge_results_ st ++ [result]) as [|r0 rs]; [constructor|].
    apply Forall_cons in Hnew as [_ Hnew]. exact Hnew.
Qed.

Lemma edge_results_run_call (st : state F) c :
  results_bounded st -> results_bounded (run_call clk st c).
Proof.
  revert st.
  change (preserves results_bounded (fun st => (tt, run_call clk st c))).
  destruct c; intros st Hst; unfold exec; cbn [snd run_call];
    rewrite ?get_sensor_statistics_exec; try exact Hst.
  - revert st Hst. unfold process_packet. frame_steps.
  - revert st Hst. unfold worker_step, process_packet_internal, update_statistics,
      store_in_history, check_alerts, forward_packet, periodic_aggregation,
      aggregate_and_forward, aggregate_sensor, format_aggregated_data.
    repeat first [apply edge_results_perform | (intros ? ?; assumption) | preserve_step].
Qed.

Lemma edge_results_run (config : RPi4GatewayConfig.t F) calls :
  results_bounded (run clk (create config) calls).
Proof.
  induction calls as [|c calls IH] using rev_ind.
  - split; [vm_compute; discriminate|constructor].
  - rewrite processor_run_snoc. apply edge_results_run_call, IH.
Qed.

End EdgeResults.

(** X22.  After any sequence of calls on a new processor at most 100 trend
    results are stored, and every one of them is a "trend_analysis" with
    the four metrics slope, intercept, current temperature and current
    humidity, with as many recommendations as alerts, at most two of each,
    and with a confidence score that is 1.0 or compares below 1.0 (never
    above it, and never a NaN). *)
Theorem edge_results_bounded {F : Type} `{FloatOps F} (clk : nat -> Z)
    (config : RPi4GatewayConfig.t F) (calls : list (ProcessorSpec.call (F := F))) :
  let st := ProcessorSpec.run clk (DataProcessor.create config) calls in
  (size (DataProcessor.edge_results_ st) <= 100)%N
  /\ Forall ProcessorQueries.well_formed_result (DataProcessor.edge_results_ st).
Proof. apply edge_results_run. Qed.

(** X23.  On a processor reached from a new one, and for a [count] from 0
    to 2^31 - 1, [get_recent_edge_results(count)] returns the last [count]
    stored results, oldest first, or all of them when fewer are stored. *)
Theorem get_recent_edge_results_last {F : Type} `{FloatOps F} (clk : nat -> Z)
    (config : RPi4GatewayConfig.t F) (calls : list (ProcessorSpec.call (F := F)))
    (count : Z) :
  0 <= count < 2 ^ 31 ->
  let st := ProcessorSpec.run clk (DataProcessor.create config) calls in
  DataProcessor.get_recent_edge_results count st
  = Some (last_n (Z.to_N count) (DataProcessor.edge_results_ st))
  /\ (length (last_n (Z.to_N count) (DataProcessor.edge_results_ st))
      = Nat.min (Z.to_nat count) (length (DataProcessor.edge_results_ st))).
Proof.
  intros Hcount. cbv zeta.
  destruct (edge_results_run clk config calls) as [Hsize _].
  unfold DataProcessor.get_recent_edge_results. split.
  - apply recent_items_last_n; unfold size in *; lia.
  - unfold last_n. rewrite length_drop. lia.
Qed.

(** The last three trend results after the ten packets. *)
Lemma recent_edge_results_of_ten :
  DataProcessor.get_recent_edge_results 3 Scenario.ten_processed
  = Some (last_n 3 (DataProcessor.edge_results_ Scenario.ten_processed)).
Proof.
  apply (get_recent_edge_results_last Scenario.still_clock RPi4GatewayConfig.default
           Scenario.ten_packets 3).
  lia.
Defined.

(** ** Forwarding *)

Section Forwarding.
Import DataProcessor ProcessorSpec ProcessorQueries.
Context {F : Type} `{FloatOps F}.
Variable clk : nat -> time_point.

Lemma format_aggregated_data_result packets (st : state F) :
  is_raw (eval (format_aggregated_data clk packets) st) = false
  /\ mqtt_sent_ (exec (format_aggregated_data clk packets) st) = mqtt_sent_ st
  /\ websocket_sent_ (exec (format_aggregated_data clk packets) st) = websocket_sent_ st
  /\ mqtt_callback_ (exec (format_aggregated_data clk packets) st) = mqtt_callback_ st
  /\ websocket_callback_ (exec (format_aggregated_data clk packets) st)
     = websocket_callback_ st.
Proof.
  unfold format_aggregated_data, eval, exec.
  destruct packets as [|first rest]; [repeat split|].
  destruct (fold_left _ _ _) as [[[[[sum_temp sum_hum] sum_press] lo] hi] n].
  destruct (n =? 0); repeat split.
Qed.

Lemma only_aggregates_aggregate_sensor cm cw bm bw entry :
  preserves (only_aggregates cm cw bm bw) (aggregate_sensor clk entry).
Proof.
  intros st (Hcm & Hcw & ms & ws & Hm & Hw & Fm & Fw & Em & Ew).
  unfold aggregate_sensor. destruct entry as [id history].
  destruct history as [|p0 history0];
    [repeat split; try assumption; exists ms, ws; repeat split; assumption|].
  unfold exec at 1. unfold bind at 1 2. unfold get at 1, now at 1.
  cbn [fst snd config_ clock_reads_].
  destruct (filter _ _) as [|first rest].
  { repeat split; try assumption. exists ms, ws. repeat split; assumption. }
  unfold bind at 1.
  match goal with
  | |- context [format_aggregated_data clk ?packets ?s0] =>
      destruct (format_aggregated_data_result packets s0) as (Hraw & Hm' & Hw' & Hcm' & Hcw');
      unfold eval, exec in Hraw, Hm', Hw', Hcm', Hcw';
      destruct (format_aggregated_data clk packets s0) as [message s1]
  end.
  cbn [fst snd mqtt_sent_ websocket_sent_ mqtt_callback_ websocket_callback_] in *.
  unfold bind, mqtt_forward, websocket_forward.
  cbn [fst snd mqtt_sent_ websocket_sent_ mqtt_callback_ websocket_callback_].
  rewrite Hcm', Hcw', Hm', Hw', Hm, Hw, Hcm, Hcw.
  split; [reflexivity|]. split; [reflexivity|].
  destruct cm, cw.
  - eexists (ms ++ [_]), (ws ++ [_]). rewrite !app_assoc.
    split; [reflexivity|]. split; [reflexivity|].
    split; [apply Forall_app; split; [exact Fm|apply Forall_singleton; exact Hraw]|].
    split; [apply Forall_app; split; [exact Fw|apply Forall_singleton; exact Hraw]|].
    split; discriminate.
  - eexists (ms ++ [_]), ws. rewrite !app_assoc.
    split; [reflexivity|]. split; [reflexivity|].
    split; [apply Forall_app; split; [exact Fm|apply Forall_singleton; exact Hraw]|].
    split; [exact Fw|]. split; [discriminate|exact Ew].
  - eexists ms, (ws ++ [_]). rewrite !app_assoc.
    split; [reflexivity|]. split; [reflexivity|].
    split; [exact Fm|].
    split; [apply Forall_app; split; [exact Fw|apply Forall_singleton; exact Hraw]|].
    split; [exact Em|discriminate].
  - exists ms, ws. repeat split; assumption.
Qed.

Lemma only_aggregates_periodic_aggregation cm cw bm bw :
  preserves (only_aggregates cm cw bm bw) (periodic_aggregation clk).
Proof.
  unfold periodic_aggregation, aggregate_and_forward.
  repeat first [apply only_aggregates_aggregate_sensor | (intros ? ?; assumption)
               | preserve_step].
Qed.

(** The steps of [process_packet_internal] before the forwarding. *)
Lemma before_forwarding (st : state F) packet :
  let st' :=
    exec (update_statistics packet ;; store_in_history packet ;; check_alerts packet ;;
          (do st0 <- get;
           if edge_analytics_enabled_ st0 then perform_edge_analytics clk packet else ret tt))
         st in
  config_ st' = config_ st /\ mqtt_sent_ st' = mqtt_sent_ st
  /\ websocket_sent_ st' = websocket_sent_ st
  /\ mqtt_callback_ st' = mqtt_callback_ st
  /\ websocket_callback_ st' = websocket_callback_ st.
Proof.
  cbv zeta.
  match goal with
  | |- context [exec ?m st] =>
      assert (Hp : preserves
                (fun s : state F =>
                   (config_ s, mqtt_sent_ s, websocket_sent_ s, mqtt_callback_ s,
                    websocket_callback_ s)
                   = (config_ st, mqtt_sent_ st, websocket_sent_ st, mqtt_callback_ st,
                      websocket_callback_ st)) m)
  end.
  { unfold update_statistics, store_in_history, check_alerts, perform_edge_analytics.
    frame_steps. }
  specialize (Hp st eq_refl). cbv beta in Hp.
  injection Hp as -> -> -> -> ->. repeat split.
Qed.

Lemma exec_after_four {S A1 A2 A3 A4 B : Type} (m1 : State S A1) (m2 : State S A2)
    (m3 : State S A3) (m4 : State S A4) (rest : State S B) (s : S) :
  exec (m1 ;; m2 ;; m3 ;; m4 ;; rest) s = exec rest (exec (m1 ;; m2 ;; m3 ;; m4) s).
Proof.
  unfold exec, bind.
  destruct (m1 s) as [a1 s1]. destruct (m2 s1) as [a2 s2].
  destruct (m3 s2) as [a3 s3]. destruct (m4 s3) as [a4 s4]. reflexivity.
Qed.

Lemma process_packet_internal_sent (st : state F) packet :
  SensorDataPacket.is_valid packet = true ->
  let gateway := RPi4GatewayConfig.gateway_id (config_ st) in
  only_aggregates (mqtt_callback_ st) (websocket_callback_ st)
    (mqtt_sent_ st
       ++ (if mqtt_callback_ st
           then [(data_topic (config_ st) (SensorDataPacket.sensor_id packet),
                  MqttData packet gateway)]
           else []))
    (websocket_sent_ st
       ++ (if websocket_callback_ st then [WebSocketData packet gateway] else []))
    (exec (process_packet_internal clk packet) st).
Proof.
  intros Hv. cbv zeta. unfold process_packet_internal. rewrite Hv. cbn [negb].
  destruct (before_forwarding st packet) as (Hc & Hm & Hw & Hcm & Hcw).
  rewrite exec_after_four, exec_bind.
  apply only_aggregates_periodic_aggregation.
  set (s4 := exec _ st) in *.
  unfold only_aggregates, forward_packet, exec, bind, get, mqtt_forward,
    websocket_forward, data_topic.
  cbn [fst snd config_ mqtt_sent_ websocket_sent_ mqtt_callback_ websocket_callback_].
  rewrite Hc, Hm, Hw, Hcm, Hcw.
  destruct (mqtt_callback_ st), (websocket_callback_ st);
    cbn [fst snd config_ mqtt_sent_ websocket_sent_ mqtt_callback_ websocket_callback_];
    rewrite ?Hc, ?Hm, ?Hw, ?Hcm, ?Hcw;
    (split; [reflexivity|]; split; [reflexivity|]; exists [], [];
     rewrite !app_nil_r; repeat split; constructor).
Qed.

End Forwarding.



(** ** Sensor frames *)

Section Bytes.
Import FrameFacts.

Lemma land_byte x : Z.land x 0xFF = x mod 2 ^ 8.
Proof. change 0xFF with (Z.ones 8). apply Z.land_ones. lia. Qed.

Lemma land_byte_is_byte x : byte (Z.land x 0xFF).
Proof. rewrite land_byte. unfold byte. apply Z.mod_pos_bound. lia. Qed.

Lemma to_uint8_byte z : byte (to_uint8 z).
Proof. unfold byte, to_uint8. apply Z.mod_pos_bound. lia. Qed.

Lemma lor_shifted a b k :
  0 <= k -> 0 <= b < 2 ^ k -> Z.lor (a * 2 ^ k) b = a * 2 ^ k + b.
Proof.
  intros Hk Hb. rewrite <- Z.shiftl_mul_pow2 by exact Hk.
  rewrite <- Z.lxor_lor, <- Z.add_nocarry_lxor; try reflexivity;
    (apply Z.bits_inj'; intros n Hn; rewrite Z.land_spec, Z.bits_0;
     destruct (Z.lt_ge_cases n k) as [Hlt|Hge];
     [rewrite Z.shiftl_spec_low by exact Hlt; reflexivity|];
     rewrite <- (Z.mod_small b (2 ^ k)) by exact Hb;
     rewrite Z.mod_pow2_bits_high by lia; apply andb_false_r).
Qed.

(** Two bytes of a value, put together again, are its low sixteen bits. *)
Lemma join_two_bytes x :
  Z.lor (Z.shiftl (Z.land (Z.shiftr x 8) 0xFF) 8) (Z.land x 0xFF) = x mod 2 ^ 16.
Proof.
  rewrite !land_byte, Z.shiftr_div_pow2, Z.shiftl_mul_pow2 by lia.
  rewrite lor_shifted by (try lia; apply Z.mod_pos_bound; lia).
  change (2 ^ 16) with (2 ^ 8 * 2 ^ 8). rewrite Z.rem_mul_r by lia. lia.
Qed.

Lemma join_four_bytes x :
  Z.lor (Z.lor (Z.lor (Z.shiftl (Z.land (Z.shiftr x 24) 0xFF) 24)
                      (Z.shiftl (Z.land (Z.shiftr x 16) 0xFF) 16))
               (Z.shiftl (Z.land (Z.shiftr x 8) 0xFF) 8))
        (Z.land x 0xFF)
  = x mod 2 ^ 32.
Proof.
  rewrite !land_byte, !Z.shiftr_div_pow2, !Z.shiftl_mul_pow2 by lia.
  assert (Hsplit : x mod 2 ^ 32
                   = x mod 2 ^ 8 + 2 ^ 8 * ((x / 2 ^ 8) mod 2 ^ 8)
                     + 2 ^ 16 * ((x / 2 ^ 16) mod 2 ^ 8)
                     + 2 ^ 24 * ((x / 2 ^ 24) mod 2 ^ 8)).
  { change (2 ^ 32) with (2 ^ 8 * (2 ^ 8 * (2 ^ 8 * 2 ^ 8))).
    rewrite (Z.rem_mul_r x) by lia.
    rewrite (Z.rem_mul_r (x / 2 ^ 8)) by lia.
    rewrite (Z.rem_mul_r (x / 2 ^ 8 / 2 ^ 8)) by lia.
    rewrite !Z.div_div by lia.
    change (2 ^ 8 * 2 ^ 8) with (2 ^ 16). change (2 ^ 16 * 2 ^ 8) with (2 ^ 24).
    lia. }
  rewrite Hsplit.
  pose proof (Z.mod_pos_bound x (2 ^ 8) ltac:(lia)) as H0.
  pose proof (Z.mod_pos_bound (x / 2 ^ 8) (2 ^ 8) ltac:(lia)) as H1.
  pose proof (Z.mod_pos_bound (x / 2 ^ 16) (2 ^ 8) ltac:(lia)) as H2.
  pose proof (Z.mod_pos_bound (x / 2 ^ 24) (2 ^ 8) ltac:(lia)) as H3.
  set (d := x mod 2 ^ 8) in *. set (c := (x / 2 ^ 8) mod 2 ^ 8) in *.
  set (b := (x / 2 ^ 16) mod 2 ^ 8) in *. set (a := (x / 2 ^ 24) mod 2 ^ 8) in *.
  rewrite (lor_shifted a (b * 2 ^ 16) 24) by lia.
  replace (a * 2 ^ 24 + b * 2 ^ 16) with ((a * 2 ^ 8 + b) * 2 ^ 16) by lia.
  rewrite (lor_shifted _ (c * 2 ^ 8) 16) by lia.
  replace ((a * 2 ^ 8 + b) * 2 ^ 16 + c * 2 ^ 8)
    with (((a * 2 ^ 8 + b) * 2 ^ 8 + c) * 2 ^ 8) by lia.
  rewrite (lor_shifted _ d 8) by lia.
  lia.
Qed.

Lemma to_int16_wrapped x : - 2 ^ 15 <= x < 2 ^ 15 -> to_int16 (x mod 2 ^ 16) = x.
Proof.
  intros Hx. unfold to_int16.
  rewrite Z.add_mod_idemp_l by lia. rewrite Z.mod_small by lia. lia.
Qed.

Lemma to_uint16_wrapped x : 0 <= x < 2 ^ 16 -> to_uint16 (x mod 2 ^ 16) = x.
Proof. intros Hx. unfold to_uint16. rewrite Z.mod_mod by lia. apply Z.mod_small, Hx. Qed.

End Bytes.

Section Encoding.
Import FrameFacts STM32_SensorNode.
Context {F : Type} `{FloatOps F} `{FloatFrameOps F}.
Variable hash : string -> Z.

Lemma float_to_int16_range (x : F) z :
  float_to_int16 x = Some z -> - 2 ^ 15 <= z < 2 ^ 15.
Proof.
  unfold float_to_int16. destruct (f_truncate x) as [t|]; [|discriminate].
  destruct (decide _) as [Hr|]; [|discriminate]. intros [= <-]. exact Hr.
Qed.

Lemma float_to_uint16_range (x : F) z :
  float_to_uint16 x = Some z -> 0 <= z < 2 ^ 16.
Proof.
  unfold float_to_uint16. destruct (f_truncate x) as [t|]; [|discriminate].
  destruct (decide _) as [Hr|]; [|discriminate]. intros [= <-]. exact Hr.
Qed.

(** The frame that [create_binary_packet] builds, byte by byte. *)
Lemma create_binary_packet_bytes node_id reading frame :
  create_binary_packet hash node_id reading = Some frame ->
  exists temp_int hum_int volt_int,
    float_to_int16 (fmul (SensorReading.temperature_celsius reading) (f_of_Z 100))
    = Some temp_int
    /\ float_to_uint16 (fmul (SensorReading.humidity_percent reading) (f_of_Z 100))
       = Some hum_int
    /\ float_to_uint16 (fmul (SensorReading.supply_voltage reading) (f_of_Z 1000))
       = Some volt_int
    /\ exists b2 b3 b4 b5 b6 b7 b8 b9 b10 b11 checksum,
         frame = [0xAA; 0xBB; b2; b3; b4; b5; b6; b7; b8; b9; b10; b11;
                  SensorReading.sensor_status reading; checksum]
         /\ Forall byte [b2; b3; b4; b5; b6; b7; b8; b9; b10; b11; checksum]
         /\ xor_range 2 13 frame = checksum
         /\ frame_node_hash frame = to_uint32 (hash node_id)
         /\ frame_temp_raw frame = temp_int
         /\ frame_hum_raw frame = hum_int
         /\ frame_volt_raw frame = volt_int.
Proof.
  unfold create_binary_packet.
  destruct (float_to_int16 _) as [temp_int|] eqn:Htemp; [|discriminate].
  destruct (float_to_uint16 _) as [hum_int|] eqn:Hhum; [|discriminate].
  destruct (float_to_uint16 (fmul (SensorReading.supply_voltage reading) _))
    as [volt_int|] eqn:Hvolt; [|discriminate].
  intros [= <-]. exists temp_int, hum_int, volt_int.
  split; [reflexivity|]. split; [reflexivity|]. split; [reflexivity|].
  do 11 eexists. split; [cbn [app length]; reflexivity|].
  split.
  { repeat (apply Forall_cons; split; [apply land_byte_is_byte|]).
    apply Forall_cons. split; [|constructor].
    unfold xor_range. cbn [length Nat.sub drop take fold_left]. apply to_uint8_byte. }
  split; [unfold xor_range; cbn [length Nat.sub drop take fold_left]; reflexivity|].
  split.
  { unfold frame_node_hash.
    cbn [lookup_total list_lookup_total app].
    rewrite join_four_bytes. unfold to_uint32. rewrite !Z.mod_mod by lia. reflexivity. }
  split.
  { unfold frame_temp_raw. cbn [lookup_total list_lookup_total app].
    rewrite join_two_bytes. apply to_int16_wrapped, (float_to_int16_range _ _ Htemp). }
  split.
  { unfold frame_hum_raw. cbn [lookup_total list_lookup_total app].
    rewrite join_two_bytes. apply to_uint16_wrapped, (float_to_uint16_range _ _ Hhum). }
  unfold frame_volt_raw. cbn [lookup_total list_lookup_total app].
  rewrite join_two_bytes. apply to_uint16_wrapped, (float_to_uint16_range _ _ Hvolt).
Qed.

Lemma created_frame_length node_id reading frame :
  create_binary_packet hash node_id reading = Some frame -> length frame = 14%nat.
Proof.
  intros Hc. destruct (create_binary_packet_bytes _ _ _ Hc)
    as (t & h & v & _ & _ & _ & b2 & b3 & b4 & b5 & b6 & b7 & b8 & b9 & b10 & b11 & c
        & -> & _).
  reflexivity.
Qed.

Lemma created_frame_checksum node_id reading frame :
  create_binary_packet hash node_id reading = Some frame ->
  xor_range 2 13 frame = frame !!! 13%nat.
Proof.
  intros Hc. destruct (create_binary_packet_bytes _ _ _ Hc)
    as (t & h & v & _ & _ & _ & b2 & b3 & b4 & b5 & b6 & b7 & b8 & b9 & b10 & b11 & c
        & Hf & _ & Hx & _).
  rewrite Hx, Hf. reflexivity.
Qed.

Lemma created_frame_well_formed node_id reading frame :
  create_binary_packet hash node_id reading = Some frame ->
  byte (SensorReading.sensor_status reading) ->
  well_formed frame.
Proof.
  intros Hc Hstatus. pose proof (created_frame_checksum _ _ _ Hc) as Hsum.
  destruct (create_binary_packet_bytes _ _ _ Hc)
    as (t & h & v & _ & _ & _ & b2 & b3 & b4 & b5 & b6 & b7 & b8 & b9 & b10 & b11 & c
        & -> & Hbytes & _).
  split; [reflexivity|]. split; [|split; [reflexivity|split; [reflexivity|exact Hsum]]].
  repeat match goal with
         | Hb : Forall byte (_ :: _) |- _ =>
             apply Forall_cons in Hb; destruct Hb as [? Hb]
         end.
  repeat (apply Forall_cons; split; [first [assumption | unfold byte; lia]|]).
  constructor.
Qed.

End Encoding.

(** X25.  Whenever [create_binary_packet] is defined on a reading whose
    status is a byte, the frame it builds is one that the receivers take:
    fourteen bytes, the header 0xAA 0xBB first, and last the byte that
    [UARTInterface::reader_loop] and [SPIInterface::parse_spi_packet]
    compute as the checksum of the third to the thirteenth. *)
Theorem created_frame_is_accepted {F : Type} `{FloatOps F} `{FloatFrameOps F}
    (hash : string -> Z) (node_id : string) (reading : STM32_SensorNode.SensorReading.t F)
    (frame : list Z) :
  STM32_SensorNode.create_binary_packet hash node_id reading = Some frame ->
  FrameFacts.byte (STM32_SensorNode.SensorReading.sensor_status reading) ->
  length frame = 14%nat
  /\ Forall FrameFacts.byte frame
  /\ take 2 frame = [0xAA; 0xBB]
  /\ xor_range 2 13 frame = frame !!! 13%nat.
Proof.
  intros Hc Hstatus.
  destruct (created_frame_well_formed hash _ _ _ Hc Hstatus) as (Hlen & Hbytes & Hfirst & Hsecond & Hsum).
  split; [exact Hlen|]. split; [exact Hbytes|]. split; [|exact Hsum].
  destruct frame as [|b0 [|b1 rest]]; try discriminate.
  cbn in Hfirst, Hsecond. injection Hfirst as ->. injection Hsecond as ->. reflexivity.
Qed.

(** The frame of a reading of 23.45 degrees, 55.12 per cent and 3.3 V. *)
Lemma node_frame_is_accepted :
  length Scenario.node_frame = 14%nat
  /\ Forall FrameFacts.byte Scenario.node_frame
  /\ take 2 Scenario.node_frame = [0xAA; 0xBB]
  /\ xor_range 2 13 Scenario.node_frame = Scenario.node_frame !!! 13%nat.
Proof.
  apply (created_frame_is_accepted Scenario.node_hash "node" Scenario.node_reading).
  - vm_compute. reflexivity.
  - vm_compute. split; [discriminate|reflexivity].
Defined.


Section Decoding.
Import FrameFacts STM32_SensorNode.
Context {F : Type} `{FloatOps F} `{FloatFrameOps F}.
Variable hash : string -> Z.

(** What both receivers read in a frame that [create_binary_packet] built. *)
Lemma created_frame_decoded node_id reading frame now :
  create_binary_packet hash node_id reading = Some frame ->
  exists temp_int hum_int volt_int,
    float_to_int16 (fmul (SensorReading.temperature_celsius reading) (f_of_Z 100))
    = Some temp_int
    /\ float_to_uint16 (fmul (SensorReading.humidity_percent reading) (f_of_Z 100))
       = Some hum_int
    /\ float_to_uint16 (fmul (SensorReading.supply_voltage reading) (f_of_Z 1000))
       = Some volt_int
    /\ forall packet : SensorDataPacket.t F,
         packet = UARTInterface.parse_uart_packet now frame
         \/ packet = SPIInterface.parse_spi_packet now frame ->
         SensorDataPacket.temperature_celsius packet = fdiv (f_of_Z temp_int) (f_of_Z 100)
         /\ SensorDataPacket.humidity_percent packet = fdiv (f_of_Z hum_int) (f_of_Z 100)
         /\ SensorDataPacket.supply_voltage packet = fdiv (f_of_Z volt_int) (f_of_Z 1000)
         /\ SensorDataPacket.sensor_status packet = SensorReading.sensor_status reading
         /\ SensorDataPacket.timestamp packet = now
         /\ exists prefix,
              (prefix = "sensor_" \/ prefix = "spi_sensor_")
              /\ SensorDataPacket.sensor_id packet
                 = prefix +:+ to_string (to_uint32 (hash node_id) mod 10000).
Proof.
  intros Hc. pose proof (created_frame_length hash _ _ _ Hc) as Hlen.
  pose proof (created_frame_checksum hash _ _ _ Hc) as Hsum.
  destruct (create_binary_packet_bytes hash _ _ _ Hc)
    as (t & h & v & Ht & Hh & Hv & b2 & b3 & b4 & b5 & b6 & b7 & b8 & b9 & b10 & b11 & c
        & Hf & _ & _ & Hhash & Htemp & Hhum & Hvolt).
  exists t, h, v. split; [exact Ht|]. split; [exact Hh|]. split; [exact Hv|].
  assert (Hstatus : frame !!! 12%nat = SensorReading.sensor_status reading)
    by (rewrite Hf; reflexivity).
  intros packet [-> | ->].
  - unfold UARTInterface.parse_uart_packet. rewrite Hlen. cbn [Nat.ltb Nat.leb].
    cbv zeta. cbn [SensorDataPacket.temperature_celsius SensorDataPacket.humidity_percent
                   SensorDataPacket.supply_voltage SensorDataPacket.sensor_status
                   SensorDataPacket.timestamp SensorDataPacket.sensor_id].
    rewrite Hhash, Htemp, Hhum, Hvolt, Hstatus. repeat split.
    exists "sensor_". split; [left; reflexivity|reflexivity].
  - unfold SPIInterface.parse_spi_packet. rewrite Hlen. cbn [Nat.ltb Nat.leb].
    rewrite (bool_decide_eq_true_2 _ Hsum). cbn [negb].
    cbv zeta. cbn [SensorDataPacket.temperature_celsius SensorDataPacket.humidity_percent
                   SensorDataPacket.supply_voltage SensorDataPacket.sensor_status
                   SensorDataPacket.timestamp SensorDataPacket.sensor_id].
    rewrite Hhash, Htemp, Hhum, Hvolt, Hstatus. repeat split.
    exists "spi_sensor_". split; [right; reflexivity|reflexivity].
Qed.

End Decoding.

(** X26.  A frame that [create_binary_packet] built decodes, in
    [UARTInterface::parse_uart_packet] and in
    [SPIInterface::parse_spi_packet] alike, to the values that were encoded:
    the temperature and the humidity are the hundredths the sender
    truncated them to, divided by 100, the supply voltage the thousandths
    divided by 1000, the status byte is the sender's, and the sensor id is
    the prefix of the interface followed by the node hash modulo 10000. *)
Theorem frame_decodes_to_encoded_values {F : Type} `{FloatOps F} `{FloatFrameOps F}
    (hash : string -> Z) (node_id : string) (reading : STM32_SensorNode.SensorReading.t F)
    (frame : list Z) (now : Z) :
  STM32_SensorNode.create_binary_packet hash node_id reading = Some frame ->
  exists temp_int hum_int volt_int,
    float_to_int16
      (fmul (STM32_SensorNode.SensorReading.temperature_celsius reading) (f_of_Z 100))
    = Some temp_int
    /\ float_to_uint16
         (fmul (STM32_SensorNode.SensorReading.humidity_percent reading) (f_of_Z 100))
       = Some hum_int
    /\ float_to_uint16
         (fmul (STM32_SensorNode.SensorReading.supply_voltage reading) (f_of_Z 1000))
       = Some volt_int
    /\ let uart : SensorDataPacket.t F := UARTInterface.parse_uart_packet now frame in
       let spi : SensorDataPacket.t F := SPIInterface.parse_spi_packet now frame in
       SensorDataPacket.sensor_id uart
       = "sensor_" +:+ to_string (to_uint32 (hash node_id) mod 10000)
       /\ SensorDataPacket.sensor_id spi
          = "spi_sensor_" +:+ to_string (to_uint32 (hash node_id) mod 10000)
       /\ Forall (fun packet =>
                    SensorDataPacket.temperature_celsius packet
                    = fdiv (f_of_Z temp_int) (f_of_Z 100)
                    /\ SensorDataPacket.humidity_percent packet
                       = fdiv (f_of_Z hum_int) (f_of_Z 100)
                    /\ SensorDataPacket.supply_voltage packet
                       = fdiv (f_of_Z volt_int) (f_of_Z 1000)
                    /\ SensorDataPacket.sensor_status packet
                       = STM32_SensorNode.SensorReading.sensor_status reading)
                 [uart; spi].
Proof.
  intros Hc.
  destruct (created_frame_decoded hash _ _ _ now Hc) as (t & h & v & Ht & Hh & Hv & Hp).
  exists t, h, v. split; [exact Ht|]. split; [exact Hh|]. split; [exact Hv|]. cbv zeta.
  pose proof (created_frame_length hash _ _ _ Hc) as Hlen.
  pose proof (created_frame_checksum hash _ _ _ Hc) as Hsum.
  destruct (create_binary_packet_bytes hash _ _ _ Hc)
    as (_ & _ & _ & _ & _ & _ & b2 & b3 & b4 & b5 & b6 & b7 & b8 & b9 & b10 & b11 & c
        & _ & _ & _ & Hhash & _).
  split.
  { unfold UARTInterface.parse_uart_packet. rewrite Hlen. cbn [Nat.ltb Nat.leb].
    cbv zeta. cbn [SensorDataPacket.sensor_id]. rewrite Hhash. reflexivity. }
  split.
  { unfold SPIInterface.parse_spi_packet. rewrite Hlen. cbn [Nat.ltb Nat.leb].
    rewrite (bool_decide_eq_true_2 _ Hsum). cbn [negb].
    cbv zeta. cbn [SensorDataPacket.sensor_id]. rewrite Hhash. reflexivity. }
  apply Forall_cons. split.
  { destruct (Hp _ (or_introl eq_refl)) as (Ht' & Hh' & Hv' & Hs' & _).
    split; [exact Ht'|split; [exact Hh'|split; [exact Hv'|exact Hs']]]. }
  apply Forall_cons. split; [|constructor].
  destruct (Hp _ (or_intror eq_refl)) as (Ht' & Hh' & Hv' & Hs' & _).
  split; [exact Ht'|split; [exact Hh'|split; [exact Hv'|exact Hs']]].
Qed.

Lemma node_frame_decodes :
  exists temp_int hum_int volt_int,
    float_to_int16
      (fmul (STM32_SensorNode.SensorReading.temperature_celsius Scenario.node_reading)
            (f_of_Z 100))
    = Some temp_int
    /\ float_to_uint16
         (fmul (STM32_SensorNode.SensorReading.humidity_percent Scenario.node_reading)
               (f_of_Z 100))
       = Some hum_int
    /\ float_to_uint16
         (fmul (STM32_SensorNode.SensorReading.supply_voltage Scenario.node_reading)
               (f_of_Z 1000))
       = Some volt_int
    /\ let uart : SensorDataPacket.t binary32 :=
         UARTInterface.parse_uart_packet 7 Scenario.node_frame in
       let spi : SensorDataPacket.t binary32 :=
         SPIInterface.parse_spi_packet 7 Scenario.node_frame in
       SensorDataPacket.sensor_id uart
       = "sensor_" +:+ to_string (to_uint32 (Scenario.node_hash "node") mod 10000)
       /\ SensorDataPacket.sensor_id spi
          = "spi_sensor_" +:+ to_string (to_uint32 (Scenario.node_hash "node") mod 10000)
       /\ Forall (fun packet =>
                    SensorDataPacket.temperature_celsius packet
                    = fdiv (f_of_Z temp_int) (f_of_Z 100)
                    /\ SensorDataPacket.humidity_percent packet
                       = fdiv (f_of_Z hum_int) (f_of_Z 100)
                    /\ SensorDataPacket.supply_voltage packet
                       = fdiv (f_of_Z volt_int) (f_of_Z 1000)
                    /\ SensorDataPacket.sensor_status packet
                       = STM32_SensorNode.SensorReading.sensor_status Scenario.node_reading)
                 [uart; spi].
Proof.
  apply (frame_decodes_to_encoded_values Scenario.node_hash "node" Scenario.node_reading
           Scenario.node_frame 7).
  vm_compute. reflexivity.
Defined.

Section ExactFrames.
Import FrameFacts STM32_SensorNode.
Local Open Scope Q_scope.

(** Truncation toward zero moves a rational by less than one. *)
Lemma truncate_close (q : Q) (z : Z) :
  f_truncate q = Some z -> inject_Z z - 1 < q /\ q < inject_Z z + 1.
Proof.
  destruct q as [n d]. cbn [f_truncate Q_frame_ops Qnum Qden]. intros [= <-].
  pose proof (Z.quot_rem' n (Z.pos d)) as Hqr.
  pose proof (Z.rem_bound_abs n (Z.pos d) ltac:(lia)) as Hrem.
  unfold Qlt, Qminus, Qplus, Qopp, inject_Z. cbn [Qnum Qden].
  split; nia.
Qed.

Lemma hundredth_close (x : Q) (z : Z) (scale : Z) :
  (0 < scale)%Z ->
  f_truncate (fmul x (f_of_Z scale)) = Some z ->
  Qabs (fdiv (f_of_Z z) (f_of_Z scale) - x) < 1 / inject_Z scale.
Proof.
  intros Hscale Hz. apply truncate_close in Hz. destruct Hz as [Hlo Hhi].
  cbn [fmul fdiv f_of_Z Q_ops] in *.
  assert (Hs : 0 < inject_Z scale) by (unfold Qlt, inject_Z; cbn; lia).
  assert (Hnz : ~ inject_Z scale == 0)
    by (intros Hz0; rewrite Hz0 in Hs; apply (Qlt_irrefl 0), Hs).
  assert (Heq : inject_Z z / inject_Z scale - x
                == (inject_Z z - x * inject_Z scale) / inject_Z scale)
    by (field; exact Hnz).
  assert (Hone : 1 / inject_Z scale * inject_Z scale == 1) by (field; exact Hnz).
  assert (Hneg : - (1 / inject_Z scale) * inject_Z scale == - (1)) by (field; exact Hnz).
  apply Qabs_Qlt_condition. rewrite Heq.
  split.
  - apply Qlt_shift_div_l; [exact Hs|]. rewrite Hneg. lra.
  - apply Qlt_shift_div_r; [exact Hs|]. rewrite Hone. lra.
Qed.

Lemma float_to_int16_truncated (x : Q) z : float_to_int16 x = Some z -> f_truncate x = Some z.
Proof.
  unfold float_to_int16. destruct (f_truncate x) as [t|]; [|discriminate].
  destruct (decide _); [|discriminate]. intros [= <-]. reflexivity.
Qed.

Lemma float_to_uint16_truncated (x : Q) z :
  float_to_uint16 x = Some z -> f_truncate x = Some z.
Proof.
  unfold float_to_uint16. destruct (f_truncate x) as [t|]; [|discriminate].
  destruct (decide _); [|discriminate]. intros [= <-]. reflexivity.
Qed.

End ExactFrames.




Section Corruption.
Import FrameFacts.

Lemma lxor_bytes a b : byte a -> byte b -> byte (Z.lxor a b).
Proof.
  unfold byte. intros Ha Hb.
  assert (Hmod : Z.lxor a b = Z.lxor a b mod 2 ^ 8).
  { apply Z.bits_inj'. intros n Hn.
    destruct (Z.lt_ge_cases n 8) as [Hlt|Hge].
    - rewrite Z.mod_pow2_bits_low by exact Hlt. reflexivity.
    - rewrite Z.mod_pow2_bits_high by lia. rewrite Z.lxor_spec.
      rewrite <- (Z.mod_small a (2 ^ 8)), <- (Z.mod_small b (2 ^ 8)) by lia.
      rewrite !Z.mod_pow2_bits_high by lia. reflexivity. }
  rewrite Hmod. apply Z.mod_pos_bound. lia.
Qed.

(** On bytes the [uint8_t] accumulator never wraps. *)
Lemma xor_fold_plain (l : list Z) (checksum : Z) :
  Forall byte l -> byte checksum ->
  fold_left (fun checksum byte => to_uint8 (Z.lxor checksum byte)) l checksum
  = fold_left Z.lxor l checksum.
Proof.
  intros Hl. revert checksum. induction Hl as [|b l Hb _ IH]; intros checksum Hc.
  - reflexivity.
  - cbn [fold_left].
    assert (Hx : to_uint8 (Z.lxor checksum b) = Z.lxor checksum b)
      by (apply Z.mod_small, lxor_bytes; assumption).
    rewrite Hx. apply IH, lxor_bytes; assumption.
Qed.

Lemma fold_lxor_acc (l : list Z) (a b : Z) :
  fold_left Z.lxor l (Z.lxor a b) = Z.lxor (fold_left Z.lxor l a) b.
Proof.
  revert a. induction l as [|x l IH]; intros a; [reflexivity|].
  cbn [fold_left]. rewrite <- IH. f_equal.
  rewrite !Z.lxor_assoc. f_equal. apply Z.lxor_comm.
Qed.

(** Replacing one element changes the xor by the xor of the old and the
    new element. *)
Lemma fold_lxor_insert (l : list Z) (j : nat) (b checksum : Z) :
  (j < length l)%nat ->
  fold_left Z.lxor (<[j := b]> l) checksum
  = Z.lxor (fold_left Z.lxor l checksum) (Z.lxor (l !!! j) b).
Proof.
  revert j checksum. induction l as [|x l IH]; intros j checksum Hj; [cbn in Hj; lia|].
  destruct j as [|j].
  - cbn [insert list_insert fold_left lookup_total list_lookup_total].
    replace (Z.lxor checksum b) with (Z.lxor (Z.lxor checksum x) (Z.lxor x b)).
    + apply fold_lxor_acc.
    + rewrite Z.lxor_assoc, <- (Z.lxor_assoc x x b), Z.lxor_nilpotent, Z.lxor_0_l.
      reflexivity.
  - cbn [insert list_insert fold_left lookup_total list_lookup_total].
    apply IH. cbn in Hj. lia.
Qed.

(** A frame that passes the checksum fails it after any one of the bytes
    that the checksum covers, or the checksum itself, has changed. *)
Lemma corrupted_checksum (data : list Z) (i : nat) (b : Z) :
  length data = 14%nat -> Forall byte data ->
  xor_range 2 13 data = data !!! 13%nat ->
  (2 <= i < 14)%nat -> byte b -> b <> data !!! i ->
  xor_range 2 13 (<[i := b]> data) <> (<[i := b]> data) !!! 13%nat.
Proof.
  intros Hlen Hbytes Hsum Hi Hb Hne.
  destruct (decide (i = 13%nat)) as [->|Hi13].
  - rewrite list_lookup_total_insert_eq by lia.
    unfold xor_range in *. cbn [Nat.sub] in *.
    rewrite drop_insert_ge, take_insert_ge by lia.
    cbn [Nat.sub]. rewrite Hsum. intros Heq. apply Hne. symmetry. exact Heq.
  - rewrite list_lookup_total_insert_ne by lia.
    unfold xor_range in *. cbn [Nat.sub] in *.
    rewrite drop_insert_ge, take_insert_lt by lia.
    assert (Hcovered : Forall byte (take 11 (drop 2 data)))
      by (apply Forall_take, Forall_drop, Hbytes).
    rewrite xor_fold_plain in Hsum by (try exact Hcovered; unfold byte; lia).
    rewrite xor_fold_plain.
    2:{ apply Forall_insert; [exact Hcovered|exact Hb]. }
    2:{ unfold byte; lia. }
    rewrite fold_lxor_insert by (rewrite length_take, length_drop; lia).
    rewrite Hsum, lookup_total_take_lt, lookup_total_drop by lia.
    replace (2 + (i - 2))%nat with i by lia.
    intros Heq.
    assert (Hzero : Z.lxor (data !!! i) b = 0).
    { apply (f_equal (Z.lxor (data !!! 13%nat))) in Heq.
      rewrite <- Z.lxor_assoc, Z.lxor_nilpotent, Z.lxor_0_l in Heq. exact Heq. }
    apply Z.lxor_eq in Hzero. apply Hne. symmetry. exact Hzero.
Qed.

End Corruption.

(** X28.  The checksum catches every change of a single byte: when one of
    the twelve bytes after the header of a frame that the receivers take
    is replaced by another byte, [SPIInterface::parse_spi_packet] returns a
    packet that is not valid and names no sensor, and the frame step of
    [UARTInterface::reader_loop] discards the frame without parsing it or
    calling the callback. *)
Theorem single_byte_corruption_rejected {F : Type} `{FloatOps F} `{FloatFrameOps F}
    (steady_clock : nat -> Z) (now : Z) (frame : list Z) (i : nat) (b : Z)
    (st : UARTInterface.state F) :
  FrameFacts.well_formed frame ->
  (2 <= i < 14)%nat -> FrameFacts.byte b -> b <> frame !!! i ->
  SensorDataPacket.is_valid (F := F) (SPIInterface.parse_spi_packet now (<[i := b]> frame))
  = false
  /\ SensorDataPacket.sensor_id (F := F) (SPIInterface.parse_spi_packet now (<[i := b]> frame))
     = ""
  /\ UARTInterface.receive_frame steady_clock (<[i := b]> frame) st = (tt, st).
Proof.
  intros (Hlen & Hbytes & _ & _ & Hsum) Hi Hb Hne.
  pose proof (corrupted_checksum frame i b Hlen Hbytes Hsum Hi Hb Hne) as Hbad.
  unfold SPIInterface.parse_spi_packet, UARTInterface.receive_frame.
  rewrite length_insert, Hlen. cbn [Nat.ltb Nat.leb].
  rewrite (bool_decide_eq_false_2 _ Hbad). cbn [negb].
  rewrite decide_False by exact Hbad.
  repeat split.
Qed.

Lemma node_frame_well_formed : FrameFacts.well_formed Scenario.node_frame.
Proof.
  split; [reflexivity|]. split; [|split; [reflexivity|split; [reflexivity|]]].
  - unfold Scenario.node_frame, FrameFacts.byte. repeat (apply Forall_cons; split; [lia|]).
    constructor.
  - vm_compute. reflexivity.
Qed.

(** The high byte of the temperature of the frame, set to 0. *)
Lemma corrupted_node_frame_rejected :
  SensorDataPacket.is_valid (F := binary32)
    (SPIInterface.parse_spi_packet 7 (<[6%nat := 0]> Scenario.node_frame))
  = false
  /\ SensorDataPacket.sensor_id (F := binary32)
       (SPIInterface.parse_spi_packet 7 (<[6%nat := 0]> Scenario.node_frame))
     = ""
  /\ UARTInterface.receive_frame (Scenario.ticking ns_per_second)
       (<[6%nat := 0]> Scenario.node_frame) Scenario.listening
     = (tt, Scenario.listening).
Proof.
  apply (single_byte_corruption_rejected (Scenario.ticking ns_per_second) 7
           Scenario.node_frame 6 0 Scenario.listening).
  - exact node_frame_well_formed.
  - lia.
  - unfold FrameFacts.byte. lia.
  - vm_compute. discriminate.
Defined.

Section Reader.
Import FrameFacts UARTInterface.
Context {F : Type} `{FloatOps F} `{FloatFrameOps F}.
Variable steady_clock : nat -> time_point.

Lemma scan_buffer_step (steps : nat) (buffer : list Z) :
  scan_buffer steady_clock (S steps) buffer
  = if (length buffer <? 14)%nat then ret buffer
    else
      match list_find (fun byte => byte = 0xAA) buffer with
      | None => ret []
      | Some (it, _) =>
          if ((length buffer - it <? 2)%nat
              || negb (bool_decide (buffer !!! S it = 0xBB)))
          then scan_buffer steady_clock steps (drop (S it) buffer)
          else if (14 <=? length buffer - it)%nat
          then receive_frame steady_clock (take 14 (drop it buffer)) ;;
               scan_buffer steady_clock steps (drop (it + 14) buffer)
          else ret buffer
      end.
Proof. reflexivity. Qed.

(** The loop never runs out of steps: any number of them that is at least
    the length of the buffer gives the same result. *)
Lemma scan_buffer_enough (n m : nat) (buffer : list Z) (st : state F) :
  (length buffer <= n)%nat -> (length buffer <= m)%nat ->
  scan_buffer steady_clock n buffer st = scan_buffer steady_clock m buffer st.
Proof.
  revert m buffer st. induction n as [|n IH]; intros m buffer st Hn Hm.
  - destruct buffer; [|cbn in Hn; lia]. destruct m; reflexivity.
  - destruct m as [|m].
    + destruct buffer; [|cbn in Hm; lia]. reflexivity.
    + rewrite !scan_buffer_step.
      destruct (length buffer <? 14)%nat eqn:Hshort; [reflexivity|].
      apply Nat.ltb_ge in Hshort.
      destruct (list_find _ buffer) as [[it found]|]; [|reflexivity].
      destruct (_ || _).
      * apply IH; rewrite length_drop; lia.
      * destruct (14 <=? length buffer - it)%nat; [|reflexivity].
        unfold bind. destruct (receive_frame _ _ st) as [[] st1].
        apply IH; rewrite length_drop; lia.
Qed.

Lemma scan_frame (steps : nat) (frame rest : list Z) (st : state F) :
  well_formed frame ->
  scan_buffer steady_clock (S steps) (frame ++ rest) st
  = scan_buffer steady_clock steps rest
      (mkState (data_callback_ st)
         (if data_callback_ st
             && SensorDataPacket.is_valid
                  (parse_uart_packet (F := F) (steady_clock (clock_reads_ st)) frame)
          then delivered_ st ++ [parse_uart_packet (steady_clock (clock_reads_ st)) frame]
          else delivered_ st)
         (S (clock_reads_ st))).
Proof.
  intros (Hlen & _ & Hfirst & Hsecond & Hsum).
  rewrite scan_buffer_step.
  assert (Hlong : (length (frame ++ rest) <? 14)%nat = false)
    by (apply Nat.ltb_ge; rewrite length_app; lia).
  rewrite Hlong.
  destruct frame as [|b0 [|b1 body]]; try discriminate.
  cbn in Hfirst, Hsecond. injection Hfirst as ->. injection Hsecond as ->.
  cbn [app list_find]. rewrite decide_True by reflexivity.
  cbn [option_map fmap prod_map fst snd].
  assert (Hbuffer : 0xAA :: 0xBB :: body ++ rest = (0xAA :: 0xBB :: body) ++ rest)
    by reflexivity.
  change ((0xAA :: 0xBB :: body ++ rest) !!! 1%nat) with 0xBB.
  rewrite bool_decide_eq_true_2 by reflexivity. cbn [negb].
  rewrite Hbuffer. clear Hbuffer.
  set (frame := 0xAA :: 0xBB :: body) in *.
  assert (Htwo : (length (frame ++ rest) - 0 <? 2)%nat = false)
    by (apply Nat.ltb_ge; rewrite length_app; lia).
  rewrite Htwo. cbn [orb].
  assert (Hfull : (14 <=? length (frame ++ rest) - 0)%nat = true)
    by (apply Nat.leb_le; rewrite length_app; lia).
  rewrite Hfull.
  change (drop 0 (frame ++ rest)) with (frame ++ rest).
  change (0 + 14)%nat with 14%nat.
  rewrite take_app_length', drop_app_length' by (symmetry; exact Hlen).
  unfold bind, receive_frame. rewrite decide_True by exact Hsum. reflexivity.
Qed.

Lemma parsed_cons (first : nat) (frame : list Z) (frames : list (list Z)) :
  parsed (F := F) steady_clock first (frame :: frames)
  = parse_uart_packet (steady_clock first) frame :: parsed steady_clock (S first) frames.
Proof.
  unfold parsed. rewrite imap_cons. f_equal.
  - rewrite Nat.add_0_r. reflexivity.
  - apply imap_ext. intros i x _. cbn. do 2 f_equal. lia.
Qed.

Lemma scan_frames (frames : list (list Z)) (tail : list Z) :
  Forall well_formed frames -> (length tail < 14)%nat ->
  forall (steps : nat) (st : state F),
    (length frames <= steps)%nat ->
    scan_buffer steady_clock steps (concat frames ++ tail) st
    = (tail,
       mkState (data_callback_ st)
         (delivered_ st
          ++ (if data_callback_ st
              then filter (fun packet => SensorDataPacket.is_valid packet = true)
                     (parsed steady_clock (clock_reads_ st) frames)
              else []))
         (clock_reads_ st + length frames)).
Proof.
  intros Hframes Htail. induction Hframes as [|frame frames Hframe _ IH]; intros steps st Hsteps.
  - cbn [concat app parsed imap filter list_filter length].
    replace (scan_buffer steady_clock steps tail st) with (tail, st).
    + destruct st as [callback delivered reads]. cbn [data_callback_ delivered_ clock_reads_].
      rewrite Nat.add_0_r. destruct callback; rewrite app_nil_r; reflexivity.
    + destruct steps; [reflexivity|]. rewrite scan_buffer_step.
      apply Nat.ltb_lt in Htail. rewrite Htail. reflexivity.
  - destruct steps as [|steps]; [cbn in Hsteps; lia|].
    cbn [concat]. rewrite <- app_assoc, (scan_frame _ _ _ _ Hframe).
    rewrite IH by (cbn in Hsteps; lia).
    cbn [data_callback_ delivered_ clock_reads_ length].
    f_equal. f_equal; [|lia].
    rewrite parsed_cons.
    destruct (data_callback_ st); cbn [andb].
    + destruct (SensorDataPacket.is_valid _) eqn:Hvalid.
      * rewrite filter_cons_True by exact Hvalid. rewrite <- app_assoc. reflexivity.
      * rewrite filter_cons_False by (rewrite Hvalid; discriminate). reflexivity.
    + reflexivity.
Qed.

End Reader.

(** X29.  Frames that arrive back to back are all received: when the
    buffer of [UARTInterface::reader_loop] holds frames that the receivers
    take, one after the other, followed by fewer than fourteen bytes, the
    loop parses every frame in order, reading the clock once for each,
    hands the valid packets to the callback when one is set, and leaves
    exactly the bytes that follow the last frame. *)
Theorem back_to_back_frames_received {F : Type} `{FloatOps F} `{FloatFrameOps F}
    (steady_clock : nat -> Z) (frames : list (list Z)) (tail : list Z)
    (st : UARTInterface.state F) :
  Forall FrameFacts.well_formed frames -> (length tail < 14)%nat ->
  UARTInterface.reader_loop_buffer steady_clock (concat frames ++ tail) st
  = (tail,
     UARTInterface.mkState (UARTInterface.data_callback_ st)
       (UARTInterface.delivered_ st
        ++ (if UARTInterface.data_callback_ st
            then filter (fun packet => SensorDataPacket.is_valid packet = true)
                   (FrameFacts.parsed steady_clock (UARTInterface.clock_reads_ st) frames)
            else []))
       (UARTInterface.clock_reads_ st + length frames)).
Proof.
  intros Hframes Htail. unfold UARTInterface.reader_loop_buffer.
  apply scan_frames; [exact Hframes|exact Htail|].
  rewrite length_app.
  assert (Hsum : (length frames <= length (concat frames))%nat).
  { clear Htail. induction Hframes as [|frame frames (Hlen & _) _ IH]; [reflexivity|].
    cbn [concat length]. rewrite length_app. lia. }
  lia.
Qed.

(** Two frames and the beginning of a third. *)
Lemma two_frames_received :
  UARTInterface.reader_loop_buffer (Scenario.ticking ns_per_second)
    (concat [Scenario.node_frame; Scenario.node_frame] ++ [0xAA; 0xBB; 1]) Scenario.listening
  = ([0xAA; 0xBB; 1],
     UARTInterface.mkState true
       ([]
        ++ filter (fun packet => SensorDataPacket.is_valid packet = true)
             (FrameFacts.parsed (Scenario.ticking ns_per_second) 0
                [Scenario.node_frame; Scenario.node_frame]))
       2).
Proof.
  apply (back_to_back_frames_received (Scenario.ticking ns_per_second)
           [Scenario.node_frame; Scenario.node_frame] [0xAA; 0xBB; 1] Scenario.listening).
  - apply Forall_cons. split; [exact node_frame_well_formed|].
    apply Forall_cons. split; [exact node_frame_well_formed|constructor].
  - cbn [length]. lia.
Defined.

Section Validity.
Import FrameFacts.

Lemma all_range_spec (k : nat) (lo : Z) (p : Z -> bool) :
  all_range k lo p = true -> forall z, lo <= z < lo + 2 ^ Z.of_nat k -> p z = true.
Proof.
  revert lo. induction k as [|k IH]; intros lo Hall z Hz.
  - cbn in Hz. replace z with lo by lia. exact Hall.
  - cbn [all_range] in Hall. apply andb_prop in Hall as [Hlow Hhigh].
    rewrite Nat2Z.inj_succ, Z.pow_succ_r in Hz by lia.
    destruct (Z.lt_ge_cases z (lo + 2 ^ Z.of_nat k)).
    + apply (IH lo Hlow). lia.
    + apply (IH _ Hhigh). lia.
Qed.

Lemma hundredths_checked : all_range 17 (- 2 ^ 16) hundredths_agree = true.
Proof. vm_compute. reflexivity. Qed.

Lemma thousandths_checked : all_range 16 0 thousandths_agree = true.
Proof. vm_compute. reflexivity. Qed.

Lemma to_int16_range z : - 2 ^ 15 <= to_int16 z < 2 ^ 15.
Proof. unfold to_int16. pose proof (Z.mod_pos_bound (z + 2 ^ 15) (2 ^ 16)). lia. Qed.

Lemma to_uint16_range z : 0 <= to_uint16 z < 2 ^ 16.
Proof. unfold to_uint16. apply Z.mod_pos_bound. lia. Qed.

(** The range test of both receivers, on the raw values of the frame. *)
Lemma range_test_raw (temp_raw hum_raw volt_raw : Z) :
  - 2 ^ 15 <= temp_raw < 2 ^ 15 -> 0 <= hum_raw < 2 ^ 16 -> 0 <= volt_raw < 2 ^ 16 ->
  let temperature : binary32 := fdiv (f_of_Z temp_raw) (f_of_Z 100) in
  let humidity : binary32 := fdiv (f_of_Z hum_raw) (f_of_Z 100) in
  let voltage : binary32 := fdiv (f_of_Z volt_raw) (f_of_Z 1000) in
  fle (f_of_Z (-50)) temperature && fle temperature (f_of_Z 100)
  && fle (f_of_Z 0) humidity && fle humidity (f_of_Z 100)
  && fle (f_of_Z 2) voltage && fle voltage (f_of_Z 5) = true
  <-> -5000 <= temp_raw <= 10000 /\ hum_raw <= 10000 /\ 2000 <= volt_raw <= 5000.
Proof.
  intros Ht Hh Hv. cbv zeta.
  pose proof (all_range_spec _ _ _ hundredths_checked temp_raw ltac:(cbn; lia)) as Htemp.
  pose proof (all_range_spec _ _ _ hundredths_checked hum_raw ltac:(cbn; lia)) as Hhum.
  pose proof (all_range_spec _ _ _ thousandths_checked volt_raw ltac:(cbn; lia)) as Hvolt.
  unfold hundredths_agree, thousandths_agree in Htemp, Hhum, Hvolt. cbv zeta in *.
  repeat match goal with
         | Hc : _ && _ = true |- _ => apply andb_prop in Hc; destruct Hc
         | Hc : Bool.eqb _ _ = true |- _ => apply Bool.eqb_prop in Hc
         end.
  repeat match goal with Hc : fle _ _ = _ |- _ => rewrite Hc; clear Hc end.
  rewrite !andb_true_iff, !Z.leb_le. lia.
Qed.

End Validity.

(** X30.  In binary32, both receivers accept a frame of at least fourteen
    bytes exactly on its raw values: the packet of
    [UARTInterface::parse_uart_packet] is valid if and only if the raw
    temperature lies between -5000 and 10000 hundredths, the raw humidity
    is at most 10000 hundredths and the raw voltage lies between 2000 and
    5000 thousandths, and the packet of [SPIInterface::parse_spi_packet] is
    valid if and only if, besides, the checksum holds.  The rounding of the
    divisions by 100 and 1000 moves no value across a bound. *)
Theorem validity_is_a_range_of_raw_values (now : Z) (data : list Z) :
  (14 <= length data)%nat ->
  let in_range :=
    -5000 <= frame_temp_raw data <= 10000
    /\ frame_hum_raw data <= 10000
    /\ 2000 <= frame_volt_raw data <= 5000 in
  (SensorDataPacket.is_valid (F := binary32) (UARTInterface.parse_uart_packet now data) = true
   <-> in_range)
  /\ (SensorDataPacket.is_valid (F := binary32) (SPIInterface.parse_spi_packet now data) = true
      <-> xor_range 2 13 data = data !!! 13%nat /\ in_range).
Proof.
  intros Hlen. cbv zeta.
  apply Nat.ltb_ge in Hlen.
  pose proof (range_test_raw (frame_temp_raw data) (frame_hum_raw data) (frame_volt_raw data)
                (to_int16_range _) (to_uint16_range _) (to_uint16_range _)) as Htest.
  cbv zeta in Htest.
  unfold UARTInterface.parse_uart_packet, SPIInterface.parse_spi_packet.
  rewrite Hlen. cbv zeta. split.
  - cbn [SensorDataPacket.is_valid]. exact Htest.
  - destruct (decide (xor_range 2 13 data = data !!! 13%nat)) as [Hsum|Hsum].
    + rewrite (bool_decide_eq_true_2 _ Hsum). cbn [negb SensorDataPacket.is_valid].
      rewrite Htest. tauto.
    + rewrite (bool_decide_eq_false_2 _ Hsum). cbn [negb SensorDataPacket.is_valid].
      split; [discriminate|tauto].
Qed.

(** The frame of the reading is in range. *)
Lemma node_frame_is_valid :
  SensorDataPacket.is_valid (F := binary32)
    (UARTInterface.parse_uart_packet 7 Scenario.node_frame) = true
  <-> -5000 <= frame_temp_raw Scenario.node_frame <= 10000
      /\ frame_hum_raw Scenario.node_frame <= 10000
      /\ 2000 <= frame_volt_raw Scenario.node_frame <= 5000.
Proof.
  apply (validity_is_a_range_of_raw_values 7 Scenario.node_frame).
  cbn [length Scenario.node_frame]. lia.
Defined.

